(** * PersonaScope: the row-analysis pipeline of [Worker.run] (src/main.py)

    A shallow embedding of [Worker.run] and of the library calls it makes,
    followed by the properties of the pipeline: the flattening of a model
    response, the isolation of row-level failures, cancellation, the fatal
    paths, the pacing delay and the derivation of the output path.

    Conventions.
    - A Python [str] is a Rocq [string]; its characters are the code points
      below 256.
    - The collaborators ([genai], [pandas], [json], the cancellation flag
      written by the UI thread, the file system) are the fields of a
      [world]; every statement is for an arbitrary [world].
    - [Worker.run] is written in a state-and-exception monad [M] whose state
      holds the trace of external actions and the files on disk. *)

From Stdlib Require Import ZArith String Ascii List DecimalString Lia.
From stdpp Require Import gmap strings list fin_maps.

#[local] Set Warnings "-register-all".
#[local] Open Scope Z_scope.

(* ===================================================================== *)
(** ** Python [str] methods used by [run] *)
(* ===================================================================== *)

Module Str.

(** The double quote and the line feed, which a literal cannot hold. *)
Definition dq : ascii := ascii_of_nat 34.
Definition nl : ascii := ascii_of_nat 10.

(** [q s] is [s] with every [^] turned into a double quote and every [|]
    into a line feed: literals below are written with [^] and [|]. *)
Fixpoint q (s : string) : string :=
  match s with
  | EmptyString => EmptyString
  | String c s' =>
      String (if Ascii.eqb c "^" then dq else if Ascii.eqb c "|" then nl else c) (q s')
  end.

(** [str(n)] for an integer. *)
Definition of_nat (n : nat) : string := NilEmpty.string_of_uint (Nat.to_uint n).
Definition of_Z (z : Z) : string := NilZero.string_of_int (Z.to_int z).

Fixpoint take (n : nat) (s : string) : string :=
  match n, s with
  | S n', String c s' => String c (take n' s')
  | _, _ => EmptyString
  end.

Fixpoint drop (n : nat) (s : string) : string :=
  match n, s with
  | S n', String _ s' => drop n' s'
  | _, _ => s
  end.

(** [s[i:i+1]] for [0 <= i]: the character at [i], if any. *)
Definition at_index (s : string) (i : Z) : option ascii :=
  String.get (Z.to_nat i) s.

Fixpoint repeat (c : ascii) (n : nat) : string :=
  match n with
  | O => EmptyString
  | S n' => String c (repeat c n')
  end.

(** [s.rfind(c)] for a one-character [c]: the highest index of [c] in [s],
    or [-1]. *)
Fixpoint rfind (c : ascii) (s : string) : Z :=
  match s with
  | EmptyString => -1
  | String a s' =>
      let r := rfind c s' in
      if 0 <=? r then r + 1 else if Ascii.eqb a c then 0 else -1
  end.

Definition startswith (pre s : string) : bool := String.prefix pre s.

(** [s.endswith(suf)]: one of the tails of [s] is [suf]. *)
Fixpoint endswith (suf s : string) : bool :=
  String.eqb suf s ||
  match s with
  | EmptyString => false
  | String _ s' => endswith suf s'
  end.

(** [c in s] for a character. *)
Fixpoint mem (c : ascii) (s : string) : bool :=
  match s with
  | EmptyString => false
  | String a s' => Ascii.eqb a c || mem c s'
  end.

(** Every character of [s] is [c]. *)
Fixpoint all_char (c : ascii) (s : string) : bool :=
  match s with
  | EmptyString => true
  | String a s' => Ascii.eqb a c && all_char c s'
  end.

(** [needle in s] for two strings. *)
Fixpoint contains (needle s : string) : bool :=
  String.prefix needle s ||
  match s with
  | EmptyString => false
  | String _ s' => contains needle s'
  end.

(** [s.replace(old, new)] for a non-empty [old]: the occurrences of [old]
    are replaced from left to right, without overlap. [skip] counts the
    characters of a matched occurrence still to be dropped. *)
Fixpoint replace_go (old new : string) (skip : nat) (s : string) : string :=
  match s with
  | EmptyString => EmptyString
  | String c s' =>
      match skip with
      | S k => replace_go old new k s'
      | O =>
          if String.prefix old s
          then new +:+ replace_go old new (Nat.pred (String.length old)) s'
          else String c (replace_go old new O s')
      end
  end.

Definition replace (old new s : string) : string := replace_go old new O s.

(** [c.isspace()] for a code point below 256. *)
Definition isspace (c : ascii) : bool :=
  let n := nat_of_ascii c in
  (Nat.leb 9 n && Nat.leb n 13) || (Nat.leb 28 n && Nat.leb n 32)
  || Nat.eqb n 133 || Nat.eqb n 160.

Fixpoint lstrip_by (p : ascii -> bool) (s : string) : string :=
  match s with
  | EmptyString => EmptyString
  | String c s' => if p c then lstrip_by p s' else s
  end.

(** The trailing characters that satisfy [p] are dropped: a character
    goes when nothing is left to its right and it satisfies [p]. *)
Fixpoint rstrip_by (p : ascii -> bool) (s : string) : string :=
  match s with
  | EmptyString => EmptyString
  | String c s' =>
      let r := rstrip_by p s' in
      if String.eqb r "" && p c then EmptyString else String c r
  end.

(** [s.strip()] and [s.rstrip(c)]. *)
Definition strip (s : string) : string := rstrip_by isspace (lstrip_by isspace s).
Definition rstrip (c : ascii) (s : string) : string := rstrip_by (Ascii.eqb c) s.

End Str.

(* ===================================================================== *)
(** ** [os.path] on a POSIX system ([posixpath]) *)
(* ===================================================================== *)

Module OsPath.

Definition sep : ascii := "/".
Definition extsep : ascii := ".".

(** [i = p.rfind(sep) + 1; head = p[:i]; if head and head != sep*len(head):
    head = head.rstrip(sep)]. *)
Definition dirname (p : string) : string :=
  let i := Str.rfind sep p + 1 in
  let head := Str.take (Z.to_nat i) p in
  if negb (String.eqb head "") && negb (String.eqb head (Str.repeat sep (String.length head)))
  then Str.rstrip sep head
  else head.

(** [i = p.rfind(sep) + 1; return p[i:]]. *)
Definition basename (p : string) : string :=
  let i := Str.rfind sep p + 1 in
  Str.drop (Z.to_nat i) p.

(** The [while filenameIndex < dotIndex] loop of [genericpath._splitext]:
    is there a character other than the dot at one of the [n] indices
    from [filenameIndex] on? *)
Fixpoint splitext_scan (p : string) (filenameIndex : Z) (n : nat) : bool :=
  match n with
  | O => false
  | S n' =>
      match Str.at_index p filenameIndex with
      | Some c =>
          if negb (Ascii.eqb c extsep) then true
          else splitext_scan p (filenameIndex + 1) n'
      | None => true
      end
  end.

(** [os.path.splitext]: the extension starts at the last dot of the last
    component, leading dots of the component apart. *)
Definition splitext (p : string) : string * string :=
  let sepIndex := Str.rfind sep p in
  let dotIndex := Str.rfind extsep p in
  if (sepIndex <? dotIndex)
     && splitext_scan p (sepIndex + 1) (Z.to_nat (dotIndex - (sepIndex + 1)))
  then (Str.take (Z.to_nat dotIndex) p, Str.drop (Z.to_nat dotIndex) p)
  else (p, EmptyString).

(** [os.path.join(a, b)]. *)
Definition join (a b : string) : string :=
  if Str.startswith (String sep EmptyString) b then b
  else if String.eqb a "" || Str.endswith (String sep EmptyString) a then a +:+ b
  else a +:+ String sep EmptyString +:+ b.

End OsPath.

#[local] Close Scope Z_scope.

(** Lines 100-103 of [run]: the output path of an input path. *)
Definition output_filepath (input_filepath : string) : string :=
  let dir_name := OsPath.dirname input_filepath in
  let base_name := OsPath.basename input_filepath in
  let '(file_name, file_ext) := OsPath.splitext base_name in
  OsPath.join dir_name (file_name +:+ "_output.csv").

(* ===================================================================== *)
(** ** Values *)
(* ===================================================================== *)

(** What [json.loads] returns. A float is carried as its binary64 bit
    pattern; nothing below computes with it. *)
Inductive pyval : Type :=
| PyNone
| PyBool (b : bool)
| PyInt (z : Z)
| PyFloat (bits : Z)
| PyStr (s : string)
| PyList (l : list pyval)
| PyDict (d : gmap string pyval).

(** A cell of the loaded table, as [row[col]] returns it. [NaN] is what
    pandas stores for an empty cell, [NaT] for an empty date; a float other
    than [NaN] is carried as its [str()] text. *)
Inductive cell : Type :=
| NaN
| NaT
| CStr (s : string)
| CInt (z : Z)
| CBool (b : bool)
| CFloat (text : string).

(** [pd.isna(x)] for a scalar. *)
Definition pd_isna (c : cell) : bool :=
  match c with
  | NaN | NaT => true
  | _ => false
  end.

(** [str(x)], which is what an f-string embeds for [{x}]. *)
Definition py_str (c : cell) : string :=
  match c with
  | NaN => "nan"
  | NaT => "NaT"
  | CStr s => s
  | CInt z => Str.of_Z z
  | CBool true => "True"
  | CBool false => "False"
  | CFloat text => text
  end.

(** A [DataFrame] as loaded: the header and the rows in file order, each
    row a mapping from column name to cell. The index is the default
    [RangeIndex], so the label of a row is its position. *)
Record dataframe : Type := {
  columns : list string;
  rows : list (gmap string cell)
}.

(** [pd.concat([a, b], axis=1)] of two frames with default indices: rows
    are aligned by position; where one frame is shorter its side is
    missing. *)
Fixpoint concat_axis1 {A B : Type} (l : list A) (r : list B)
  : list (option A * option B) :=
  match l with
  | [] => map (fun b => (None, Some b)) r
  | a :: l' =>
      match r with
      | [] => (Some a, None) :: map (fun a' => (Some a', None)) l'
      | b :: r' => (Some a, Some b) :: concat_axis1 l' r'
      end
  end.

(** The augmented table: per position, the input row and the row's
    flattened result. *)
Abbreviation final_frame :=
  (list (option (gmap string cell) * option (gmap string pyval))).

(* ===================================================================== *)
(** ** The collaborators and the monad *)
(* ===================================================================== *)

(** External actions, in the order [run] performs them. *)
Inductive event : Type :=
| Configure (api_key : string)
| NewModel (name : string)
| ReadCsv (path : string)
| ReadExcel (path : string)
| Progress (msg : string)
| ErrorSig (msg : string)
| Finished (path : string)
| GenerateContent (index : nat) (prompt : string)
| Sleep (seconds : nat)
| ToCsv (path : string).

(** The behaviour of everything [run] calls. A call that raises is [inl e]
    (or [Some e]) with [e] the text of [str(e)].
    [generate_content k prompt] is the outcome of the request made for the
    row at position [k], from the call up to reading [response.text];
    [is_running k] is the value of the flag when the checkpoint before the
    row at position [k] reads it.
    [to_csv path frame] is [None] when the call returns, the whole frame
    then being in the file. The call opens the file, which creates or
    truncates it, before it writes, so a call that raises says with its
    message what it left at [path]: [None] when it raised before the file
    was opened and the path is untouched, [Some partial] when the file
    was created or truncated and now holds [partial]. *)
Record world : Type := {
  configure : string -> option string;
  GenerativeModel : string -> option string;
  read_csv : string -> string + dataframe;
  read_excel : string -> string + dataframe;
  generate_content : nat -> string -> string + string;
  json_loads : string -> string + pyval;
  is_running : nat -> bool;
  to_csv : string -> final_frame -> option (string * option final_frame)
}.

Record Worker : Type := {
  api_key : string;
  input_filepath : string;
  fullname_col : string;
  username_col : string
}.

Record state : Type := {
  trace : list event;
  fs : gmap string final_frame
}.

Definition init (files : gmap string final_frame) : state :=
  {| trace := []; fs := files |}.

(** How a block of Python ends: with a value, with an exception, or with
    the [return] statement that leaves [run]. *)
Inductive res (A : Type) : Type :=
| Val (a : A)
| Raise (e : string)
| Return.
Arguments Val {A} a.
Arguments Raise {A} e.
Arguments Return {A}.

Definition M (A : Type) : Type := state -> res A * state.

Definition ret {A : Type} (a : A) : M A := fun st => (Val a, st).

Definition bind {A B : Type} (c : M A) (k : A -> M B) : M B :=
  fun st =>
    match c st with
    | (Val a, st') => k a st'
    | (Raise e, st') => (Raise e, st')
    | (Return, st') => (Return, st')
    end.

Definition raise {A : Type} (e : string) : M A := fun st => (Raise e, st).

Definition do_return {A : Type} : M A := fun st => (Return, st).

Definition emit (ev : event) : M unit :=
  fun st => (Val tt, {| trace := trace st ++ [ev]; fs := fs st |}).

Definition write_file (path : string) (content : final_frame) : M unit :=
  fun st => (Val tt, {| trace := trace st; fs := <[path := content]> (fs st) |}).

(** What a call of [to_csv] that raised left at [path]. *)
Definition leave (path : string) (remains : option final_frame) : M unit :=
  match remains with
  | Some partial => write_file path partial
  | None => ret tt
  end.

(** [try: body except Exception as e: handler e]. *)
Definition try_except {A : Type} (body : M A) (handler : string -> M A) : M A :=
  fun st =>
    match body st with
    | (Raise e, st') => handler e st'
    | r => r
    end.

Definition lift {A : Type} (r : string + A) : M A :=
  match r with
  | inl e => raise e
  | inr a => ret a
  end.

Definition check (r : option string) : M unit :=
  match r with
  | Some e => raise e
  | None => ret tt
  end.

Declare Scope M_scope.
Delimit Scope M_scope with M.
Notation "'let!' x ':=' c 'in' k" := (bind c (fun x => k))
  (at level 10, x name, c at level 100, k at level 200) : M_scope.
Notation "c ';;;' k" := (bind c (fun _ => k))
  (at level 100, k at level 200, right associativity) : M_scope.

#[local] Open Scope M_scope.

(* ===================================================================== *)
(** ** [Worker.run] *)
(* ===================================================================== *)

(** [type(v).__name__]. *)
Definition type_name (v : pyval) : string :=
  match v with
  | PyNone => "NoneType"
  | PyBool _ => "bool"
  | PyInt _ => "int"
  | PyFloat _ => "float"
  | PyStr _ => "str"
  | PyList _ => "list"
  | PyDict _ => "dict"
  end.

(** [key in v] for a string [key]: key membership for a dict, element
    membership for a list, substring for a string, [TypeError] otherwise. *)
Definition py_contains (key : string) (v : pyval) : string + bool :=
  match v with
  | PyDict d => inr (match d !! key with Some _ => true | None => false end)
  | PyList l =>
      inr (existsb (fun x => match x with PyStr s => String.eqb s key | _ => false end) l)
  | PyStr s => inr (Str.contains key s)
  | _ => inl ("argument of type '" +:+ type_name v +:+ "' is not iterable")
  end.

(** [v.items()]: [AttributeError] unless [v] is a dict. *)
Definition py_items (v : pyval) : string + list (string * pyval) :=
  match v with
  | PyDict d => inr (map_to_list d)
  | _ => inl ("'" +:+ type_name v +:+ "' object has no attribute 'items'")
  end.

(** [v[key]] for a string [key]. *)
Definition py_getitem (v : pyval) (key : string) : string + pyval :=
  match v with
  | PyDict d =>
      match d !! key with
      | Some x => inr x
      | None => inl ("'" +:+ key +:+ "'")
      end
  | PyStr _ => inl "string indices must be integers, not 'str'"
  | PyList _ => inl "list indices must be integers or slices, not str"
  | _ => inl ("'" +:+ type_name v +:+ "' object is not subscriptable")
  end.

(** [d.get(key)]. *)
Definition dict_get (d : gmap string pyval) (key : string) : pyval :=
  default PyNone (d !! key).

(** [row[col]]: [KeyError] when the row has no such column. *)
Definition row_getitem (row : gmap string cell) (col : string) : string + cell :=
  match row !! col with
  | Some c => inr c
  | None => inl ("'" +:+ col +:+ "'")
  end.

(** Lines 57-58: [if pd.isna(x): x = ""]. *)
Definition normalize (c : cell) : cell :=
  if pd_isna c then CStr "" else c.

(** Lines 62-75: the f-string. *)
Definition prompt_head : string := Str.q
  ("|                Analyze the following social media user data:|" +:+
   "                Full Name: ^").
Definition prompt_mid : string := Str.q
  ("^|" +:+
   "                Username: ^").
Definition prompt_tail : string := Str.q
  ("^|" +:+
   "                As a world-class cultural and demographic analyst, infer the following metrics.|" +:+
   "                Your response MUST be a single, valid JSON object. Each prediction must include a 'value' and a 'confidence' score between 0.0 and 1.0.|" +:+
   "                JSON structure:|" +:+
   "                {|" +:+
   "                ^predicted_gender^: {^value^: ^Male^, ^Female^, or ^Unisex/Unknown^, ^confidence^: float},|" +:+
   "                ^predicted_origin^: {^value^: ^Likely ethno-geographic origin^, ^confidence^: float},|" +:+
   "                ^deduced_language^: {^value^: ^Language detected in names^, ^confidence^: float},|" +:+
   "                ^user_persona^: {^value^: ^Inferred interest or category^, ^confidence^: float}|" +:+
   "                }|" +:+
   "                ").

Definition make_prompt (full_name username : cell) : string :=
  prompt_head +:+ py_str full_name +:+ prompt_mid +:+ py_str username +:+ prompt_tail.

(** Line 78: [response.text.replace('```json', '').replace('```', '').strip()]. *)
Definition clean_response (text : string) : string :=
  Str.strip (Str.replace "```" "" (Str.replace "```json" "" text)).

(** Lines 87-89: the body of [for key, value in insights.items()]. *)
Definition flatten_item (flattened_insights : gmap string pyval) (item : string * pyval)
  : gmap string pyval :=
  match item.2 with
  | PyDict value =>
      <[item.1 +:+ "_confidence" := dict_get value "confidence"]>
        (<[item.1 +:+ "_value" := dict_get value "value"]> flattened_insights)
  | _ => flattened_insights
  end.

(** Lines 84-91: from [insights] to [flattened_insights]. The dict is
    traversed in the order [map_to_list] gives; the mapping built does not
    depend on that order ([flatten_lookup] below), only the order of its
    keys would. *)
Definition flatten (insights : pyval) : string + gmap string pyval :=
  match py_contains "error" insights with
  | inl e => inl e
  | inr false =>
      match py_items insights with
      | inl e => inl e
      | inr items => inr (foldl flatten_item ∅ items)
      end
  | inr true =>
      match py_getitem insights "error" with
      | inl e => inl e
      | inr v => inr {[ "error" := v ]}
      end
  end.

(** The progress messages of the loop (lines 51, 60 and 81). *)
Definition stopped_msg : string := Str.q "|Analysis stopped by user.".

Definition analyzing_msg (index total_rows : nat) (username : cell) : string :=
  "Analyzing row " +:+ Str.of_nat (index + 1) +:+ "/" +:+ Str.of_nat total_rows
  +:+ ": " +:+ py_str username +:+ "...".

Definition warning_msg (username : cell) (e : string) : string :=
  "Warning: API call failed for " +:+ py_str username +:+ ". Error: " +:+ e.

(** Lines 76-82: the request, the parse, and the local handler. *)
Definition infer (w : world) (index : nat) (prompt : string) (username : cell) : M pyval :=
  try_except
    (emit (GenerateContent index prompt) ;;;
     let! text := lift (generate_content w index prompt) in
     let cleaned_response := clean_response text in
     lift (json_loads w cleaned_response))
    (fun e =>
       emit (Progress (warning_msg username e)) ;;;
       ret (PyDict {[ "error" := PyStr e ]})).

(** Lines 49-95: one iteration of the loop, for the row at position
    [index]. *)
Definition iteration (w : world) (self : Worker) (total_rows index : nat)
    (row : gmap string cell) (results : list (gmap string pyval))
  : M (list (gmap string pyval)) :=
  if negb (is_running w index) then
    emit (Progress stopped_msg) ;;;
    do_return
  else
    let! full_name := lift (row_getitem row (fullname_col self)) in
    let! username := lift (row_getitem row (username_col self)) in
    let full_name := normalize full_name in
    let username := normalize username in
    emit (Progress (analyzing_msg index total_rows username)) ;;;
    let prompt := make_prompt full_name username in
    let! insights := infer w index prompt username in
    let! flattened_insights := lift (flatten insights) in
    emit (Sleep 3) ;;;
    ret (results ++ [flattened_insights]).

(** Lines 48-95: [for index, row in df.iterrows()]. *)
Fixpoint loop (w : world) (self : Worker) (total_rows : nat)
    (remaining : list (gmap string cell)) (index : nat)
    (results : list (gmap string pyval)) : M (list (gmap string pyval)) :=
  match remaining with
  | [] => ret results
  | row :: rest =>
      let! results' := iteration w self total_rows index row results in
      loop w self total_rows rest (S index) results'
  end.

(** Lines 33-36. *)
Definition load (w : world) (self : Worker) : M dataframe :=
  if Str.endswith ".csv" (input_filepath self) then
    emit (ReadCsv (input_filepath self)) ;;;
    lift (read_csv w (input_filepath self))
  else
    emit (ReadExcel (input_filepath self)) ;;;
    lift (read_excel w (input_filepath self)).

Definition has_column (df : dataframe) (col : string) : bool :=
  existsb (String.eqb col) (columns df).

(** The messages of lines 31, 38, 41, 44 and 109. *)
Definition configured_msg : string := "Gemini API configured successfully.".

Definition loaded_msg (self : Worker) : string :=
  "Successfully loaded " +:+ OsPath.basename (input_filepath self) +:+ ".".

Definition column_error_msg (self : Worker) : string :=
  "Column Error: Please ensure '" +:+ fullname_col self +:+ "' and '"
  +:+ username_col self +:+ "' exist in the file.".

Definition found_msg (df : dataframe) : string :=
  "Found " +:+ Str.of_nat (length (rows df)) +:+ " rows to analyze.".

Definition critical_msg (e : string) : string :=
  "A critical error occurred: " +:+ e.

Definition model_name : string := "gemini-2.5-pro".

(** Lines 29-44: everything before the loop. *)
Definition setup (w : world) (self : Worker) : M dataframe :=
  emit (Configure (api_key self)) ;;;
  check (configure w (api_key self)) ;;;
  emit (NewModel model_name) ;;;
  check (GenerativeModel w model_name) ;;;
  emit (Progress configured_msg) ;;;
  let! df := load w self in
  emit (Progress (loaded_msg self)) ;;;
  if negb (has_column df (fullname_col self)) || negb (has_column df (username_col self)) then
    emit (ErrorSig (column_error_msg self)) ;;;
    do_return
  else
    emit (Progress (found_msg df)) ;;;
    ret df.

(** Lines 97-106: everything after the loop. *)
Definition finish (w : world) (self : Worker) (df : dataframe)
    (results : list (gmap string pyval)) : M unit :=
  let final_df := concat_axis1 (rows df) results in
  let output_filepath := output_filepath (input_filepath self) in
  emit (ToCsv output_filepath) ;;;
  (match to_csv w output_filepath final_df with
   | Some (e, remains) => leave output_filepath remains ;;; raise e
   | None => write_file output_filepath final_df
   end) ;;;
  emit (Finished output_filepath).

(** Lines 27-109: [Worker.run]. *)
Definition run (w : world) (self : Worker) : M unit :=
  try_except
    (let! df := setup w self in
     let! results := loop w self (length (rows df)) (rows df) O [] in
     finish w self df results)
    (fun e => emit (ErrorSig (critical_msg e))).

(* ===================================================================== *)
(** ** Observing a computation *)
(* ===================================================================== *)

(** The result and the actions of a computation started from the empty
    state. The computations of [run] never read the state, so these say
    what it does from any state ([quiet] and the lemmas on it below). *)
Definition out {A : Type} (c : M A) : res A := (c (init ∅)).1.
Definition log {A : Type} (c : M A) : list event := trace (c (init ∅)).2.

Definition after (st : state) (evs : list event) : state :=
  {| trace := trace st ++ evs; fs := fs st |}.

(** [c] only appends to the trace, the same actions from every state. *)
Definition quiet {A : Type} (c : M A) : Prop :=
  forall st, c st = (out c, after st (log c)).

(** The result and the actions of [bind c k], from those of [c] and [k]. *)
Definition bind_out {A B : Type} (c : M A) (k : A -> M B) : res B :=
  match out c with
  | Val a => out (k a)
  | Raise e => Raise e
  | Return => Return
  end.

Definition bind_log {A B : Type} (c : M A) (k : A -> M B) : list event :=
  log c ++ match out c with
           | Val a => log (k a)
           | _ => []
           end.

(** The same for [try_except]. *)
Definition try_out {A : Type} (body : M A) (handler : string -> M A) : res A :=
  match out body with
  | Raise e => out (handler e)
  | r => r
  end.

Definition try_log {A : Type} (body : M A) (handler : string -> M A) : list event :=
  log body ++ match out body with
              | Raise e => log (handler e)
              | _ => []
              end.

(** The table [load] reads. *)
Definition input_table (w : world) (self : Worker) : string + dataframe :=
  if Str.endswith ".csv" (input_filepath self)
  then read_csv w (input_filepath self)
  else read_excel w (input_filepath self).

(** The action of [load]: which reader is called. *)
Definition read_event (self : Worker) : event :=
  if Str.endswith ".csv" (input_filepath self)
  then ReadCsv (input_filepath self)
  else ReadExcel (input_filepath self).

(** The run reached line 106: it emitted [finished] with [path]. *)
Definition completed (st : state) (path : string) : Prop :=
  In (Finished path) (trace st).

(** Every row has a cell for every column of the header. *)
Definition well_formed (df : dataframe) : Prop :=
  forall row col, In row (rows df) -> In col (columns df) -> is_Some (row !! col).

(** The prompt [run] sends for a row. *)
Definition row_prompt (self : Worker) (row : gmap string cell) : option string :=
  match row !! fullname_col self, row !! username_col self with
  | Some full_name, Some username => Some (make_prompt (normalize full_name) (normalize username))
  | _, _ => None
  end.

(** The row-level failure of a request, if any: the message of the
    exception raised by the call or by the parse of the cleaned text. *)
Definition inference_failure (w : world) (index : nat) (prompt : string) : option string :=
  match generate_content w index prompt with
  | inl e => Some e
  | inr text =>
      match json_loads w (clean_response text) with
      | inl e => Some e
      | inr _ => None
      end
  end.

(** The value of [insights] after lines 76-82. *)
Definition insights_of (w : world) (index : nat) (prompt : string) : pyval :=
  match generate_content w index prompt with
  | inl e => PyDict {[ "error" := PyStr e ]}
  | inr text =>
      match json_loads w (clean_response text) with
      | inl e => PyDict {[ "error" := PyStr e ]}
      | inr v => v
      end
  end.

(** *** The shape of a flattened result *)

Definition attributes : list string :=
  ["predicted_gender"; "predicted_origin"; "deduced_language"; "user_persona"].

Definition has_key {V : Type} (m : gmap string V) (key : string) : bool :=
  match m !! key with
  | Some _ => true
  | None => false
  end.

Definition has_pair (flattened : gmap string pyval) (attribute : string) : bool :=
  has_key flattened (attribute +:+ "_value")
  && has_key flattened (attribute +:+ "_confidence").

Definition all_four (flattened : gmap string pyval) : bool :=
  forallb (has_pair flattened) attributes.

Definition has_error (flattened : gmap string pyval) : bool :=
  has_key flattened "error".

(** Exactly one of: the four pairs, or the error key. *)
Definition exactly_one (flattened : gmap string pyval) : bool :=
  xorb (all_four flattened) (has_error flattened).

Definition is_generate (ev : event) : bool :=
  match ev with
  | GenerateContent _ _ => true
  | _ => false
  end.

Definition is_write (ev : event) : bool :=
  match ev with
  | ToCsv _ | Finished _ => true
  | _ => false
  end.

Definition is_pause (ev : event) : bool :=
  match ev with
  | Sleep 3 => true
  | _ => false
  end.

(** How many requests, and how many pauses, a trace holds. *)
Definition count_requests (tr : list event) : nat := length (List.filter is_generate tr).
Definition count_pauses (tr : list event) : nat := length (List.filter is_pause tr).

Definition is_error (ev : event) : bool :=
  match ev with
  | ErrorSig _ => true
  | _ => false
  end.

(** The actions of the loop: progress messages, requests and pauses. *)
Definition is_row_event (ev : event) : bool :=
  match ev with
  | Progress _ | GenerateContent _ _ | Sleep _ => true
  | _ => false
  end.

(* ===================================================================== *)
(** ** A concrete world for the examples *)
(* ===================================================================== *)

Module Demo.

Definition table : dataframe :=
  {| columns := ["Full Name"; "Username"];
     rows := [ {[ "Full Name" := CStr "Ada Lovelace"; "Username" := CStr "ada" ]};
               {[ "Full Name" := NaN; "Username" := CStr "bob_42" ]};
               {[ "Full Name" := CStr "Grace Hopper"; "Username" := CStr "grace" ]} ] |}.

Definition one_row : dataframe :=
  {| columns := ["Full Name"; "Username"];
     rows := [ {[ "Full Name" := CStr "Ada Lovelace"; "Username" := CStr "ada" ]} ] |}.

Definition self : Worker :=
  {| api_key := "k"; input_filepath := "data/users.xlsx";
     fullname_col := "Full Name"; username_col := "Username" |}.

(** An answer of the shape the prompt asks for, in a code fence. *)
Definition answer_json : string := Str.q
  ("{^predicted_gender^: {^value^: ^Female^, ^confidence^: 0.9}, " +:+
   "^predicted_origin^: {^value^: ^English^, ^confidence^: 0.5}, " +:+
   "^deduced_language^: {^value^: ^English^, ^confidence^: 0.75}, " +:+
   "^user_persona^: {^value^: ^Engineer^, ^confidence^: 0.5}}").

Definition answer : string := Str.q "```json|" +:+ answer_json +:+ Str.q "|```".

Definition pair (value : string) (confidence_bits : Z) : pyval :=
  PyDict {[ "value" := PyStr value; "confidence" := PyFloat confidence_bits ]}.

Definition answer_value : pyval :=
  PyDict {[ "predicted_gender" := pair "Female" 4606281698874543309;
            "predicted_origin" := pair "English" 4602678819172646912;
            "deduced_language" := pair "English" 4604930618986332160;
            "user_persona" := pair "Engineer" 4602678819172646912 ]}.

(** What [answer_value] flattens to. *)
Definition flat_answer : gmap string pyval :=
  {[ "predicted_gender_value" := PyStr "Female";
     "predicted_gender_confidence" := PyFloat 4606281698874543309;
     "predicted_origin_value" := PyStr "English";
     "predicted_origin_confidence" := PyFloat 4602678819172646912;
     "deduced_language_value" := PyStr "English";
     "deduced_language_confidence" := PyFloat 4604930618986332160;
     "user_persona_value" := PyStr "Engineer";
     "user_persona_confidence" := PyFloat 4602678819172646912 ]}.

(** An object with a top-level [error] key next to an attribute. *)
Definition refusal_json : string := Str.q
  "{^error^: ^no data^, ^user_persona^: {^value^: ^Engineer^, ^confidence^: 1}}".

Definition refusal_value : pyval :=
  PyDict {[ "error" := PyStr "no data";
            "user_persona" := PyDict {[ "value" := PyStr "Engineer"; "confidence" := PyInt 1 ]} ]}.

(** A stand-in for [json.loads]: it decodes the four documents of the
    examples to what [json.loads] returns for them and rejects every
    other text. *)
Definition loads (s : string) : string + pyval :=
  if String.eqb s answer_json then inr answer_value
  else if String.eqb s refusal_json then inr refusal_value
  else if String.eqb s "{}" then inr (PyDict ∅)
  else if String.eqb s "[]" then inr (PyList [])
  else inl "Expecting value: line 1 column 1 (char 0)".

(** A world where lines 29-30 return, the file loads as [df] and the
    write succeeds; [responses] and [flag] are left to the example. *)
Definition world_of (df : dataframe) (responses : nat -> string + string)
    (flag : nat -> bool) : world :=
  {| configure := fun _ => None;
     GenerativeModel := fun _ => None;
     read_csv := fun _ => inr df;
     read_excel := fun _ => inr df;
     generate_content := fun index _ => responses index;
     json_loads := loads;
     is_running := flag;
     to_csv := fun _ _ => None |}.

(** Three rows; the request for the second one raises. *)
Definition second_fails : world :=
  world_of table
    (fun index => if Nat.eqb index 1 then inl "503 Service Unavailable" else inr answer)
    (fun _ => true).

(** One row, answered with the empty object. *)
Definition empty_object : world :=
  world_of one_row (fun _ => inr "{}") (fun _ => true).

(** One row, answered with a JSON array. *)
Definition array_answer : world :=
  world_of one_row (fun _ => inr "[]") (fun _ => true).

(** Three rows; the flag is cleared before the third one. *)
Definition stopped_at_2 : world :=
  world_of table (fun _ => inr answer) (fun index => Nat.ltb index 2).


(** One row, answered with an object that has a top-level [error] key
    next to an object-valued key. *)
Definition refused : world :=
  world_of one_row (fun _ => inr refusal_json) (fun _ => true).

Definition no_username : Worker :=
  {| api_key := "k"; input_filepath := "data/users.xlsx";
     fullname_col := "Full Name"; username_col := "Handle" |}.

End Demo.

(* ===================================================================== *)
(** ** Further observations on a trace *)
(* ===================================================================== *)

Definition is_finished (ev : event) : bool :=
  match ev with
  | Finished _ => true
  | _ => false
  end.

(** The two signals that end a run for the caller: [finished] and
    [error]. *)
Definition is_terminal (ev : event) : bool := is_error ev || is_finished ev.

Definition count_terminal (tr : list event) : nat := length (List.filter is_terminal tr).

(** The requests of a trace, in the order they were made. *)
Definition requests (tr : list event) : list event := List.filter is_generate tr.


(* ===================================================================== *)
(** ** More concrete worlds for the examples *)
(* ===================================================================== *)

Module Cases.

Definition empty_table : dataframe :=
  {| columns := ["Full Name"; "Username"]; rows := [] |}.

(** The file loads with a header and no row; the flag is already cleared. *)
Definition no_rows : world :=
  Demo.world_of empty_table (fun _ => inr Demo.answer) (fun _ => false).

(** Every request times out and the final write raises, the file created
    and nothing written to it. *)
Definition disk_full : world :=
  {| configure := fun _ => None;
     GenerativeModel := fun _ => None;
     read_csv := fun _ => inr Demo.table;
     read_excel := fun _ => inr Demo.table;
     generate_content := fun _ _ => inl "timeout";
     json_loads := Demo.loads;
     is_running := fun _ => true;
     to_csv := fun _ _ => Some ("No space left on device", Some []) |}.

(** The file cannot be read. *)
Definition unreadable : world :=
  {| configure := fun _ => None;
     GenerativeModel := fun _ => None;
     read_csv := fun _ => inl "No such file or directory";
     read_excel := fun _ => inl "No such file or directory";
     generate_content := fun _ _ => inr Demo.answer;
     json_loads := Demo.loads;
     is_running := fun _ => true;
     to_csv := fun _ _ => None |}.

(** Three rows; the first request times out, the second answer is a JSON
    array. *)
Definition second_is_array : world :=
  Demo.world_of Demo.table
    (fun index => if Nat.eqb index 1 then inr "[]" else inl "timeout")
    (fun _ => true).

End Cases.


(** Every character of [s] is white space. *)
Fixpoint all_space (s : string) : bool :=
  match s with
  | EmptyString => true
  | String c s' => Str.isspace c && all_space s'
  end.


(* ===================================================================== *)
(** ** The window: [PersonaScopeApp] *)
(* ===================================================================== *)

Module Combo.

(** A [QComboBox] that is not editable: its texts and the index of the
    current one, if any. *)
Record t : Type := {
  items : list string;
  currentIndex : option nat
}.

(** [clear()]. *)
Definition clear (cb : t) : t := {| items := []; currentIndex := None |}.

(** [addItems(texts)]: the texts are appended; a box that was empty makes
    its first text the current one. *)
Definition addItems (texts : list string) (cb : t) : t :=
  {| items := items cb ++ texts;
     currentIndex :=
       match items cb, texts with
       | [], _ :: _ => Some 0
       | _, _ => currentIndex cb
       end |}.

(** [findText(text)]: the index of the first item equal to [text]. *)
Fixpoint find_from (text : string) (l : list string) (i : nat) : option nat :=
  match l with
  | [] => None
  | x :: l' => if String.eqb x text then Some i else find_from text l' (S i)
  end.

Definition findText (text : string) (cb : t) : option nat := find_from text (items cb) 0.

(** [setCurrentText(text)]: the first item equal to [text] becomes the
    current one, if there is one. *)
Definition setCurrentText (text : string) (cb : t) : t :=
  match findText text cb with
  | Some i => {| items := items cb; currentIndex := Some i |}
  | None => cb
  end.

(** [currentText()]. *)
Definition currentText (cb : t) : string :=
  match currentIndex cb with
  | Some i => default "" (items cb !! i)
  | None => ""
  end.

(** The user picks the item at position [i]. *)
Definition pick (i : nat) (cb : t) : t :=
  if Nat.ltb i (length (items cb)) then {| items := items cb; currentIndex := Some i |}
  else cb.

End Combo.

Module Ui.

(** The [Worker] object the window holds: the four arguments of its
    constructor and its [is_running] flag. The path is [None] as long as
    no file was chosen. *)
Record WorkerObj : Type := {
  w_api_key : string;
  w_input_filepath : option string;
  w_fullname_col : string;
  w_username_col : string;
  w_is_running : bool
}.

(** The state of the window: the text of the key field, the chosen path
    ([self.input_filepath]), the widgets the handlers touch, and the
    worker. A button is its enabled flag; the log is the list of the
    texts appended to it, oldest first; the table is its header labels and
    its rows of item texts. *)
Record App : Type := {
  api_key_input : string;
  chosen_filepath : option string;
  file_label : string;
  fullname_combo : Combo.t;
  username_combo : Combo.t;
  mapping_visible : bool;
  run_button : bool;
  stop_button : bool;
  file_button : bool;
  log_output : list string;
  results_visible : bool;
  results_table : list string * list (list string);
  worker : option WorkerObj
}.

(** What the window reads from disk. *)
Record desktop : Type := {
  csv_headers : string -> string + list string;
  excel_headers : string -> string + list string;
  read_output : string -> string + dataframe
}.

(** Lines 113-188: the window as [__init__] and [initUI] leave it. *)
Definition initial : App :=
  {| api_key_input := "";
     chosen_filepath := None;
     file_label := "No file selected.";
     fullname_combo := {| Combo.items := []; Combo.currentIndex := None |};
     username_combo := {| Combo.items := []; Combo.currentIndex := None |};
     mapping_visible := false;
     run_button := false;
     stop_button := false;
     file_button := true;
     log_output := [];
     results_visible := false;
     results_table := ([], []);
     worker := None |}.

(** [self.log_output.append(text)]. *)
Definition append_log (text : string) (app : App) : App :=
  {| api_key_input := api_key_input app;
     chosen_filepath := chosen_filepath app;
     file_label := file_label app;
     fullname_combo := fullname_combo app;
     username_combo := username_combo app;
     mapping_visible := mapping_visible app;
     run_button := run_button app;
     stop_button := stop_button app;
     file_button := file_button app;
     log_output := log_output app ++ [text];
     results_visible := results_visible app;
     results_table := results_table app;
     worker := worker app |}.

(** Lines 256-259: [reset_ui_state]. *)
Definition reset_ui_state (app : App) : App :=
  {| api_key_input := api_key_input app;
     chosen_filepath := chosen_filepath app;
     file_label := file_label app;
     fullname_combo := fullname_combo app;
     username_combo := username_combo app;
     mapping_visible := mapping_visible app;
     run_button := true;
     stop_button := false;
     file_button := true;
     log_output := log_output app;
     results_visible := results_visible app;
     results_table := results_table app;
     worker := worker app |}.

(** Lines 199-201: the header of the chosen file. *)
Definition read_headers (dk : desktop) (filepath : string) : string + list string :=
  if Str.endswith ".csv" filepath then csv_headers dk filepath
  else excel_headers dk filepath.

Definition has_header (headers : list string) (text : string) : bool :=
  existsb (String.eqb text) headers.

(** Lines 202-207: both boxes are refilled and the defaults chosen. *)
Definition filled_fullname (headers : list string) (cb : Combo.t) : Combo.t :=
  let cb := Combo.addItems headers (Combo.clear cb) in
  let cb := if has_header headers "Fullname" then Combo.setCurrentText "Fullname" cb else cb in
  if has_header headers "Full Name" then Combo.setCurrentText "Full Name" cb else cb.

Definition filled_username (headers : list string) (cb : Combo.t) : Combo.t :=
  let cb := Combo.addItems headers (Combo.clear cb) in
  if has_header headers "Username" then Combo.setCurrentText "Username" cb else cb.

(** Lines 190-213: [browse_file], with [filepath] what the file dialog
    returned (the empty string when it was cancelled). *)
Definition browse_file (dk : desktop) (filepath : string) (app : App) : App :=
  if String.eqb filepath "" then app
  else
    match read_headers dk filepath with
    | inr headers =>
        {| api_key_input := api_key_input app;
           chosen_filepath := Some filepath;
           file_label := "Selected: " +:+ OsPath.basename filepath;
           fullname_combo := filled_fullname headers (fullname_combo app);
           username_combo := filled_username headers (username_combo app);
           mapping_visible := true;
           run_button := true;
           stop_button := stop_button app;
           file_button := file_button app;
           log_output := log_output app;
           results_visible := false;
           results_table := results_table app;
           worker := worker app |}
    | inl e =>
        {| api_key_input := api_key_input app;
           chosen_filepath := Some filepath;
           file_label := "Selected: " +:+ OsPath.basename filepath;
           fullname_combo := fullname_combo app;
           username_combo := username_combo app;
           mapping_visible := mapping_visible app;
           run_button := false;
           stop_button := stop_button app;
           file_button := file_button app;
           log_output := log_output app ++ ["Error reading file headers: " +:+ e];
           results_visible := false;
           results_table := results_table app;
           worker := worker app |}
    end.

(** Lines 215-235: [start_analysis]. The thread that runs the worker is
    started and the handler returns. *)
Definition start_analysis (app : App) : App :=
  let api_key := api_key_input app in
  let fullname_col := Combo.currentText (fullname_combo app) in
  let username_col := Combo.currentText (username_combo app) in
  if String.eqb api_key "" then
    append_log "Error: Please enter your Gemini API key." app
  else if String.eqb fullname_col "" || String.eqb username_col "" then
    append_log "Error: Please select both a fullname and username column." app
  else
    {| api_key_input := api_key_input app;
       chosen_filepath := chosen_filepath app;
       file_label := file_label app;
       fullname_combo := fullname_combo app;
       username_combo := username_combo app;
       mapping_visible := mapping_visible app;
       run_button := false;
       stop_button := true;
       file_button := false;
       log_output := ["Starting analysis..."];
       results_visible := results_visible app;
       results_table := ((results_table app).1, []);
       worker := Some {| w_api_key := api_key;
                         w_input_filepath := chosen_filepath app;
                         w_fullname_col := fullname_col;
                         w_username_col := username_col;
                         w_is_running := true |} |}.

(** Line 239: [self.worker.is_running = False]. *)
Definition clear_flag (w : WorkerObj) : WorkerObj :=
  {| w_api_key := w_api_key w;
     w_input_filepath := w_input_filepath w;
     w_fullname_col := w_fullname_col w;
     w_username_col := w_username_col w;
     w_is_running := false |}.

(** Lines 237-241: [stop_analysis]. *)
Definition stop_analysis (app : App) : App :=
  reset_ui_state
    {| api_key_input := api_key_input app;
       chosen_filepath := chosen_filepath app;
       file_label := file_label app;
       fullname_combo := fullname_combo app;
       username_combo := username_combo app;
       mapping_visible := mapping_visible app;
       run_button := run_button app;
       stop_button := false;
       file_button := file_button app;
       log_output := log_output app;
       results_visible := results_visible app;
       results_table := results_table app;
       worker := option_map clear_flag (worker app) |}.

(** Lines 243-244: [update_log]. *)
Definition update_log (message : string) (app : App) : App := append_log message app.

(** Lines 265-273: the texts shown for a table read back from disk:
    [str] of every cell, an empty cell ([fillna('')]) giving the empty
    text. *)
Definition shown_rows (df : dataframe) : list (list string) :=
  map (fun row =>
         map (fun col => py_str (normalize (default NaN (row !! col)))) (columns df))
      (rows df).

(** Lines 261-280: [display_results]. *)
Definition display_results (dk : desktop) (filepath : string) (app : App) : App :=
  let app := append_log "Loading results into table..." app in
  match read_output dk filepath with
  | inr df =>
      {| api_key_input := api_key_input app;
         chosen_filepath := chosen_filepath app;
         file_label := file_label app;
         fullname_combo := fullname_combo app;
         username_combo := username_combo app;
         mapping_visible := mapping_visible app;
         run_button := run_button app;
         stop_button := stop_button app;
         file_button := file_button app;
         log_output := log_output app ++ ["Results loaded successfully."];
         results_visible := true;
         results_table := (columns df, shown_rows df);
         worker := worker app |}
  | inl e => append_log ("Error displaying results: " +:+ e) app
  end.

(** Lines 246-250: [analysis_finished]. *)
Definition analysis_finished (dk : desktop) (output_filepath : string) (app : App) : App :=
  let app := append_log (Str.q "|Analysis complete!") app in
  let app := append_log ("Results saved to: " +:+ output_filepath) app in
  let app := display_results dk output_filepath app in
  reset_ui_state app.

(** Lines 252-254: [analysis_error]. *)
Definition analysis_error (error_message : string) (app : App) : App :=
  reset_ui_state (append_log (Str.q "|ERROR: " +:+ error_message) app).

(** The user types in the key field. *)
Definition type_api_key (text : string) (app : App) : App :=
  {| api_key_input := text;
     chosen_filepath := chosen_filepath app;
     file_label := file_label app;
     fullname_combo := fullname_combo app;
     username_combo := username_combo app;
     mapping_visible := mapping_visible app;
     run_button := run_button app;
     stop_button := stop_button app;
     file_button := file_button app;
     log_output := log_output app;
     results_visible := results_visible app;
     results_table := results_table app;
     worker := worker app |}.

(** The user picks an item in one of the two boxes. *)
Definition pick_fullname (i : nat) (app : App) : App :=
  {| api_key_input := api_key_input app;
     chosen_filepath := chosen_filepath app;
     file_label := file_label app;
     fullname_combo := Combo.pick i (fullname_combo app);
     username_combo := username_combo app;
     mapping_visible := mapping_visible app;
     run_button := run_button app;
     stop_button := stop_button app;
     file_button := file_button app;
     log_output := log_output app;
     results_visible := results_visible app;
     results_table := results_table app;
     worker := worker app |}.

Definition pick_username (i : nat) (app : App) : App :=
  {| api_key_input := api_key_input app;
     chosen_filepath := chosen_filepath app;
     file_label := file_label app;
     fullname_combo := fullname_combo app;
     username_combo := Combo.pick i (username_combo app);
     mapping_visible := mapping_visible app;
     run_button := run_button app;
     stop_button := stop_button app;
     file_button := file_button app;
     log_output := log_output app;
     results_visible := results_visible app;
     results_table := results_table app;
     worker := worker app |}.

(** What can happen to the window: the user acts on a widget, or a signal
    of the worker arrives. *)
Inductive action : Type :=
| TypeApiKey (text : string)
| PickFullname (i : nat)
| PickUsername (i : nat)
| ClickBrowse (filepath : string)
| ClickRun
| ClickStop
| SigProgress (message : string)
| SigFinished (output_filepath : string)
| SigError (error_message : string).

(** A click needs its button enabled; a signal needs a worker to send
    it. *)
Definition possible (a : action) (app : App) : bool :=
  match a with
  | ClickBrowse _ => file_button app
  | ClickRun => run_button app
  | ClickStop => stop_button app
  | SigProgress _ | SigFinished _ | SigError _ =>
      match worker app with Some _ => true | None => false end
  | _ => true
  end.

(** The handler connected to each action (lines 135, 162, 167 and
    230-232). *)
Definition handle (dk : desktop) (a : action) (app : App) : App :=
  match a with
  | TypeApiKey text => type_api_key text app
  | PickFullname i => pick_fullname i app
  | PickUsername i => pick_username i app
  | ClickBrowse filepath => browse_file dk filepath app
  | ClickRun => start_analysis app
  | ClickStop => stop_analysis app
  | SigProgress message => update_log message app
  | SigFinished output_filepath => analysis_finished dk output_filepath app
  | SigError error_message => analysis_error error_message app
  end.

(** The states the window can be in. *)
Inductive reachable (dk : desktop) : App -> Prop :=
| reachable_initial : reachable dk initial
| reachable_step a app :
    reachable dk app -> possible a app = true -> reachable dk (handle dk a app).

(** The worker the thread runs, when the window chose a file. *)
Definition as_worker (w : WorkerObj) : option Worker :=
  match w_input_filepath w with
  | Some path =>
      Some {| api_key := w_api_key w; input_filepath := path;
              fullname_col := w_fullname_col w; username_col := w_username_col w |}
  | None => None
  end.

(** The index of a box is an index of its items, and a box with items has
    a current one. *)
Definition combo_ok (cb : Combo.t) : Prop :=
  match Combo.currentIndex cb with
  | Some i => i < length (Combo.items cb)
  | None => Combo.items cb = []
  end.

End Ui.


(** What every reachable state of the window satisfies. *)
Definition window_inv (app : Ui.App) : Prop :=
  (Ui.stop_button app = true ->
   Ui.run_button app = false /\ Ui.file_button app = false
   /\ exists w, Ui.worker app = Some w /\ Ui.w_is_running w = true)
  /\ (Ui.run_button app = true \/ Ui.worker app <> None ->
      is_Some (Ui.chosen_filepath app))
  /\ Ui.combo_ok (Ui.fullname_combo app)
  /\ Ui.combo_ok (Ui.username_combo app)
  /\ Combo.items (Ui.fullname_combo app) = Combo.items (Ui.username_combo app)
  /\ (forall w, Ui.worker app = Some w ->
                Ui.w_api_key w <> "" /\ Ui.w_fullname_col w <> ""
                /\ Ui.w_username_col w <> "" /\ is_Some (Ui.w_input_filepath w)).


Module UiCases.

(** A disk whose every file has the header [Full Name, Username]. *)
Definition dk : Ui.desktop :=
  {| Ui.csv_headers := fun _ => inr ["Full Name"; "Username"];
     Ui.excel_headers := fun _ => inr ["Full Name"; "Username"];
     Ui.read_output := fun _ => inl "No such file or directory" |}.

(** A disk whose every file has the header [Fullname, Full Name,
    Username]. *)
Definition dk3 : Ui.desktop :=
  {| Ui.csv_headers := fun _ => inr ["Fullname"; "Full Name"; "Username"];
     Ui.excel_headers := fun _ => inr ["Fullname"; "Full Name"; "Username"];
     Ui.read_output := fun _ => inl "No such file or directory" |}.

(** The key is typed and a file chosen. *)
Definition ready : Ui.App :=
  Ui.handle dk (Ui.ClickBrowse "data/users.xlsx")
    (Ui.handle dk (Ui.TypeApiKey "k") Ui.initial).

(** Then Run is clicked. *)
Definition running : Ui.App := Ui.handle dk Ui.ClickRun ready.

End UiCases.

(* ===================================================================== *)
(** ** The monad: computations that only append to the trace *)
(* ===================================================================== *)

Lemma after_nil st : after st [] = st.
Proof. destruct st as [tr files]. unfold after. simpl. by rewrite app_nil_r. Qed.

Lemma after_after st evs1 evs2 : after (after st evs1) evs2 = after st (evs1 ++ evs2).
Proof. unfold after. simpl. by rewrite app_assoc. Qed.

Lemma trace_after st evs : trace (after st evs) = trace st ++ evs.
Proof. reflexivity. Qed.

Lemma fs_after st evs : fs (after st evs) = fs st.
Proof. reflexivity. Qed.

Section Calculus.
Context {A B : Type}.

Lemma quiet_ret (a : A) : quiet (ret a).
Proof. intros st. unfold ret, out, log. simpl. by rewrite after_nil. Qed.

Lemma quiet_raise (e : string) : quiet (@raise A e).
Proof. intros st. unfold raise, out, log. simpl. by rewrite after_nil. Qed.

Lemma quiet_do_return : quiet (@do_return A).
Proof. intros st. unfold do_return, out, log. simpl. by rewrite after_nil. Qed.

Lemma quiet_lift (r : string + A) : quiet (lift r).
Proof. destruct r; [apply quiet_raise | apply quiet_ret]. Qed.

Lemma bind_run (c : M A) (k : A -> M B) st :
  quiet c -> (forall a, quiet (k a)) ->
  bind c k st = (bind_out c k, after st (bind_log c k)).
Proof.
  intros Hc Hk. unfold bind, bind_out, bind_log. rewrite (Hc st).
  destruct (out c) as [a | e |].
  - rewrite (Hk a). by rewrite after_after.
  - by rewrite app_nil_r.
  - by rewrite app_nil_r.
Qed.

Lemma out_bind (c : M A) (k : A -> M B) :
  quiet c -> (forall a, quiet (k a)) -> out (bind c k) = bind_out c k.
Proof. intros Hc Hk. unfold out at 1. by rewrite bind_run. Qed.

Lemma log_bind (c : M A) (k : A -> M B) :
  quiet c -> (forall a, quiet (k a)) -> log (bind c k) = bind_log c k.
Proof. intros Hc Hk. unfold log at 1. by rewrite bind_run. Qed.

Lemma quiet_bind (c : M A) (k : A -> M B) :
  quiet c -> (forall a, quiet (k a)) -> quiet (bind c k).
Proof.
  intros Hc Hk st. rewrite bind_run by done.
  by rewrite out_bind, log_bind.
Qed.

Lemma try_run (body : M A) (handler : string -> M A) st :
  quiet body -> (forall e, quiet (handler e)) ->
  try_except body handler st = (try_out body handler, after st (try_log body handler)).
Proof.
  intros Hb Hh. unfold try_except, try_out, try_log. rewrite (Hb st).
  destruct (out body) as [a | e |].
  - by rewrite app_nil_r.
  - rewrite (Hh e). by rewrite after_after.
  - by rewrite app_nil_r.
Qed.

Lemma out_try (body : M A) (handler : string -> M A) :
  quiet body -> (forall e, quiet (handler e)) ->
  out (try_except body handler) = try_out body handler.
Proof. intros Hb Hh. unfold out at 1. by rewrite try_run. Qed.

Lemma log_try (body : M A) (handler : string -> M A) :
  quiet body -> (forall e, quiet (handler e)) ->
  log (try_except body handler) = try_log body handler.
Proof. intros Hb Hh. unfold log at 1. by rewrite try_run. Qed.

Lemma quiet_try (body : M A) (handler : string -> M A) :
  quiet body -> (forall e, quiet (handler e)) -> quiet (try_except body handler).
Proof.
  intros Hb Hh st. rewrite try_run by done.
  by rewrite out_try, log_try.
Qed.

End Calculus.

Lemma quiet_emit ev : quiet (emit ev).
Proof. intros st. reflexivity. Qed.

Lemma quiet_check r : quiet (check r).
Proof. destruct r; [apply quiet_raise | apply quiet_ret]. Qed.

Create HintDb quiet.
#[local] Hint Resolve quiet_ret quiet_raise quiet_do_return quiet_lift quiet_emit
  quiet_check : quiet.

(* ===================================================================== *)
(** ** One request and one iteration *)
(* ===================================================================== *)

Ltac quiet_step :=
  first [ apply quiet_bind | apply quiet_try | solve [auto with quiet] | intro ].

Lemma quiet_infer w index prompt username : quiet (infer w index prompt username).
Proof. unfold infer. repeat quiet_step. Qed.

Lemma out_infer w index prompt username :
  out (infer w index prompt username) = Val (insights_of w index prompt).
Proof.
  unfold out, infer, insights_of, try_except, bind, emit, lift, raise, ret.
  simpl. destruct (generate_content w index prompt) as [e | text]; [done |].
  simpl. by destruct (json_loads w (clean_response text)).
Qed.

Lemma log_infer w index prompt username :
  log (infer w index prompt username)
  = GenerateContent index prompt ::
      match inference_failure w index prompt with
      | Some e => [Progress (warning_msg username e)]
      | None => []
      end.
Proof.
  unfold log, infer, inference_failure, try_except, bind, emit, lift, raise, ret.
  simpl. destruct (generate_content w index prompt) as [e | text]; [done |].
  simpl. by destruct (json_loads w (clean_response text)).
Qed.

(** A failed request leaves the error record in [insights]. *)
Lemma insights_of_failure w index prompt e :
  inference_failure w index prompt = Some e ->
  insights_of w index prompt = PyDict {[ "error" := PyStr e ]}.
Proof.
  unfold inference_failure, insights_of.
  destruct (generate_content w index prompt) as [e' | text]; [congruence |].
  destruct (json_loads w (clean_response text)); congruence.
Qed.

Lemma quiet_iteration w self n index row results :
  quiet (iteration w self n index row results).
Proof.
  unfold iteration. destruct (negb (is_running w index)).
  - repeat quiet_step.
  - repeat quiet_step.
Qed.

#[local] Hint Resolve quiet_infer quiet_iteration : quiet.

(** The iteration that finds the flag cleared. *)
Lemma iteration_stopped w self n index row results :
  is_running w index = false ->
  out (iteration w self n index row results) = Return
  /\ log (iteration w self n index row results) = [Progress stopped_msg].
Proof. intros H. unfold iteration, out, log. rewrite H. by simpl. Qed.

(** The iteration of a row that has both cells, with the flag still set:
    the progress line, the request (and the warning if it failed), then
    either the pause and one more result, or the exception of [flatten]. *)
Lemma iteration_running w self n index row results full_name username :
  is_running w index = true ->
  row !! fullname_col self = Some full_name ->
  row !! username_col self = Some username ->
  let prompt := make_prompt (normalize full_name) (normalize username) in
  out (iteration w self n index row results)
  = match flatten (insights_of w index prompt) with
    | inr flattened => Val (results ++ [flattened])
    | inl e => Raise e
    end
  /\ log (iteration w self n index row results)
     = Progress (analyzing_msg index n (normalize username))
       :: log (infer w index prompt (normalize username))
       ++ match flatten (insights_of w index prompt) with
          | inr _ => [Sleep 3]
          | inl _ => []
          end.
Proof.
  intros Hrun Hf Hu prompt. unfold iteration. rewrite Hrun. simpl negb. cbv iota.
  unfold row_getitem. rewrite Hf, Hu.
  rewrite out_bind, log_bind by repeat quiet_step.
  unfold bind_out, bind_log. simpl lift.
  change (out (ret full_name)) with (Val full_name).
  change (log (ret full_name)) with (@nil event). cbv iota.
  rewrite out_bind, log_bind by repeat quiet_step.
  unfold bind_out, bind_log. simpl lift.
  change (out (ret username)) with (Val username).
  change (log (ret username)) with (@nil event). cbv iota.
  rewrite out_bind, log_bind by repeat quiet_step.
  unfold bind_out, bind_log.
  change (out (emit ?ev)) with (Val tt).
  change (log (emit (Progress (analyzing_msg index n (normalize username)))))
    with [Progress (analyzing_msg index n (normalize username))].
  cbv iota.
  rewrite out_bind, log_bind by repeat quiet_step.
  unfold bind_out, bind_log. fold prompt. rewrite out_infer.
  rewrite out_bind, log_bind by repeat quiet_step.
  unfold bind_out, bind_log.
  destruct (flatten (insights_of w index prompt)) as [e | flattened]; simpl lift.
  - change (out (raise e)) with (@Raise (gmap string pyval) e).
    change (log (@raise (gmap string pyval) e)) with (@nil event).
    split; [done |]. simpl. by rewrite app_nil_r.
  - change (out (ret flattened)) with (Val flattened).
    change (log (ret flattened)) with (@nil event). cbv iota.
    rewrite out_bind, log_bind by repeat quiet_step.
    unfold bind_out, bind_log.
    split; [done |]. simpl. done.
Qed.

(** The iteration of a row that lacks one of the two cells: [row[col]]
    raises before anything is emitted. *)
Lemma iteration_keyerror w self n index row results :
  is_running w index = true ->
  row_prompt self row = None ->
  (exists e, out (iteration w self n index row results) = Raise e)
  /\ log (iteration w self n index row results) = [].
Proof.
  intros Hrun Hp. unfold row_prompt in Hp.
  unfold iteration, out, log, bind, lift, row_getitem. rewrite Hrun. simpl negb. cbv iota.
  destruct (row !! fullname_col self) as [full_name |]; simpl.
  - destruct (row !! username_col self) as [username |]; [done |]. simpl. eauto.
  - eauto.
Qed.

(** The three ways an iteration can go. *)
Lemma iteration_inv w self n index row results :
  (is_running w index = false
   /\ out (iteration w self n index row results) = Return
   /\ log (iteration w self n index row results) = [Progress stopped_msg])
  \/ (is_running w index = true /\ row_prompt self row = None
      /\ (exists e, out (iteration w self n index row results) = Raise e)
      /\ log (iteration w self n index row results) = [])
  \/ (exists full_name username,
        is_running w index = true
        /\ row !! fullname_col self = Some full_name
        /\ row !! username_col self = Some username
        /\ out (iteration w self n index row results)
           = match flatten (insights_of w index
                              (make_prompt (normalize full_name) (normalize username))) with
             | inr flattened => Val (results ++ [flattened])
             | inl e => Raise e
             end
        /\ log (iteration w self n index row results)
           = Progress (analyzing_msg index n (normalize username))
             :: log (infer w index (make_prompt (normalize full_name) (normalize username))
                       (normalize username))
             ++ match flatten (insights_of w index
                                 (make_prompt (normalize full_name) (normalize username))) with
                | inr _ => [Sleep 3]
                | inl _ => []
                end).
Proof.
  destruct (is_running w index) eqn:Hrun.
  - right. destruct (row_prompt self row) as [prompt |] eqn:Hp.
    + right. unfold row_prompt in Hp.
      destruct (row !! fullname_col self) as [full_name |] eqn:Hf; [| done].
      destruct (row !! username_col self) as [username |] eqn:Hu; [| done].
      exists full_name, username.
      destruct (iteration_running w self n index row results full_name username Hrun Hf Hu)
        as [Ho Hl].
      auto.
    + left. destruct (iteration_keyerror w self n index row results Hrun Hp). auto.
  - left. destruct (iteration_stopped w self n index row results Hrun). auto.
Qed.

(** An iteration that runs to its end appended the flattened result of
    its row, and conversely. *)
Lemma iteration_val w self n index row results results' :
  out (iteration w self n index row results) = Val results' <->
  is_running w index = true
  /\ exists prompt flattened,
       row_prompt self row = Some prompt
       /\ flatten (insights_of w index prompt) = inr flattened
       /\ results' = results ++ [flattened].
Proof.
  split.
  - intros Hval.
    destruct (iteration_inv w self n index row results)
      as [(_ & Ho & _) | [(_ & _ & [e Ho] & _) | (fn & un & Hrun & Hf & Hu & Ho & _)]];
      rewrite Ho in Hval; try discriminate.
    split; [done |].
    exists (make_prompt (normalize fn) (normalize un)).
    destruct (flatten _) as [e | flattened] eqn:Hfl; [discriminate |].
    exists flattened. unfold row_prompt. rewrite Hf, Hu. split; [done |].
    split; [done |]. congruence.
  - intros (Hrun & prompt & flattened & Hp & Hfl & ->).
    unfold row_prompt in Hp.
    destruct (row !! fullname_col self) as [fn |] eqn:Hf; [| done].
    destruct (row !! username_col self) as [un |] eqn:Hu; [| done].
    injection Hp as <-.
    destruct (iteration_running w self n index row results fn un Hrun Hf Hu) as [Ho _].
    rewrite Ho. by rewrite Hfl.
Qed.

(** All the actions of an iteration are progress lines, requests and
    pauses. *)
Lemma iteration_events w self n index row results :
  Forall (fun ev => is_row_event ev = true) (log (iteration w self n index row results)).
Proof.
  destruct (iteration_inv w self n index row results)
    as [(_ & _ & Hl) | [(_ & _ & _ & Hl) | (fn & un & _ & _ & _ & _ & Hl)]];
    rewrite Hl.
  - by repeat constructor.
  - constructor.
  - constructor; [done |]. rewrite log_infer. apply Forall_app. split.
    + constructor; [done |]. by destruct (inference_failure _ _ _); repeat constructor.
    + by destruct (flatten _); repeat constructor.
Qed.

(** The requests of an iteration: at most one, for the prompt of its row. *)
Lemma iteration_requests w self n index row results i prompt :
  In (GenerateContent i prompt) (log (iteration w self n index row results)) ->
  i = index /\ row_prompt self row = Some prompt.
Proof.
  destruct (iteration_inv w self n index row results)
    as [(_ & _ & Hl) | [(_ & _ & _ & Hl) | (fn & un & _ & Hf & Hu & _ & Hl)]];
    rewrite Hl.
  - intros [H | []]. discriminate.
  - intros [].
  - rewrite log_infer. unfold row_prompt. rewrite Hf, Hu.
    intros [H | [H | H]]; [discriminate | by injection H as <- <- |].
    apply in_app_or in H as [H | H].
    + destruct (inference_failure _ _ _); [destruct H as [H | []]; discriminate | destruct H].
    + destruct (flatten _); [destruct H | destruct H as [H | []]; discriminate].
Qed.

(* ===================================================================== *)
(** ** The loop *)
(* ===================================================================== *)

Lemma quiet_loop w self n remaining :
  forall index results, quiet (loop w self n remaining index results).
Proof.
  induction remaining as [| row rest IH]; intros index results; simpl.
  - apply quiet_ret.
  - apply quiet_bind; [apply quiet_iteration | intros; apply IH].
Qed.

#[local] Hint Resolve quiet_loop : quiet.

Lemma out_loop_cons w self n row rest index results :
  out (loop w self n (row :: rest) index results)
  = match out (iteration w self n index row results) with
    | Val results' => out (loop w self n rest (S index) results')
    | Raise e => Raise e
    | Return => Return
    end.
Proof. simpl loop. rewrite out_bind by auto with quiet. reflexivity. Qed.

Lemma log_loop_cons w self n row rest index results :
  log (loop w self n (row :: rest) index results)
  = log (iteration w self n index row results)
    ++ match out (iteration w self n index row results) with
       | Val results' => log (loop w self n rest (S index) results')
       | _ => []
       end.
Proof. simpl loop. rewrite log_bind by auto with quiet. reflexivity. Qed.

(** A loop that runs to its end appended one flattened result per row, in
    row order, found the flag set at every checkpoint and issued the
    request of every row. *)
Lemma loop_val w self n remaining :
  forall index results results',
    out (loop w self n remaining index results) = Val results' ->
    exists flattened_rows,
      results' = results ++ flattened_rows
      /\ length flattened_rows = length remaining
      /\ forall i row,
           remaining !! i = Some row ->
           is_running w (index + i) = true
           /\ exists prompt flattened,
                row_prompt self row = Some prompt
                /\ flatten (insights_of w (index + i) prompt) = inr flattened
                /\ flattened_rows !! i = Some flattened
                /\ In (GenerateContent (index + i) prompt)
                      (log (loop w self n remaining index results)).
Proof.
  induction remaining as [| row rest IH]; intros index results results' Hval.
  - injection Hval as <-. exists []. rewrite app_nil_r.
    split; [done |]. split; [done |].
    intros i row Hi. by rewrite lookup_nil in Hi.
  - rewrite out_loop_cons in Hval. rewrite log_loop_cons.
    destruct (out (iteration w self n index row results)) as [results1 | e |] eqn:Hit;
      try discriminate.
    pose proof Hit as Hit'.
    apply iteration_val in Hit' as (Hrun & prompt & flattened & Hp & Hfl & ->).
    destruct (IH _ _ _ Hval) as (tl & -> & Hlen & Hrows).
    exists (flattened :: tl). rewrite <- app_assoc. split; [done |].
    split; [simpl; lia |].
    intros [| i] row' Hi.
    + injection Hi as <-. rewrite Nat.add_0_r. split; [done |].
      exists prompt, flattened. repeat split; try done.
      apply in_or_app. left.
      destruct (iteration_inv w self n index row results)
        as [(Hstop & _) | [(_ & Hnone & _) | (fn & un & _ & Hf & Hu & _ & Hl)]].
      * congruence.
      * congruence.
      * rewrite Hl, log_infer. unfold row_prompt in Hp. rewrite Hf, Hu in Hp.
        injection Hp as <-. right. by left.
    + simpl in Hi. destruct (Hrows i row' Hi) as (Hrun' & p' & fl' & Hp' & Hfl' & Hl' & Hin).
      replace (index + S i) with (S index + i) by lia. split; [done |].
      exists p', fl'. repeat split; try done.
      apply in_or_app. by right.
Qed.

(** Conversely: if the flag is set at every checkpoint and every row
    flattens, the loop runs to its end. *)
Lemma loop_runs w self n remaining :
  forall index results,
    (forall i row,
        remaining !! i = Some row ->
        is_running w (index + i) = true
        /\ exists prompt flattened,
             row_prompt self row = Some prompt
             /\ flatten (insights_of w (index + i) prompt) = inr flattened) ->
    exists results', out (loop w self n remaining index results) = Val results'.
Proof.
  induction remaining as [| row rest IH]; intros index results Hrows.
  - by exists results.
  - rewrite out_loop_cons.
    destruct (Hrows 0 row eq_refl) as (Hrun & prompt & flattened & Hp & Hfl).
    rewrite Nat.add_0_r in Hrun, Hfl.
    assert (out (iteration w self n index row results) = Val (results ++ [flattened])) as ->.
    { apply iteration_val. split; [done |]. by exists prompt, flattened. }
    apply IH. intros i row' Hi.
    replace (S index + i) with (index + S i) by lia. by apply Hrows.
Qed.

(** All the actions of the loop are progress lines, requests and pauses. *)
Lemma loop_events w self n remaining :
  forall index results,
    Forall (fun ev => is_row_event ev = true) (log (loop w self n remaining index results)).
Proof.
  induction remaining as [| row rest IH]; intros index results.
  - constructor.
  - rewrite log_loop_cons. apply Forall_app. split; [apply iteration_events |].
    destruct (out (iteration w self n index row results)); [apply IH | constructor ..].
Qed.

(** Every request of the loop is the request of one of its rows, with the
    prompt built from that row. *)
Lemma loop_requests w self n remaining :
  forall index results i prompt,
    In (GenerateContent i prompt) (log (loop w self n remaining index results)) ->
    exists row,
      index <= i /\ remaining !! (i - index) = Some row /\ row_prompt self row = Some prompt.
Proof.
  induction remaining as [| row rest IH]; intros index results i prompt Hin.
  - destruct Hin.
  - rewrite log_loop_cons in Hin. apply in_app_or in Hin as [Hin | Hin].
    + apply iteration_requests in Hin as [-> Hp]. exists row.
      rewrite Nat.sub_diag. auto.
    + destruct (out (iteration w self n index row results)) as [results1 | e |];
        try destruct Hin.
      destruct (IH _ _ _ _ Hin) as (row' & Hle & Hi & Hp). exists row'.
      split; [lia |]. split; [| done].
      replace (i - index) with (S (i - S index)) by lia. done.
Qed.

Lemma count_requests_app tr1 tr2 :
  count_requests (tr1 ++ tr2) = count_requests tr1 + count_requests tr2.
Proof. unfold count_requests. by rewrite List.filter_app, length_app. Qed.

Lemma count_pauses_app tr1 tr2 :
  count_pauses (tr1 ++ tr2) = count_pauses tr1 + count_pauses tr2.
Proof. unfold count_pauses. by rewrite List.filter_app, length_app. Qed.

(** An iteration that runs to its end made one request and paused once. *)
Lemma iteration_counts w self n index row results results' :
  out (iteration w self n index row results) = Val results' ->
  count_requests (log (iteration w self n index row results)) = 1
  /\ count_pauses (log (iteration w self n index row results)) = 1.
Proof.
  intros Hval.
  destruct (iteration_inv w self n index row results)
    as [(_ & Ho & _) | [(_ & _ & [e Ho] & _) | (fn & un & _ & _ & _ & Ho & Hl)]];
    rewrite Ho in Hval; try discriminate.
  rewrite Hl, log_infer.
  destruct (flatten _); [discriminate |].
  by destruct (inference_failure _ _ _).
Qed.

(** A loop that runs to its end made one request and paused once per row. *)
Lemma loop_counts w self n remaining :
  forall index results results',
    out (loop w self n remaining index results) = Val results' ->
    count_requests (log (loop w self n remaining index results)) = length remaining
    /\ count_pauses (log (loop w self n remaining index results)) = length remaining.
Proof.
  induction remaining as [| row rest IH]; intros index results results' Hval; [done |].
  rewrite out_loop_cons in Hval. rewrite log_loop_cons.
  destruct (out (iteration w self n index row results)) as [results1 | e |] eqn:Hit;
    try discriminate.
  destruct (iteration_counts _ _ _ _ _ _ _ Hit) as [Hr Hp].
  destruct (IH _ _ _ Hval) as [Hr' Hp'].
  rewrite count_requests_app, count_pauses_app, Hr, Hp, Hr', Hp'. done.
Qed.

(** The loop over [pre ++ rest] is the loop over [pre] followed by the loop
    over [rest]. *)
Lemma loop_app w self n pre rest :
  forall index results,
    out (loop w self n (pre ++ rest) index results)
    = match out (loop w self n pre index results) with
      | Val results' => out (loop w self n rest (index + length pre) results')
      | Raise e => Raise e
      | Return => Return
      end
    /\ log (loop w self n (pre ++ rest) index results)
       = log (loop w self n pre index results)
         ++ match out (loop w self n pre index results) with
            | Val results' => log (loop w self n rest (index + length pre) results')
            | _ => []
            end.
Proof.
  induction pre as [| row pre IH]; intros index results.
  - simpl app. simpl length. rewrite Nat.add_0_r. done.
  - change ((row :: pre) ++ rest) with (row :: (pre ++ rest)).
    rewrite !out_loop_cons, !log_loop_cons.
    destruct (out (iteration w self n index row results)) as [results1 | e |].
    + destruct (IH (S index) results1) as [Ho Hl]. rewrite Ho, Hl.
      replace (index + length (row :: pre)) with (S index + length pre) by (simpl; lia).
      split; [done |]. by rewrite app_assoc.
    + split; [done |]. by rewrite !app_nil_r.
    + split; [done |]. by rewrite !app_nil_r.
Qed.

(* ===================================================================== *)
(** ** Before and after the loop *)
(* ===================================================================== *)

Lemma quiet_load w self : quiet (load w self).
Proof. unfold load. destruct (Str.endswith _ _); repeat quiet_step. Qed.

Lemma quiet_setup w self : quiet (setup w self).
Proof.
  unfold setup. repeat quiet_step; try apply quiet_load.
  destruct (_ || _); repeat quiet_step.
Qed.

#[local] Hint Resolve quiet_load quiet_setup : quiet.

Lemma load_spec w self :
  out (load w self) = out (lift (input_table w self))
  /\ log (load w self) = [read_event self].
Proof.
  unfold load, input_table, read_event.
  destruct (Str.endswith _ _).
  - destruct (read_csv w (input_filepath self)); done.
  - destruct (read_excel w (input_filepath self)); done.
Qed.

(** The five ways the lines before the loop can go. *)
Lemma setup_cases w self :
  (exists e, configure w (api_key self) = Some e
             /\ out (setup w self) = Raise e
             /\ log (setup w self) = [Configure (api_key self)])
  \/ (exists e, configure w (api_key self) = None
                /\ GenerativeModel w model_name = Some e
                /\ out (setup w self) = Raise e
                /\ log (setup w self) = [Configure (api_key self); NewModel model_name])
  \/ (exists e, configure w (api_key self) = None
                /\ GenerativeModel w model_name = None
                /\ input_table w self = inl e
                /\ out (setup w self) = Raise e
                /\ log (setup w self)
                   = [Configure (api_key self); NewModel model_name;
                      Progress configured_msg; read_event self])
  \/ (exists df, configure w (api_key self) = None
                 /\ GenerativeModel w model_name = None
                 /\ input_table w self = inr df
                 /\ (has_column df (fullname_col self) = false
                     \/ has_column df (username_col self) = false)
                 /\ out (setup w self) = Return
                 /\ log (setup w self)
                    = [Configure (api_key self); NewModel model_name;
                       Progress configured_msg; read_event self;
                       Progress (loaded_msg self); ErrorSig (column_error_msg self)])
  \/ (exists df, configure w (api_key self) = None
                 /\ GenerativeModel w model_name = None
                 /\ input_table w self = inr df
                 /\ has_column df (fullname_col self) = true
                 /\ has_column df (username_col self) = true
                 /\ out (setup w self) = Val df
                 /\ log (setup w self)
                    = [Configure (api_key self); NewModel model_name;
                       Progress configured_msg; read_event self;
                       Progress (loaded_msg self); Progress (found_msg df)]).
Proof.
  destruct (load_spec w self) as [Hlo Hll].
  assert (Hq := quiet_load w self (init ∅)).
  unfold out in Hlo. unfold log in Hll.
  unfold setup, out, log, bind, emit, check, raise, ret, do_return. simpl.
  destruct (configure w (api_key self)) as [e |]; [left; by eauto |]. simpl.
  right.
  destruct (GenerativeModel w model_name) as [e |]; [left; by eauto 10 |]. simpl.
  right.
  assert (Hq' := quiet_load w self
                   {| trace := [Configure (api_key self); NewModel model_name;
                                Progress configured_msg];
                      fs := ∅ |}).
  rewrite Hq'. unfold out. rewrite Hlo. unfold log. rewrite Hll. simpl.
  destruct (input_table w self) as [e | df]; simpl; [left; by eauto 10 |].
  right.
  destruct (has_column df (fullname_col self)) eqn:Hf; simpl.
  - destruct (has_column df (username_col self)) eqn:Hu; simpl.
    + right. exists df. by auto 10.
    + left. exists df. by auto 10.
  - left. exists df. by auto 10.
Qed.

Lemma has_column_In df col : has_column df col = true <-> In col (columns df).
Proof.
  unfold has_column. rewrite existsb_exists. split.
  - intros (c & Hin & Heq). apply String.eqb_eq in Heq. by subst.
  - intros Hin. exists col. split; [done |]. apply String.eqb_refl.
Qed.

(** Before the loop there is no request and no write. *)
Lemma setup_events w self ev :
  In ev (log (setup w self)) -> is_generate ev = false /\ is_write ev = false.
Proof.
  assert (Hread : is_generate (read_event self) = false /\ is_write (read_event self) = false).
  { unfold read_event. by destruct (Str.endswith _ _). }
  destruct (setup_cases w self)
    as [(e & _ & _ & Hl) | [(e & _ & _ & _ & Hl) | [(e & _ & _ & _ & _ & Hl)
       | [(df & _ & _ & _ & _ & _ & Hl) | (df & _ & _ & _ & _ & _ & _ & Hl)]]]];
    rewrite Hl; simpl; intros H;
    repeat (destruct H as [<- | H]; [done |]); destruct H.
Qed.

(** The lines before the loop ran through. *)
Lemma setup_val w self df :
  out (setup w self) = Val df ->
  configure w (api_key self) = None
  /\ GenerativeModel w model_name = None
  /\ input_table w self = inr df
  /\ has_column df (fullname_col self) = true
  /\ has_column df (username_col self) = true
  /\ log (setup w self)
     = [Configure (api_key self); NewModel model_name;
        Progress configured_msg; read_event self;
        Progress (loaded_msg self); Progress (found_msg df)].
Proof.
  intros Hval.
  destruct (setup_cases w self)
    as [(e & _ & Ho & _) | [(e & _ & _ & Ho & _) | [(e & _ & _ & _ & Ho & _)
       | [(df' & _ & _ & _ & _ & Ho & _) | (df' & Hc & Hm & Ht & Hf & Hu & Ho & Hl)]]]];
    rewrite Ho in Hval; try discriminate.
  injection Hval as <-. done.
Qed.

(** In the loop there is no write, no [finished] and no [error]. *)
Lemma loop_no_write w self n remaining index results ev :
  In ev (log (loop w self n remaining index results)) ->
  is_write ev = false /\ is_error ev = false.
Proof.
  intros Hin. pose proof (loop_events w self n remaining index results) as Hall.
  rewrite Forall_forall in Hall. specialize (Hall ev).
  rewrite <- list_elem_of_In in Hin. specialize (Hall Hin). by destruct ev.
Qed.

(** [run], phase by phase: what it returns, what it adds to the trace and
    what it leaves on disk, from any state. *)
Lemma run_eq w self st :
  run w self st
  = match out (setup w self) with
    | Raise e =>
        (Val tt, after st (log (setup w self) ++ [ErrorSig (critical_msg e)]))
    | Return => (Return, after st (log (setup w self)))
    | Val df =>
        let body := loop w self (length (rows df)) (rows df) 0 [] in
        match out body with
        | Raise e =>
            (Val tt, after st (log (setup w self) ++ log body ++ [ErrorSig (critical_msg e)]))
        | Return => (Return, after st (log (setup w self) ++ log body))
        | Val results =>
            let final_df := concat_axis1 (rows df) results in
            let path := output_filepath (input_filepath self) in
            match to_csv w path final_df with
            | Some (e, remains) =>
                (Val tt,
                 {| trace := trace st ++ log (setup w self) ++ log body
                             ++ [ToCsv path; ErrorSig (critical_msg e)];
                    fs := match remains with
                          | Some partial => <[path := partial]> (fs st)
                          | None => fs st
                          end |})
            | None =>
                (Val tt,
                 {| trace := trace st ++ log (setup w self) ++ log body
                             ++ [ToCsv path; Finished path];
                    fs := <[path := final_df]> (fs st) |})
            end
        end
    end.
Proof.
  unfold run, try_except, bind at 1. rewrite (quiet_setup w self st).
  destruct (out (setup w self)) as [df | e |].
  - unfold bind at 1. rewrite (quiet_loop w self _ _ _ _ (after st _)).
    cbv zeta.
    destruct (out (loop w self (length (rows df)) (rows df) 0 [])) as [results | e |].
    + unfold finish, bind, emit, leave, write_file, raise, ret. simpl.
      destruct (to_csv w _ _) as [[e [partial |]] |]; simpl;
        by rewrite <- !app_assoc.
    + unfold emit. simpl. unfold after. simpl. by rewrite <- !app_assoc.
    + by rewrite after_after.
  - unfold emit. simpl. unfold after. simpl. by rewrite <- !app_assoc.
  - done.
Qed.

(** A run that emitted [finished] went through every phase. *)
Lemma run_completed w self files r st' path :
  run w self (init files) = (r, st') ->
  completed st' path ->
  exists df results,
    out (setup w self) = Val df
    /\ out (loop w self (length (rows df)) (rows df) 0 []) = Val results
    /\ path = output_filepath (input_filepath self)
    /\ to_csv w path (concat_axis1 (rows df) results) = None
    /\ r = Val tt
    /\ trace st' = log (setup w self)
                   ++ log (loop w self (length (rows df)) (rows df) 0 [])
                   ++ [ToCsv path; Finished path]
    /\ fs st' = <[path := concat_axis1 (rows df) results]> files.
Proof.
  rewrite run_eq. unfold completed.
  assert (Hs : forall p, ~ In (Finished p) (log (setup w self))).
  { intros p H. by apply setup_events in H as [_ H]. }
  assert (Hl : forall p n rs, ~ In (Finished p) (log (loop w self n rs 0 []))).
  { intros p n rs H. by apply loop_no_write in H as [H _]. }
  destruct (out (setup w self)) as [df | e |].
  - cbv zeta.
    destruct (out (loop w self (length (rows df)) (rows df) 0 [])) as [results | e |] eqn:Hloop.
    + destruct (to_csv w _ _) as [[e remains] |] eqn:Hw.
      * intros [= <- <-]. simpl. rewrite !in_app_iff. simpl.
        intros [H | [H | [H | [H | []]]]]; try discriminate;
          [by apply Hs in H | by apply Hl in H].
      * intros [= <- <-]. simpl. rewrite !in_app_iff. simpl.
        intros [H | [H | [H | [H | []]]]]; try discriminate;
          [by apply Hs in H | by apply Hl in H |].
        injection H as <-. exists df, results. by auto 10.
    + intros [= <- <-]. simpl. rewrite !in_app_iff. simpl.
      intros [H | [H | [H | []]]]; try discriminate;
        [by apply Hs in H | by apply Hl in H].
    + intros [= <- <-]. simpl. rewrite !in_app_iff.
      intros [H | H]; [by apply Hs in H | by apply Hl in H].
  - intros [= <- <-]. simpl. rewrite !in_app_iff. simpl.
    intros [H | [H | []]]; try discriminate. by apply Hs in H.
  - intros [= <- <-]. simpl. intros H. by apply Hs in H.
Qed.

(** [pd.concat(..., axis=1)] of two frames of the same height pairs the
    rows by position. *)
Lemma concat_axis1_length {A B : Type} (l : list A) :
  forall r : list B, length l = length r -> length (concat_axis1 l r) = length l.
Proof.
  induction l as [| a l IH]; intros [| b r] Hlen; try discriminate; [done |].
  simpl. f_equal. apply IH. simpl in Hlen. lia.
Qed.

Lemma concat_axis1_lookup {A B : Type} (l : list A) :
  forall (r : list B) i a b,
    l !! i = Some a -> r !! i = Some b -> concat_axis1 l r !! i = Some (Some a, Some b).
Proof.
  induction l as [| a' l IH]; intros [| b' r] [| i] a b Ha Hb; try discriminate.
  - simpl in *. congruence.
  - simpl in *. by apply IH.
Qed.

(* ===================================================================== *)
(** ** Strings: the derived keys are pairwise distinct *)
(* ===================================================================== *)

Lemma to_list_app s1 s2 :
  list_ascii_of_string (s1 +:+ s2) = list_ascii_of_string s1 ++ list_ascii_of_string s2.
Proof. induction s1 as [| c s1 IH]; simpl; [done | by rewrite IH]. Qed.

Lemma to_list_inj s1 s2 : list_ascii_of_string s1 = list_ascii_of_string s2 -> s1 = s2.
Proof.
  intros H. rewrite <- (string_of_list_ascii_of_string s1), H.
  apply string_of_list_ascii_of_string.
Qed.

Lemma string_app_inv_tail s1 s2 t : s1 +:+ t = s2 +:+ t -> s1 = s2.
Proof.
  intros H. apply to_list_inj. apply (f_equal list_ascii_of_string) in H.
  rewrite !to_list_app in H. by apply app_inv_tail in H.
Qed.

Lemma value_ne_confidence s1 s2 : s1 +:+ "_value" <> s2 +:+ "_confidence".
Proof.
  intros H. apply (f_equal (fun s => rev (list_ascii_of_string s))) in H.
  rewrite !to_list_app, !rev_app_distr in H. simpl in H. discriminate.
Qed.

Lemma error_ne_value s : "error" <> s +:+ "_value".
Proof.
  intros H. apply (f_equal (fun s => rev (list_ascii_of_string s))) in H.
  rewrite !to_list_app, !rev_app_distr in H. simpl in H. discriminate.
Qed.

Lemma error_ne_confidence s : "error" <> s +:+ "_confidence".
Proof.
  intros H. apply (f_equal (fun s => rev (list_ascii_of_string s))) in H.
  rewrite !to_list_app, !rev_app_distr in H. simpl in H. discriminate.
Qed.

(* ===================================================================== *)
(** ** Flattening *)
(* ===================================================================== *)

(** An item leaves every key other than its own two alone. *)
Lemma flatten_item_other (acc : gmap string pyval) key value k :
  k <> key +:+ "_value" -> k <> key +:+ "_confidence" ->
  flatten_item acc (key, value) !! k = acc !! k.
Proof.
  intros Hv Hc. unfold flatten_item. simpl.
  destruct value; try done. by rewrite !lookup_insert_ne.
Qed.

(** An object-valued item sets its own two keys. *)
Lemma flatten_item_pair (acc : gmap string pyval) key o :
  flatten_item acc (key, PyDict o) !! (key +:+ "_value") = Some (dict_get o "value")
  /\ flatten_item acc (key, PyDict o) !! (key +:+ "_confidence")
     = Some (dict_get o "confidence").
Proof.
  unfold flatten_item. simpl. split.
  - rewrite lookup_insert_ne by (intros H; symmetry in H; by apply value_ne_confidence in H).
    apply lookup_insert_eq.
  - apply lookup_insert_eq.
Qed.

(** The keys of [key] survive the items of every other key. *)
Lemma foldl_flatten_keep (items : list (string * pyval)) key suffix :
  suffix = "_value" \/ suffix = "_confidence" ->
  (forall key' value', (key', value') ∈ items -> key' <> key) ->
  forall acc : gmap string pyval,
    foldl flatten_item acc items !! (key +:+ suffix) = acc !! (key +:+ suffix).
Proof.
  intros Hsuf. induction items as [| [key' value'] items IH]; intros Hne acc; [done |].
  simpl. rewrite IH by (intros k v Hin; apply (Hne k v); by right).
  assert (key' <> key) as Hk by (apply (Hne key' value'); by left).
  apply flatten_item_other; destruct Hsuf as [-> | ->]; intros H.
  - by apply string_app_inv_tail in H.
  - symmetry in H. by apply value_ne_confidence in H.
  - by apply value_ne_confidence in H.
  - by apply string_app_inv_tail in H.
Qed.

(** Every object-valued item ends up as its pair, whatever the order of
    the items, as long as no key occurs twice. *)
Lemma foldl_flatten_pair (items : list (string * pyval)) :
  NoDup items.*1 ->
  forall (acc : gmap string pyval) key o,
    (key, PyDict o) ∈ items ->
    foldl flatten_item acc items !! (key +:+ "_value") = Some (dict_get o "value")
    /\ foldl flatten_item acc items !! (key +:+ "_confidence")
       = Some (dict_get o "confidence").
Proof.
  induction items as [| [key' value'] items IH]; intros Hnd acc key o Hin.
  - by apply elem_of_nil in Hin.
  - simpl in Hnd. apply NoDup_cons in Hnd as [Hfresh Hnd].
    apply elem_of_cons in Hin as [Heq | Hin].
    + injection Heq as <- <-. simpl.
      assert (forall k v, (k, v) ∈ items -> k <> key) as Hne.
      { intros k v Hkv ->. apply Hfresh. apply list_elem_of_fmap. by exists (key, v). }
      rewrite !foldl_flatten_keep by auto.
      apply flatten_item_pair.
    + simpl. by apply IH.
Qed.

(** Every key of the result was there before or is the key of a pair of
    an object-valued item. *)
Lemma foldl_flatten_inv (items : list (string * pyval)) :
  forall (acc : gmap string pyval) k v,
    foldl flatten_item acc items !! k = Some v ->
    acc !! k = Some v
    \/ exists key o,
         (key, PyDict o) ∈ items
         /\ ((k = key +:+ "_value" /\ v = dict_get o "value")
             \/ (k = key +:+ "_confidence" /\ v = dict_get o "confidence")).
Proof.
  induction items as [| [key' value'] items IH]; intros acc k v Hk; [by left |].
  simpl in Hk. apply IH in Hk as [Hk | (key & o & Hin & Hcase)].
  - unfold flatten_item in Hk. simpl in Hk.
    destruct value' as [| | | | | | o]; try by left.
    rewrite lookup_insert in Hk. case_decide as Hc.
    + injection Hk as <-. right. exists key', o. split; [by left |]. by right.
    + rewrite lookup_insert in Hk. case_decide as Hv.
      * injection Hk as <-. right. exists key', o. split; [by left |]. by left.
      * by left.
  - right. exists key, o. split; [by right | done].
Qed.

(** [flatten] of an object with a top-level [error] key: that key alone. *)
Lemma flatten_error (d : gmap string pyval) v :
  d !! "error" = Some v -> flatten (PyDict d) = inr {[ "error" := v ]}.
Proof. intros H. unfold flatten, py_contains, py_getitem. by rewrite H. Qed.

(** [flatten] of an object without one: the pairs of its object-valued
    keys, and nothing else. *)
Lemma flatten_object (d : gmap string pyval) :
  d !! "error" = None ->
  exists flattened,
    flatten (PyDict d) = inr flattened
    /\ (forall key o,
          d !! key = Some (PyDict o) ->
          flattened !! (key +:+ "_value") = Some (dict_get o "value")
          /\ flattened !! (key +:+ "_confidence") = Some (dict_get o "confidence"))
    /\ (forall k v,
          flattened !! k = Some v ->
          exists key o,
            d !! key = Some (PyDict o)
            /\ ((k = key +:+ "_value" /\ v = dict_get o "value")
                \/ (k = key +:+ "_confidence" /\ v = dict_get o "confidence"))).
Proof.
  intros Herr. exists (foldl flatten_item ∅ (map_to_list d)).
  split; [unfold flatten, py_contains, py_items; by rewrite Herr |]. split.
  - intros key o Hkey. apply foldl_flatten_pair.
    + apply NoDup_fst_map_to_list.
    + by apply elem_of_map_to_list.
  - intros k v Hk. apply foldl_flatten_inv in Hk as [Hk | (key & o & Hin & Hcase)].
    + by rewrite lookup_empty in Hk.
    + exists key, o. split; [by apply elem_of_map_to_list | done].
Qed.

(** Only an object flattens; every other JSON value raises. *)
Lemma flatten_inr v flattened : flatten v = inr flattened -> exists d, v = PyDict d.
Proof.
  unfold flatten. destruct v as [| b | z | bits | s | l | d]; simpl; try discriminate.
  - destruct (Str.contains "error" s); discriminate.
  - destruct (existsb _ l); discriminate.
  - eauto.
Qed.

Lemma has_key_true {V : Type} (m : gmap string V) key :
  has_key m key = true <-> is_Some (m !! key).
Proof.
  unfold has_key. destruct (m !! key); split; try done; by intros [? ?].
Qed.

Lemma all_four_true flattened :
  all_four flattened = true <->
  forall attribute, In attribute attributes -> has_pair flattened attribute = true.
Proof. unfold all_four. apply forallb_forall. Qed.

(** The shape of a flattened object, read off the object. *)
Lemma flatten_shape (d : gmap string pyval) flattened :
  flatten (PyDict d) = inr flattened ->
  (has_error flattened = true <-> is_Some (d !! "error"))
  /\ (forall v, d !! "error" = Some v -> flattened = {[ "error" := v ]})
  /\ (all_four flattened = true <->
      d !! "error" = None
      /\ forall attribute, In attribute attributes ->
                           exists o, d !! attribute = Some (PyDict o))
  /\ (all_four flattened && has_error flattened = false).
Proof.
  intros Hfl. destruct (d !! "error") as [v |] eqn:Herr.
  - rewrite (flatten_error d v Herr) in Hfl. injection Hfl as <-.
    assert (all_four ({[ "error" := v ]} : gmap string pyval) = false) as Hfour
        by reflexivity.
    split; [split; [by eexists | reflexivity] |].
    split; [by intros v' [= ->] |].
    split; [| by rewrite Hfour].
    rewrite Hfour. split; [discriminate | by intros [? _]].
  - destruct (flatten_object d Herr) as (fl & Hfl' & Hpairs & Hinv).
    rewrite Hfl' in Hfl. injection Hfl as <-.
    assert (has_error fl = false) as Hno.
    { unfold has_error, has_key. destruct (fl !! "error") as [v |] eqn:Hv; [| done].
      apply Hinv in Hv as (key & o & _ & [[H _] | [H _]]).
      - by apply error_ne_value in H.
      - by apply error_ne_confidence in H. }
    split; [rewrite Hno; split; [discriminate | by intros [? ?]] |].
    split; [discriminate |].
    split; [| rewrite Hno; apply andb_false_r].
    rewrite all_four_true. split.
    + intros Hall. split; [done |]. intros a Ha. specialize (Hall a Ha).
      unfold has_pair in Hall. apply andb_true_iff in Hall as [Hv _].
      apply has_key_true in Hv as [v Hv].
      apply Hinv in Hv as (key & o & Hkey & [[H _] | [H _]]).
      * apply string_app_inv_tail in H as ->. by exists o.
      * by apply value_ne_confidence in H.
    + intros [_ Hall] a Ha. destruct (Hall a Ha) as [o Ho].
      destruct (Hpairs a o Ho) as [Hv Hc].
      unfold has_pair. apply andb_true_iff. split; apply has_key_true; by eexists.
Qed.

(** The error record of a failed request flattens to itself. *)
Lemma flatten_error_record e :
  flatten (PyDict {[ "error" := PyStr e ]}) = inr {[ "error" := PyStr e ]}.
Proof. apply flatten_error. apply lookup_singleton_eq. Qed.

(** The rows written by a run that completed: one per input row, each the
    input row next to the flattened result of its request. *)
Lemma run_completed_rows w self files r st' path :
  run w self (init files) = (r, st') ->
  completed st' path ->
  exists df final,
    input_table w self = inr df
    /\ path = output_filepath (input_filepath self)
    /\ fs st' !! path = Some final
    /\ length final = length (rows df)
    /\ (forall i row,
          rows df !! i = Some row ->
          is_running w i = true
          /\ exists prompt flattened,
               row_prompt self row = Some prompt
               /\ flatten (insights_of w i prompt) = inr flattened
               /\ final !! i = Some (Some row, Some flattened)
               /\ In (GenerateContent i prompt) (trace st')).
Proof.
  intros Hrun Hdone.
  destruct (run_completed w self files r st' path Hrun Hdone)
    as (df & results & Hsetup & Hloop & Hpath & _ & _ & Htrace & Hfs).
  exists df, (concat_axis1 (rows df) results).
  destruct (loop_val w self _ _ _ _ _ Hloop) as (fls & Hres & Hlen & Hrows).
  simpl in Hres. subst results.
  split.
  { destruct (setup_cases w self)
      as [(e & _ & Ho & _) | [(e & _ & _ & Ho & _) | [(e & _ & _ & _ & Ho & _)
         | [(df' & _ & _ & _ & _ & Ho & _) | (df' & _ & _ & Ht & _ & _ & Ho & _)]]]];
      rewrite Ho in Hsetup; try discriminate. by injection Hsetup as <-. }
  split; [done |].
  split; [rewrite Hfs; apply lookup_insert_eq |].
  split; [by apply concat_axis1_length |].
  intros i row Hi. destruct (Hrows i row Hi) as (Hflag & prompt & fl & Hp & Hfl & Hl & Hin).
  split; [done |]. exists prompt, fl.
  split; [done |]. split; [done |].
  split; [by apply concat_axis1_lookup |].
  rewrite Htrace. apply in_or_app. right. apply in_or_app. by left.
Qed.

(* ===================================================================== *)
(** ** Properties of the pipeline *)
(* ===================================================================== *)

(** C1, as stated, fails: a run that completes after the model answered
    [{}] writes a row whose flattened result has neither the four pairs
    nor the [error] key. *)
Lemma C1_counterexample :
  completed (run Demo.empty_object Demo.self (init ∅)).2 "data/users_output.csv"
  /\ fs (run Demo.empty_object Demo.self (init ∅)).2 !! "data/users_output.csv"
     = Some [(Some {[ "Full Name" := CStr "Ada Lovelace"; "Username" := CStr "ada" ]},
              Some ∅)]
  /\ exactly_one (∅ : gmap string pyval) = false
  /\ ~ (forall w self files r st' path final i row flattened,
          run w self (init files) = (r, st') ->
          completed st' path ->
          fs st' !! path = Some final ->
          final !! i = Some (row, Some flattened) ->
          exactly_one flattened = true).
Proof.
  assert (H1 : completed (run Demo.empty_object Demo.self (init ∅)).2 "data/users_output.csv").
  { unfold completed. vm_compute. repeat (first [left; reflexivity | right]). }
  assert (H2 : fs (run Demo.empty_object Demo.self (init ∅)).2 !! "data/users_output.csv"
               = Some [(Some {[ "Full Name" := CStr "Ada Lovelace";
                                "Username" := CStr "ada" ]}, Some ∅)]).
  { vm_compute. reflexivity. }
  split; [done |]. split; [done |]. split; [reflexivity |].
  intros Hall.
  specialize (Hall Demo.empty_object Demo.self ∅ _ _ "data/users_output.csv" _ 0 _ ∅
                   (surjective_pairing _) H1 H2 eq_refl).
  discriminate.
Qed.

(** C1 (amended). Every row written by a run that completed is an input
    row next to the flattened result of the object [insights] held for it,
    and that result never has both the [error] key and the four pairs: it
    has the [error] key exactly when the object has one, and then nothing
    else; it has the four pairs exactly when the object has no [error] key
    and maps each of the four attributes to an object. *)
Theorem C1_flattened_result_shape w self files r st' path final i out_row :
  run w self (init files) = (r, st') ->
  completed st' path ->
  fs st' !! path = Some final ->
  final !! i = Some out_row ->
  exists row prompt d flattened,
    out_row = (Some row, Some flattened)
    /\ row_prompt self row = Some prompt
    /\ insights_of w i prompt = PyDict d
    /\ flatten (PyDict d) = inr flattened
    /\ (has_error flattened = true <-> is_Some (d !! "error"))
    /\ (forall v, d !! "error" = Some v -> flattened = {[ "error" := v ]})
    /\ (all_four flattened = true <->
        d !! "error" = None
        /\ forall attribute, In attribute attributes ->
                             exists o, d !! attribute = Some (PyDict o))
    /\ all_four flattened && has_error flattened = false.
Proof.
  intros Hrun Hdone Hfile Hi.
  destruct (run_completed_rows w self files r st' path Hrun Hdone)
    as (df & final' & _ & _ & Hfile' & Hlen & Hrows).
  rewrite Hfile in Hfile'. injection Hfile' as <-.
  assert (i < length (rows df)) as Hlt by (rewrite <- Hlen; by eapply lookup_lt_Some).
  apply lookup_lt_is_Some_2 in Hlt as [row Hrow].
  destruct (Hrows i row Hrow) as (_ & prompt & flattened & Hp & Hfl & Hout & _).
  rewrite Hi in Hout. injection Hout as ->.
  destruct (flatten_inr _ _ Hfl) as [d Hd]. rewrite Hd in Hfl.
  exists row, prompt, d, flattened.
  destruct (flatten_shape d flattened Hfl) as (He & Hv & Hfour & Hboth).
  by auto 10.
Qed.

Lemma C1_flattened_result_shape_witness :
  exists row prompt d flattened,
    (Some {[ "Full Name" := NaN; "Username" := CStr "bob_42" ]},
     Some {[ "error" := PyStr "503 Service Unavailable" ]})
    = (Some row, Some flattened)
    /\ row_prompt Demo.self row = Some prompt
    /\ insights_of Demo.second_fails 1 prompt = PyDict d
    /\ flatten (PyDict d) = inr flattened
    /\ (has_error flattened = true <-> is_Some (d !! "error"))
    /\ (forall v, d !! "error" = Some v -> flattened = {[ "error" := v ]})
    /\ (all_four flattened = true <->
        d !! "error" = None
        /\ forall attribute, In attribute attributes ->
                             exists o, d !! attribute = Some (PyDict o))
    /\ all_four flattened && has_error flattened = false.
Proof.
  apply (C1_flattened_result_shape Demo.second_fails Demo.self ∅
           (run Demo.second_fails Demo.self (init ∅)).1
           (run Demo.second_fails Demo.self (init ∅)).2
           "data/users_output.csv"
           (concat_axis1 (rows Demo.table)
              [ Demo.flat_answer;
                {[ "error" := PyStr "503 Service Unavailable" ]};
                Demo.flat_answer ])
           1).
  - apply surjective_pairing.
  - unfold completed. vm_compute. repeat (first [left; reflexivity | right]).
  - vm_compute. reflexivity.
  - vm_compute. reflexivity.
Defined.

(** C10, as stated, fails: an answer that parses to an object with a
    top-level [error] key next to an object-valued key flattens to the
    [error] key alone; the object-valued key gets no pair and the
    [error] key, whose value is not an object, is not dropped. *)
Lemma C10_counterexample :
  Demo.loads (clean_response Demo.refusal_json) = inr Demo.refusal_value
  /\ flatten Demo.refusal_value = inr {[ "error" := PyStr "no data" ]}
  /\ ~ (forall (d : gmap string pyval) key o flattened,
          d !! key = Some (PyDict o) ->
          flatten (PyDict d) = inr flattened ->
          has_pair flattened key = true).
Proof.
  split; [vm_compute; reflexivity |].
  split; [vm_compute; reflexivity |].
  intros Hall.
  specialize (Hall {[ "error" := PyStr "no data";
                      "user_persona" := PyDict {[ "value" := PyStr "Engineer";
                                                  "confidence" := PyInt 1 ]} ]}
                   "user_persona"
                   {[ "value" := PyStr "Engineer"; "confidence" := PyInt 1 ]}
                   {[ "error" := PyStr "no data" ]}).
  assert (has_pair ({[ "error" := PyStr "no data" ]} : gmap string pyval) "user_persona"
          = false) as Hno by (vm_compute; reflexivity).
  rewrite Hall in Hno; [discriminate | vm_compute; reflexivity | vm_compute; reflexivity].
Qed.

(** C10 (amended). When the answer parses to an object without a
    top-level [error] key, the flattened result has, for every key of the
    object whose value is an object, the pair [<key>_value],
    [<key>_confidence] holding that object's [value] and [confidence]
    ([None] where missing), and it has no other key: keys whose value is
    not an object are dropped, and no fixed list of attributes is
    consulted. When the object has a top-level [error] key, the flattened
    result is that key alone with its value. *)
Theorem C10_flatten_follows_response_shape w index prompt text (d : gmap string pyval) :
  generate_content w index prompt = inr text ->
  json_loads w (clean_response text) = inr (PyDict d) ->
  (d !! "error" = None ->
   exists flattened,
     flatten (insights_of w index prompt) = inr flattened
     /\ (forall key o,
           d !! key = Some (PyDict o) ->
           flattened !! (key +:+ "_value") = Some (default PyNone (o !! "value"))
           /\ flattened !! (key +:+ "_confidence") = Some (default PyNone (o !! "confidence")))
     /\ (forall k v,
           flattened !! k = Some v ->
           exists key o,
             d !! key = Some (PyDict o)
             /\ ((k = key +:+ "_value" /\ v = default PyNone (o !! "value"))
                 \/ (k = key +:+ "_confidence" /\ v = default PyNone (o !! "confidence")))))
  /\ (forall v,
        d !! "error" = Some v ->
        flatten (insights_of w index prompt) = inr {[ "error" := v ]}).
Proof.
  intros Hgen Hparse. unfold insights_of. rewrite Hgen, Hparse.
  split.
  - intros Herr. exact (flatten_object d Herr).
  - intros v Herr. exact (flatten_error d v Herr).
Qed.

Lemma C10_flatten_follows_response_shape_witness :
  (exists flattened,
      flatten (insights_of Demo.second_fails 0 "") = inr flattened
      /\ (forall key o,
            ({[ "predicted_gender" := Demo.pair "Female" 4606281698874543309;
                "predicted_origin" := Demo.pair "English" 4602678819172646912;
                "deduced_language" := Demo.pair "English" 4604930618986332160;
                "user_persona" := Demo.pair "Engineer" 4602678819172646912 ]}
               : gmap string pyval) !! key = Some (PyDict o) ->
            flattened !! (key +:+ "_value") = Some (default PyNone (o !! "value"))
            /\ flattened !! (key +:+ "_confidence")
               = Some (default PyNone (o !! "confidence")))
      /\ (forall k v,
            flattened !! k = Some v ->
            exists key o,
              ({[ "predicted_gender" := Demo.pair "Female" 4606281698874543309;
                  "predicted_origin" := Demo.pair "English" 4602678819172646912;
                  "deduced_language" := Demo.pair "English" 4604930618986332160;
                  "user_persona" := Demo.pair "Engineer" 4602678819172646912 ]}
                 : gmap string pyval) !! key = Some (PyDict o)
              /\ ((k = key +:+ "_value" /\ v = default PyNone (o !! "value"))
                  \/ (k = key +:+ "_confidence"
                      /\ v = default PyNone (o !! "confidence")))))
  /\ flatten (insights_of Demo.refused 0 "") = inr {[ "error" := PyStr "no data" ]}.
Proof.
  split.
  - apply (C10_flatten_follows_response_shape Demo.second_fails 0 "" Demo.answer).
    + reflexivity.
    + vm_compute. reflexivity.
    + vm_compute. reflexivity.
  - apply (C10_flatten_follows_response_shape Demo.refused 0 "" Demo.refusal_json
             {[ "error" := PyStr "no data";
                "user_persona" := PyDict {[ "value" := PyStr "Engineer";
                                            "confidence" := PyInt 1 ]} ]}).
    + reflexivity.
    + vm_compute. reflexivity.
    + vm_compute. reflexivity.
Defined.

(** C5. A run that completes wrote, at the path it reports, a table with
    exactly one row per input row, in input order: at every position the
    input row next to the flattened result of the request made for that
    row, which for a failed request is the error record. *)
Theorem C5_one_output_row_per_input_row w self files r st' path :
  run w self (init files) = (r, st') ->
  completed st' path ->
  exists df final,
    input_table w self = inr df
    /\ fs st' !! path = Some final
    /\ length final = length (rows df)
    /\ forall i row,
         rows df !! i = Some row ->
         exists prompt flattened,
           row_prompt self row = Some prompt
           /\ flatten (insights_of w i prompt) = inr flattened
           /\ final !! i = Some (Some row, Some flattened)
           /\ forall e, inference_failure w i prompt = Some e ->
                        flattened = {[ "error" := PyStr e ]}.
Proof.
  intros Hrun Hdone.
  destruct (run_completed_rows w self files r st' path Hrun Hdone)
    as (df & final & Htable & _ & Hfile & Hlen & Hrows).
  exists df, final. repeat (split; [done |]).
  intros i row Hrow.
  destruct (Hrows i row Hrow) as (_ & prompt & flattened & Hp & Hfl & Hout & _).
  exists prompt, flattened. repeat (split; [done |]).
  intros e He. rewrite (insights_of_failure _ _ _ _ He), flatten_error_record in Hfl.
  congruence.
Qed.

Lemma C5_one_output_row_per_input_row_witness :
  exists df final,
    input_table Demo.second_fails Demo.self = inr df
    /\ fs (run Demo.second_fails Demo.self (init ∅)).2 !! "data/users_output.csv" = Some final
    /\ length final = length (rows df)
    /\ forall i row,
         rows df !! i = Some row ->
         exists prompt flattened,
           row_prompt Demo.self row = Some prompt
           /\ flatten (insights_of Demo.second_fails i prompt) = inr flattened
           /\ final !! i = Some (Some row, Some flattened)
           /\ forall e, inference_failure Demo.second_fails i prompt = Some e ->
                        flattened = {[ "error" := PyStr e ]}.
Proof.
  apply (C5_one_output_row_per_input_row Demo.second_fails Demo.self ∅
           (run Demo.second_fails Demo.self (init ∅)).1).
  - apply surjective_pairing.
  - unfold completed. vm_compute. repeat (first [left; reflexivity | right]).
Defined.

(** C6. If the file loads and one of the two requested columns is not in
    its header, the run emits the column error and returns: the trace is
    exactly the six actions up to that signal, among them no request, the
    loop is never entered and nothing is written. *)
Theorem C6_missing_column_fails_before_requests w self files df :
  configure w (api_key self) = None ->
  GenerativeModel w model_name = None ->
  input_table w self = inr df ->
  ~ In (fullname_col self) (columns df) \/ ~ In (username_col self) (columns df) ->
  exists st',
    run w self (init files) = (Return, st')
    /\ trace st' = [Configure (api_key self); NewModel model_name;
                    Progress configured_msg; read_event self;
                    Progress (loaded_msg self); ErrorSig (column_error_msg self)]
    /\ (forall ev, In ev (trace st') -> is_generate ev = false /\ is_write ev = false)
    /\ fs st' = files.
Proof.
  intros Hc Hm Ht Hmiss. rewrite run_eq.
  assert (has_column df (fullname_col self) = false
          \/ has_column df (username_col self) = false) as Hcol.
  { destruct Hmiss as [H | H]; [left | right];
      (destruct (has_column df _) eqn:Hh; [| done]);
      apply has_column_In in Hh; contradiction. }
  destruct (setup_cases w self)
    as [(e' & Hc' & _) | [(e' & _ & Hm' & _) | [(e' & _ & _ & Ht' & _)
       | [(df' & _ & _ & Ht' & _ & Ho & Hl) | (df' & _ & _ & Ht' & Hf & Hu & _)]]]];
    try congruence.
  - rewrite Ho. eexists. split; [reflexivity |]. simpl. split; [done |]. split; [| done].
    intros ev Hin. by apply setup_events in Hin.
  - assert (df' = df) as -> by congruence. destruct Hcol; congruence.
Qed.

Lemma C6_missing_column_fails_before_requests_witness :
  exists st',
    run Demo.second_fails Demo.no_username (init ∅) = (Return, st')
    /\ trace st' = [Configure "k"; NewModel model_name;
                    Progress configured_msg; ReadExcel "data/users.xlsx";
                    Progress (loaded_msg Demo.no_username);
                    ErrorSig (column_error_msg Demo.no_username)]
    /\ (forall ev, In ev (trace st') -> is_generate ev = false /\ is_write ev = false)
    /\ fs st' = ∅.
Proof.
  apply (C6_missing_column_fails_before_requests Demo.second_fails Demo.no_username ∅
           Demo.table); try reflexivity.
  right. simpl. intros [H | [H | []]]; discriminate.
Defined.

(** C4. If the rows before position [k] were processed and the checkpoint
    before the row at position [k] finds the flag cleared, the run returns
    after the stop notice: it wrote nothing and emitted neither [finished]
    nor [error], the results gathered for the rows before [k] are dropped,
    and the files on disk are those from before the run, so nothing is at
    the output path unless it was there before. *)
Theorem C4_cancellation_writes_nothing w self files df pre row post results :
  out (setup w self) = Val df ->
  rows df = pre ++ row :: post ->
  out (loop w self (length (rows df)) pre 0 []) = Val results ->
  is_running w (length pre) = false ->
  exists st',
    run w self (init files) = (Return, st')
    /\ last (trace st') = Some (Progress stopped_msg)
    /\ (forall ev, In ev (trace st') -> is_write ev = false /\ is_error ev = false)
    /\ count_requests (trace st') = length pre
    /\ length results = length pre
    /\ fs st' = files
    /\ (files !! output_filepath (input_filepath self) = None ->
        fs st' !! output_filepath (input_filepath self) = None).
Proof.
  intros Hsetup Hrows Hpre Hstop. rewrite run_eq, Hsetup. cbv zeta.
  destruct (loop_app w self (length (rows df)) pre (row :: post) 0 []) as [Ho Hl].
  rewrite <- Hrows in Ho, Hl. rewrite Hpre in Ho, Hl. simpl plus in Ho, Hl.
  rewrite out_loop_cons in Ho. rewrite log_loop_cons in Hl.
  destruct (iteration_stopped w self (length (rows df)) (length pre) row results Hstop)
    as [Hio Hil].
  rewrite Hio in Ho, Hl. rewrite Hil in Hl.
  rewrite Ho. eexists. split; [reflexivity |].
  destruct (setup_val w self df Hsetup) as (_ & _ & _ & _ & _ & Hsl).
  destruct (loop_val w self _ _ _ _ _ Hpre) as (fls & -> & Hlen & _).
  split.
  { simpl. rewrite Hl, app_nil_r, !app_assoc. apply last_snoc. }
  split.
  { simpl. intros ev Hin. apply in_app_or in Hin as [Hin | Hin].
    - rewrite Hsl in Hin. unfold read_event in Hin. simpl in Hin.
      destruct (Str.endswith _ _);
        repeat (destruct Hin as [<- | Hin]; [done |]); destruct Hin.
    - rewrite Hl in Hin. apply in_app_or in Hin as [Hin | Hin].
      + by apply loop_no_write in Hin.
      + rewrite app_nil_r in Hin. destruct Hin as [<- | []]. done. }
  split.
  { simpl. rewrite Hl, app_nil_r, !count_requests_app.
    destruct (loop_counts w self _ _ _ _ _ Hpre) as [-> _].
    rewrite Hsl. unfold read_event, count_requests.
    destruct (Str.endswith _ _); simpl; lia. }
  done.
Qed.

Lemma C4_cancellation_writes_nothing_witness :
  exists st',
    run Demo.stopped_at_2 Demo.self (init ∅) = (Return, st')
    /\ last (trace st') = Some (Progress stopped_msg)
    /\ (forall ev, In ev (trace st') -> is_write ev = false /\ is_error ev = false)
    /\ count_requests (trace st') = 2
    /\ length [Demo.flat_answer; Demo.flat_answer] = 2
    /\ fs st' = ∅
    /\ ((∅ : gmap string final_frame) !! output_filepath "data/users.xlsx" = None ->
        fs st' !! output_filepath "data/users.xlsx" = None).
Proof.
  apply (C4_cancellation_writes_nothing Demo.stopped_at_2 Demo.self ∅ Demo.table
           [ {[ "Full Name" := CStr "Ada Lovelace"; "Username" := CStr "ada" ]};
             {[ "Full Name" := NaN; "Username" := CStr "bob_42" ]} ]
           {[ "Full Name" := CStr "Grace Hopper"; "Username" := CStr "grace" ]}
           []
           [Demo.flat_answer; Demo.flat_answer]).
  - vm_compute. reflexivity.
  - reflexivity.
  - vm_compute. reflexivity.
  - reflexivity.
Defined.

(** Every object flattens. *)
Lemma flatten_dict_total (d : gmap string pyval) :
  exists flattened, flatten (PyDict d) = inr flattened.
Proof.
  destruct (d !! "error") as [v |] eqn:Herr.
  - eexists. by apply flatten_error.
  - destruct (flatten_object d Herr) as (fl & Hfl & _). by exists fl.
Qed.

(** The loop at a row whose request fails: the progress line, the request,
    the warning and the pause, and on with the next row, the error record
    appended. *)
Lemma loop_failed_row w self n row rest index results prompt e st :
  is_running w index = true ->
  row_prompt self row = Some prompt ->
  inference_failure w index prompt = Some e ->
  exists username,
    row !! username_col self = Some username
    /\ loop w self n (row :: rest) index results st
       = loop w self n rest (S index) (results ++ [{[ "error" := PyStr e ]}])
           (after st [Progress (analyzing_msg index n (normalize username));
                      GenerateContent index prompt;
                      Progress (warning_msg (normalize username) e);
                      Sleep 3]).
Proof.
  intros Hrun Hp He. unfold row_prompt in Hp.
  destruct (row !! fullname_col self) as [fn |] eqn:Hf; [| done].
  destruct (row !! username_col self) as [un |] eqn:Hu; [| done].
  injection Hp as <-. exists un. split; [done |].
  destruct (iteration_running w self n index row results fn un Hrun Hf Hu) as [Ho Hl].
  rewrite (insights_of_failure _ _ _ _ He), flatten_error_record in Ho, Hl.
  rewrite log_infer, He in Hl. simpl in Hl.
  simpl loop. unfold bind at 1. rewrite (quiet_iteration w self n index row results st).
  by rewrite Ho, Hl.
Qed.

(** The prompt of a row of a well-formed table that has both columns. *)
Lemma row_prompt_some self df i row :
  well_formed df ->
  has_column df (fullname_col self) = true ->
  has_column df (username_col self) = true ->
  rows df !! i = Some row ->
  exists prompt, row_prompt self row = Some prompt.
Proof.
  intros Hwf Hf Hu Hi. apply has_column_In in Hf, Hu.
  assert (In row (rows df)) as Hin.
  { apply list_elem_of_In. by eapply list_elem_of_lookup_2. }
  destruct (Hwf row _ Hin Hf) as [fn Hfn]. destruct (Hwf row _ Hin Hu) as [un Hun].
  unfold row_prompt. rewrite Hfn, Hun. by eexists.
Qed.

(** C2. A row whose request raises, or whose cleaned text does not parse,
    does not abort the run. First, from any state and whatever the other
    rows are: the loop at such a row warns, pauses, appends the error
    record and goes on with the next row. Second, for a whole run: if the
    flag stays set, the write succeeds and every request either fails or is
    answered with an object, the run completes, every row got its request,
    and the row of every failed request is written with the error record. *)
Theorem C2_row_failures_do_not_abort w self :
  (forall n row rest index results prompt e st,
      is_running w index = true ->
      row_prompt self row = Some prompt ->
      inference_failure w index prompt = Some e ->
      exists username,
        row !! username_col self = Some username
        /\ loop w self n (row :: rest) index results st
           = loop w self n rest (S index) (results ++ [{[ "error" := PyStr e ]}])
               (after st [Progress (analyzing_msg index n (normalize username));
                          GenerateContent index prompt;
                          Progress (warning_msg (normalize username) e);
                          Sleep 3]))
  /\ (forall files df,
        out (setup w self) = Val df ->
        well_formed df ->
        (forall i, i < length (rows df) -> is_running w i = true) ->
        (forall i row prompt,
            rows df !! i = Some row ->
            row_prompt self row = Some prompt ->
            inference_failure w i prompt <> None
            \/ exists d, insights_of w i prompt = PyDict d) ->
        (forall final, to_csv w (output_filepath (input_filepath self)) final = None) ->
        exists st' final,
          run w self (init files) = (Val tt, st')
          /\ completed st' (output_filepath (input_filepath self))
          /\ fs st' !! output_filepath (input_filepath self) = Some final
          /\ length final = length (rows df)
          /\ forall i row,
               rows df !! i = Some row ->
               exists prompt,
                 row_prompt self row = Some prompt
                 /\ In (GenerateContent i prompt) (trace st')
                 /\ forall e,
                      inference_failure w i prompt = Some e ->
                      final !! i = Some (Some row, Some {[ "error" := PyStr e ]})).
Proof.
  split; [intros; by eapply loop_failed_row |].
  intros files df Hsetup Hwf Hflag Hrows Hwrite.
  destruct (setup_val w self df Hsetup) as (_ & _ & _ & Hf & Hu & _).
  assert (forall i row,
             rows df !! i = Some row ->
             is_running w (0 + i) = true
             /\ exists prompt flattened,
                  row_prompt self row = Some prompt
                  /\ flatten (insights_of w (0 + i) prompt) = inr flattened) as Hall.
  { intros i row Hi. simpl. split; [apply Hflag; by eapply lookup_lt_Some |].
    destruct (row_prompt_some self df i row Hwf Hf Hu Hi) as [prompt Hp].
    exists prompt.
    destruct (Hrows i row prompt Hi Hp) as [Hfail | [d Hd]].
    - destruct (inference_failure w i prompt) as [e |] eqn:He; [| done].
      rewrite (insights_of_failure _ _ _ _ He), flatten_error_record. by eexists.
    - rewrite Hd. destruct (flatten_dict_total d) as [fl Hfl]. by exists fl. }
  destruct (loop_runs w self (length (rows df)) (rows df) 0 [] Hall) as [results Hloop].
  destruct (loop_val w self _ _ _ _ _ Hloop) as (fls & Hres & Hlen & Hval).
  simpl in Hres. subst results.
  rewrite run_eq, Hsetup. cbv zeta. rewrite Hloop, Hwrite.
  eexists _, _. split; [reflexivity |].
  split.
  { unfold completed. simpl. rewrite !in_app_iff. right. right. right. by left. }
  split; [simpl; apply lookup_insert_eq |].
  split; [by apply concat_axis1_length |].
  intros i row Hi.
  destruct (Hval i row Hi) as (_ & prompt & fl & Hp & Hfl & Hl & Hin).
  exists prompt. split; [done |]. split.
  { simpl. rewrite !in_app_iff. right. by left. }
  intros e He. simpl in Hfl.
  rewrite (insights_of_failure _ _ _ _ He), flatten_error_record in Hfl.
  injection Hfl as <-. by apply concat_axis1_lookup.
Qed.

Lemma C2_row_failures_do_not_abort_witness :
  exists st' final,
    run Demo.second_fails Demo.self (init ∅) = (Val tt, st')
    /\ completed st' (output_filepath "data/users.xlsx")
    /\ fs st' !! output_filepath "data/users.xlsx" = Some final
    /\ length final = 3
    /\ forall i row,
         rows Demo.table !! i = Some row ->
         exists prompt,
           row_prompt Demo.self row = Some prompt
           /\ In (GenerateContent i prompt) (trace st')
           /\ forall e,
                inference_failure Demo.second_fails i prompt = Some e ->
                final !! i = Some (Some row, Some {[ "error" := PyStr e ]}).
Proof.
  apply (proj2 (C2_row_failures_do_not_abort Demo.second_fails Demo.self) ∅ Demo.table).
  - vm_compute. reflexivity.
  - intros row col Hrow Hcol. simpl in Hrow, Hcol.
    destruct Hrow as [<- | [<- | [<- | []]]];
      destruct Hcol as [<- | [<- | []]]; vm_compute; eauto.
  - reflexivity.
  - intros i row prompt Hi Hp. right.
    destruct i as [| [| [| i]]]; try discriminate.
    + eexists. vm_compute. reflexivity.
    + eexists. vm_compute. reflexivity.
    + eexists. vm_compute. reflexivity.
  - reflexivity.
Defined.




(** Every request of a run is the request of the row at that position of
    the loaded table, with the prompt built from that row. *)
Lemma run_requests w self files r st' i prompt :
  run w self (init files) = (r, st') ->
  In (GenerateContent i prompt) (trace st') ->
  exists df row,
    input_table w self = inr df
    /\ rows df !! i = Some row
    /\ row_prompt self row = Some prompt.
Proof.
  rewrite run_eq.
  assert (Hs : ~ In (GenerateContent i prompt) (log (setup w self))).
  { intros H. by apply setup_events in H as [H _]. }
  assert (Hl : forall df,
             out (setup w self) = Val df ->
             In (GenerateContent i prompt)
                (log (loop w self (length (rows df)) (rows df) 0 [])) ->
             exists df row,
               input_table w self = inr df
               /\ rows df !! i = Some row
               /\ row_prompt self row = Some prompt).
  { intros df Hsetup Hin. apply loop_requests in Hin as (row & _ & Hi & Hp).
    rewrite Nat.sub_0_r in Hi. exists df, row.
    by destruct (setup_val w self df Hsetup) as (_ & _ & Ht & _). }
  destruct (out (setup w self)) as [df | e |] eqn:Hsetup.
  - cbv zeta.
    destruct (out (loop w self (length (rows df)) (rows df) 0 [])) as [results | e |].
    + destruct (to_csv w _ _) as [[e remains] |]; intros [= <- <-]; simpl;
        rewrite !in_app_iff; simpl;
        intros [H | [H | [H | [H | []]]]]; try discriminate; by eauto.
    + intros [= <- <-]. simpl. rewrite !in_app_iff. simpl.
      intros [H | [H | [H | []]]]; try discriminate; by eauto.
    + intros [= <- <-]. simpl. rewrite !in_app_iff.
      intros [H | H]; by eauto.
  - intros [= <- <-]. simpl. rewrite !in_app_iff. simpl.
    intros [H | [H | []]]; try discriminate. done.
  - intros [= <- <-]. simpl. done.
Qed.

(** C7. The prompt of every request of a run is the template around the
    two cells of its row, where a missing cell ([pd.isna]) is embedded as
    the empty string: the text of a missing value ([nan], [NaT]) is never
    what is embedded for it. *)
Theorem C7_missing_cells_embedded_as_empty w self files r st' i prompt :
  run w self (init files) = (r, st') ->
  In (GenerateContent i prompt) (trace st') ->
  exists df row full_name username,
    input_table w self = inr df
    /\ rows df !! i = Some row
    /\ row !! fullname_col self = Some full_name
    /\ row !! username_col self = Some username
    /\ prompt = prompt_head
                +:+ (if pd_isna full_name then "" else py_str full_name)
                +:+ prompt_mid
                +:+ (if pd_isna username then "" else py_str username)
                +:+ prompt_tail
    /\ (pd_isna full_name = true -> py_str (normalize full_name) = ""
                                    /\ py_str full_name <> "")
    /\ (pd_isna username = true -> py_str (normalize username) = ""
                                   /\ py_str username <> "").
Proof.
  intros Hrun Hin.
  destruct (run_requests w self files r st' i prompt Hrun Hin) as (df & row & Ht & Hi & Hp).
  unfold row_prompt in Hp.
  destruct (row !! fullname_col self) as [fn |] eqn:Hf; [| done].
  destruct (row !! username_col self) as [un |] eqn:Hu; [| done].
  injection Hp as <-. exists df, row, fn, un.
  repeat (split; [done |]).
  split.
  { unfold make_prompt, normalize. by destruct (pd_isna fn), (pd_isna un). }
  split; intros Hna; [destruct fn | destruct un]; done.
Qed.

Lemma C7_missing_cells_embedded_as_empty_witness :
  exists df row full_name username,
    input_table Demo.second_fails Demo.self = inr df
    /\ rows df !! 1 = Some row
    /\ row !! "Full Name" = Some full_name
    /\ row !! "Username" = Some username
    /\ make_prompt (CStr "") (CStr "bob_42")
       = prompt_head
         +:+ (if pd_isna full_name then "" else py_str full_name)
         +:+ prompt_mid
         +:+ (if pd_isna username then "" else py_str username)
         +:+ prompt_tail
    /\ (pd_isna full_name = true -> py_str (normalize full_name) = ""
                                    /\ py_str full_name <> "")
    /\ (pd_isna username = true -> py_str (normalize username) = ""
                                   /\ py_str username <> "").
Proof.
  apply (C7_missing_cells_embedded_as_empty Demo.second_fails Demo.self ∅
           (run Demo.second_fails Demo.self (init ∅)).1
           (run Demo.second_fails Demo.self (init ∅)).2).
  - apply surjective_pairing.
  - vm_compute. repeat (first [left; reflexivity | right]).
Defined.

(** C9, as stated, fails: an iteration that is not stopped by the flag but
    whose answer is valid JSON other than an object (here [[]]) ends in
    the exception of line 86 and never reaches the pause; the run made one
    request and paused zero times. *)
Lemma C9_counterexample :
  is_running Demo.array_answer 0 = true
  /\ count_requests (trace (run Demo.array_answer Demo.self (init ∅)).2) = 1
  /\ count_pauses (trace (run Demo.array_answer Demo.self (init ∅)).2) = 0
  /\ ~ (forall w self n index row results,
          is_running w index = true ->
          In (Sleep 3) (log (iteration w self n index row results))).
Proof.
  split; [reflexivity |]. split; [vm_compute; reflexivity |].
  split; [vm_compute; reflexivity |].
  intros Hall.
  specialize (Hall Demo.array_answer Demo.self 1 0
                   {[ "Full Name" := CStr "Ada Lovelace"; "Username" := CStr "ada" ]}
                   [] eq_refl).
  vm_compute in Hall.
  repeat (destruct Hall as [Hall | Hall]; [discriminate |]). destruct Hall.
Qed.

(** C9 (amended). Every iteration that runs to its end, that is, one that
    neither finds the flag cleared nor ends in an exception, performs the
    pause as its last action and only there. An iteration whose request
    raises or whose text does not parse is such an iteration. And a run
    that completes paused once per row. *)
Theorem C9_pause_after_every_completed_iteration w self :
  (forall n index row results results',
      out (iteration w self n index row results) = Val results' ->
      exists evs,
        log (iteration w self n index row results) = evs ++ [Sleep 3]
        /\ count_pauses evs = 0)
  /\ (forall n index row results prompt e,
        is_running w index = true ->
        row_prompt self row = Some prompt ->
        inference_failure w index prompt = Some e ->
        out (iteration w self n index row results)
        = Val (results ++ [{[ "error" := PyStr e ]}]))
  /\ (forall files r st' path df,
        run w self (init files) = (r, st') ->
        completed st' path ->
        input_table w self = inr df ->
        count_pauses (trace st') = length (rows df)
        /\ count_requests (trace st') = length (rows df)).
Proof.
  split; [| split].
  - intros n index row results results' Hval.
    destruct (iteration_inv w self n index row results)
      as [(_ & Ho & _) | [(_ & _ & [e Ho] & _) | (fn & un & _ & _ & _ & Ho & Hl)]];
      rewrite Ho in Hval; try discriminate.
    rewrite Hl, log_infer. destruct (flatten _); [discriminate |].
    eexists (_ :: _ :: _). split; [reflexivity |].
    by destruct (inference_failure _ _ _).
  - intros n index row results prompt e Hrun Hp He.
    apply iteration_val. split; [done |]. exists prompt, {[ "error" := PyStr e ]}.
    split; [done |]. split; [| done].
    rewrite (insights_of_failure _ _ _ _ He). apply flatten_error_record.
  - intros files r st' path df Hrun Hdone Ht.
    destruct (run_completed w self files r st' path Hrun Hdone)
      as (df' & results & Hsetup & Hloop & _ & _ & _ & Htrace & _).
    destruct (setup_val w self df' Hsetup) as (_ & _ & Ht' & _ & _ & Hsl).
    assert (df' = df) as -> by congruence.
    destruct (loop_counts w self _ _ _ _ _ Hloop) as [Hr Hp].
    rewrite Htrace, !count_pauses_app, !count_requests_app, Hr, Hp, Hsl.
    unfold count_pauses, count_requests, read_event.
    destruct (Str.endswith _ _); simpl; lia.
Qed.

Lemma C9_pause_after_every_completed_iteration_witness :
  count_pauses (trace (run Demo.second_fails Demo.self (init ∅)).2) = 3
  /\ count_requests (trace (run Demo.second_fails Demo.self (init ∅)).2) = 3.
Proof.
  apply (proj2 (proj2 (C9_pause_after_every_completed_iteration Demo.second_fails Demo.self))
           ∅ (run Demo.second_fails Demo.self (init ∅)).1 _ "data/users_output.csv"
           Demo.table).
  - apply surjective_pairing.
  - unfold completed. vm_compute. repeat (first [left; reflexivity | right]).
  - reflexivity.
Defined.

(* ===================================================================== *)
(** ** The output path *)
(* ===================================================================== *)

Lemma take_app s1 s2 : Str.take (String.length s1) (s1 +:+ s2) = s1.
Proof. induction s1 as [| c s1 IH]; simpl; [by destruct s2 | by rewrite IH]. Qed.

Lemma drop_app s1 s2 : Str.drop (String.length s1) (s1 +:+ s2) = s2.
Proof. induction s1 as [| c s1 IH]; simpl; [by destruct s2 | done]. Qed.

Lemma take_app_char s1 c s2 :
  Str.take (S (String.length s1)) (s1 +:+ String c s2) = s1 +:+ String c "".
Proof.
  induction s1 as [| a s1 IH]; [simpl; by destruct s2 |].
  exact (f_equal (String a) IH).
Qed.

Lemma drop_app_char s1 c s2 :
  Str.drop (S (String.length s1)) (s1 +:+ String c s2) = s2.
Proof.
  induction s1 as [| a s1 IH]; [simpl; by destruct s2 |].
  change (String a s1 +:+ String c s2) with (String a (s1 +:+ String c s2)).
  cbn [String.length Str.drop]. apply IH.
Qed.

Lemma mem_app c s1 s2 : Str.mem c (s1 +:+ s2) = Str.mem c s1 || Str.mem c s2.
Proof.
  induction s1 as [| a s1 IH]; simpl; [done |]. rewrite IH. by rewrite orb_assoc.
Qed.

(** [rfind] without an occurrence, and with a last occurrence. *)
Lemma rfind_none c s : Str.mem c s = false -> Str.rfind c s = (-1)%Z.
Proof.
  induction s as [| a s IH]; simpl; [done |]. intros H.
  apply orb_false_iff in H as [Ha Hs]. rewrite (IH Hs). simpl. by rewrite Ha.
Qed.

Lemma rfind_last c s1 s2 :
  Str.mem c s2 = false ->
  Str.rfind c (s1 +:+ String c s2) = Z.of_nat (String.length s1).
Proof.
  intros H. induction s1 as [| a s1 IH].
  - simpl. rewrite (rfind_none c s2 H). simpl. by rewrite Ascii.eqb_refl.
  - change (String a s1 +:+ String c s2) with (String a (s1 +:+ String c s2)).
    cbn [Str.rfind]. rewrite IH.
    assert ((0 <=? Z.of_nat (String.length s1))%Z = true) as -> by (apply Z.leb_le; lia).
    cbn [String.length]. lia.
Qed.

(** [rstrip]: a trailing [c] goes; a string that does not end in [c]
    stays. *)
Lemma rstrip_app_char c s : Str.rstrip c (s +:+ String c "") = Str.rstrip c s.
Proof.
  unfold Str.rstrip. induction s as [| a s IH]; simpl.
  - by rewrite Ascii.eqb_refl.
  - by rewrite IH.
Qed.

Lemma rstrip_id c s : Str.endswith (String c "") s = false -> Str.rstrip c s = s.
Proof.
  unfold Str.rstrip. induction s as [| a s IH]; [done |].
  intros H. cbn [Str.endswith] in H. apply orb_false_iff in H as [Ha Hs].
  cbn [Str.rstrip_by]. rewrite (IH Hs).
  destruct s as [| b s].
  - simpl. destruct (Ascii.eqb c a) eqn:Hc; [| done].
    apply Ascii.eqb_eq in Hc as ->. by rewrite String.eqb_refl in Ha.
  - done.
Qed.

Lemma eqb_repeat c s :
  String.eqb s (Str.repeat c (String.length s)) = Str.all_char c s.
Proof. induction s as [| a s IH]; simpl; [done |]. by rewrite IH. Qed.

Lemma all_char_app_char c s : Str.all_char c (s +:+ String c "") = Str.all_char c s.
Proof.
  induction s as [| a s IH]; simpl.
  - by rewrite Ascii.eqb_refl.
  - by rewrite IH.
Qed.

Lemma all_char_endswith c s :
  Str.all_char c s = true -> s <> "" -> Str.endswith (String c "") s = true.
Proof.
  induction s as [| a s IH]; [done |]. simpl. intros H _.
  apply andb_true_iff in H as [Ha Hs]. apply Ascii.eqb_eq in Ha as ->.
  destruct s as [| b s].
  - by rewrite Ascii.eqb_refl.
  - rewrite IH by done. apply orb_true_r.
Qed.

(** The directory of [dir/base] when [dir] has no trailing separator and
    [base] has none at all. *)
Lemma dirname_split dir base :
  Str.endswith "/" dir = false ->
  Str.mem "/" base = false ->
  OsPath.dirname (dir +:+ String "/" base) = if String.eqb dir "" then "/" else dir.
Proof.
  intros Hdir Hbase. unfold OsPath.dirname, OsPath.sep.
  rewrite (rfind_last "/" dir base Hbase).
  replace (Z.to_nat (Z.of_nat (String.length dir) + 1)) with (S (String.length dir)) by lia.
  rewrite take_app_char.
  destruct dir as [| a dir]; [done |].
  assert (String.eqb (String a dir +:+ "/") "" = false) as -> by done.
  rewrite eqb_repeat, all_char_app_char.
  destruct (Str.all_char "/" (String a dir)) eqn:Hall.
  - apply all_char_endswith in Hall; [congruence | done].
  - cbn [negb andb]. rewrite rstrip_app_char. by apply rstrip_id.
Qed.

Lemma basename_split dir base :
  Str.mem "/" base = false ->
  OsPath.basename (dir +:+ String "/" base) = base.
Proof.
  intros Hbase. unfold OsPath.basename, OsPath.sep.
  rewrite (rfind_last "/" dir base Hbase).
  replace (Z.to_nat (Z.of_nat (String.length dir) + 1)) with (S (String.length dir)) by lia.
  apply drop_app_char.
Qed.

Lemma basename_plain base : Str.mem "/" base = false -> OsPath.basename base = base.
Proof.
  intros Hbase. unfold OsPath.basename, OsPath.sep. by rewrite (rfind_none _ _ Hbase).
Qed.

Lemma dirname_plain base : Str.mem "/" base = false -> OsPath.dirname base = "".
Proof.
  intros Hbase. unfold OsPath.dirname, OsPath.sep. rewrite (rfind_none _ _ Hbase).
  simpl. by destruct base.
Qed.

(** The scan of [splitext] does not look at what precedes its start. *)
Lemma splitext_scan_shift a s n :
  forall i, (0 <= i)%Z ->
            OsPath.splitext_scan (String a s) (i + 1) n = OsPath.splitext_scan s i n.
Proof.
  induction n as [| n IH]; intros i Hi; [done |].
  cbn [OsPath.splitext_scan]. unfold Str.at_index.
  replace (Z.to_nat (i + 1)) with (S (Z.to_nat i)) by lia. cbn [String.get].
  rewrite IH by lia. done.
Qed.

Lemma splitext_scan_prefix stem rest :
  OsPath.splitext_scan (stem +:+ rest) 0 (String.length stem)
  = negb (Str.all_char "." stem).
Proof.
  induction stem as [| a stem IH]; [done |].
  change (String a stem +:+ rest) with (String a (stem +:+ rest)).
  cbn [String.length OsPath.splitext_scan Str.all_char]. unfold Str.at_index.
  change (Z.to_nat 0) with 0. cbn [String.get]. unfold OsPath.extsep.
  destruct (Ascii.eqb a ".") eqn:Ha; [| done].
  cbn [negb andb]. rewrite (splitext_scan_shift a (stem +:+ rest) _ 0%Z) by lia. apply IH.
Qed.

(** [splitext] of [stem.ext]. *)
Lemma splitext_split stem ext :
  Str.mem "/" stem = false ->
  Str.all_char "." stem = false ->
  Str.mem "/" ext = false ->
  Str.mem "." ext = false ->
  OsPath.splitext (stem +:+ String "." ext) = (stem, String "." ext).
Proof.
  intros Hs Hdots He Hd. unfold OsPath.splitext, OsPath.sep, OsPath.extsep.
  rewrite (rfind_none "/" (stem +:+ String "." ext))
    by (rewrite mem_app; simpl; by rewrite Hs, He).
  rewrite (rfind_last "." stem ext Hd).
  assert ((-1 <? Z.of_nat (String.length stem))%Z = true) as -> by (apply Z.ltb_lt; lia).
  replace (Z.to_nat (Z.of_nat (String.length stem) - (-1 + 1))) with (String.length stem)
    by lia.
  change (-1 + 1)%Z with 0%Z. rewrite splitext_scan_prefix, Hdots.
  rewrite Nat2Z.id. cbn [negb andb]. by rewrite take_app, drop_app.
Qed.

Lemma join_relative a b :
  Str.startswith "/" b = false ->
  OsPath.join a b
  = if String.eqb a "" || Str.endswith "/" a then a +:+ b else a +:+ "/" +:+ b.
Proof. intros H. unfold OsPath.join, OsPath.sep. by rewrite H. Qed.

(** The output path of [dir/stem.ext] is [dir/stem_output.csv]. *)
Lemma output_filepath_split dir stem ext :
  Str.endswith "/" dir = false ->
  Str.mem "/" stem = false ->
  Str.all_char "." stem = false ->
  Str.mem "/" ext = false ->
  Str.mem "." ext = false ->
  output_filepath (dir +:+ "/" +:+ stem +:+ "." +:+ ext)
  = dir +:+ "/" +:+ stem +:+ "_output.csv".
Proof.
  intros Hdir Hs Hdots He Hd. unfold output_filepath.
  change ("/" +:+ stem +:+ "." +:+ ext) with (String "/" (stem +:+ String "." ext)).
  assert (Str.mem "/" (stem +:+ String "." ext) = false) as Hbase
      by (rewrite mem_app; simpl; by rewrite Hs, He).
  rewrite dirname_split, basename_split, splitext_split by done.
  assert (Str.startswith "/" (stem +:+ "_output.csv") = false) as Hrel.
  { destruct stem as [| a stem]; [done |].
    unfold Str.startswith.
    change (String a stem +:+ "_output.csv") with (String a (stem +:+ "_output.csv")).
    cbn [String.prefix].
    destruct (ascii_dec "/" a) as [<- |]; [| done].
    cbn [Str.mem] in Hs. by rewrite Ascii.eqb_refl in Hs. }
  rewrite join_relative by done.
  destruct dir as [| a dir]; [done |].
  assert (String.eqb (String a dir) "" = false) as -> by done.
  cbn [orb]. by rewrite Hdir.
Qed.

(** The output path of [stem.ext], a file name without a directory, is
    [stem_output.csv]. *)
Lemma output_filepath_plain stem ext :
  Str.mem "/" stem = false ->
  Str.all_char "." stem = false ->
  Str.mem "/" ext = false ->
  Str.mem "." ext = false ->
  output_filepath (stem +:+ "." +:+ ext) = stem +:+ "_output.csv".
Proof.
  intros Hs Hdots He Hd. unfold output_filepath.
  change ("." +:+ ext) with (String "." ext).
  assert (Str.mem "/" (stem +:+ String "." ext) = false) as Hbase
      by (rewrite mem_app; simpl; by rewrite Hs, He).
  rewrite dirname_plain, basename_plain, splitext_split by done.
  unfold OsPath.join.
  destruct (Str.startswith _ _); done.
Qed.

(** C8. A run that completes writes its table at, and reports, the path
    obtained from the input path alone: the directory of the input joined
    with the base name of the input, extension stripped, followed by
    [_output] and [.csv]. For [data/users.xlsx] this is
    [data/users_output.csv]; in general [dir/stem.ext] gives
    [dir/stem_output.csv] and [stem.ext] gives [stem_output.csv]. *)
Theorem C8_output_path_derivation w self files r st' path :
  run w self (init files) = (r, st') ->
  completed st' path ->
  path = OsPath.join (OsPath.dirname (input_filepath self))
           ((OsPath.splitext (OsPath.basename (input_filepath self))).1
            +:+ "_output" +:+ ".csv")
  /\ is_Some (fs st' !! path)
  /\ In (ToCsv path) (trace st')
  /\ (input_filepath self = "data/users.xlsx" -> path = "data/users_output.csv")
  /\ (forall dir stem ext,
        Str.endswith "/" dir = false ->
        Str.mem "/" stem = false ->
        Str.all_char "." stem = false ->
        Str.mem "/" ext = false ->
        Str.mem "." ext = false ->
        input_filepath self = dir +:+ "/" +:+ stem +:+ "." +:+ ext ->
        path = dir +:+ "/" +:+ stem +:+ "_output.csv")
  /\ (forall stem ext,
        Str.mem "/" stem = false ->
        Str.all_char "." stem = false ->
        Str.mem "/" ext = false ->
        Str.mem "." ext = false ->
        input_filepath self = stem +:+ "." +:+ ext ->
        path = stem +:+ "_output.csv").
Proof.
  intros Hrun Hdone.
  destruct (run_completed w self files r st' path Hrun Hdone)
    as (df & results & _ & _ & -> & _ & _ & Htrace & Hfs).
  split.
  { unfold output_filepath. by destruct (OsPath.splitext _). }
  split; [rewrite Hfs, lookup_insert_eq; by eexists |].
  split; [rewrite Htrace, !in_app_iff; right; right; by left |].
  split; [by intros -> |].
  split.
  - intros dir stem ext Hdir Hs Hdots He Hd ->. by apply output_filepath_split.
  - intros stem ext Hs Hdots He Hd ->. by apply output_filepath_plain.
Qed.

Lemma C8_output_path_derivation_witness :
  "data/users_output.csv"
  = OsPath.join (OsPath.dirname "data/users.xlsx")
      ((OsPath.splitext (OsPath.basename "data/users.xlsx")).1 +:+ "_output" +:+ ".csv")
  /\ is_Some (fs (run Demo.second_fails Demo.self (init ∅)).2 !! "data/users_output.csv")
  /\ In (ToCsv "data/users_output.csv") (trace (run Demo.second_fails Demo.self (init ∅)).2)
  /\ (input_filepath Demo.self = "data/users.xlsx" ->
      "data/users_output.csv" = "data/users_output.csv")
  /\ (forall dir stem ext,
        Str.endswith "/" dir = false ->
        Str.mem "/" stem = false ->
        Str.all_char "." stem = false ->
        Str.mem "/" ext = false ->
        Str.mem "." ext = false ->
        input_filepath Demo.self = dir +:+ "/" +:+ stem +:+ "." +:+ ext ->
        "data/users_output.csv" = dir +:+ "/" +:+ stem +:+ "_output.csv")
  /\ (forall stem ext,
        Str.mem "/" stem = false ->
        Str.all_char "." stem = false ->
        Str.mem "/" ext = false ->
        Str.mem "." ext = false ->
        input_filepath Demo.self = stem +:+ "." +:+ ext ->
        "data/users_output.csv" = stem +:+ "_output.csv").
Proof.
  apply (C8_output_path_derivation Demo.second_fails Demo.self ∅
           (run Demo.second_fails Demo.self (init ∅)).1).
  - apply surjective_pairing.
  - unfold completed. vm_compute. repeat (first [left; reflexivity | right]).
Defined.

(* ===================================================================== *)
(** ** Further properties of [run] *)
(* ===================================================================== *)

Lemma count_terminal_app tr1 tr2 :
  count_terminal (tr1 ++ tr2) = count_terminal tr1 + count_terminal tr2.
Proof. unfold count_terminal. by rewrite List.filter_app, length_app. Qed.

Lemma count_terminal_none tr :
  (forall ev, In ev tr -> is_terminal ev = false) -> count_terminal tr = 0.
Proof.
  unfold count_terminal. induction tr as [| ev tr IH]; intros H; [done |].
  simpl. rewrite (H ev) by by left. apply IH. intros ev' Hin. apply H. by right.
Qed.

Lemma loop_no_terminal w self n remaining index results :
  count_terminal (log (loop w self n remaining index results)) = 0.
Proof.
  apply count_terminal_none. intros ev Hin.
  apply loop_no_write in Hin as [Hw He]. unfold is_terminal. rewrite He.
  by destruct ev.
Qed.

(** A loop that returns did so right after the stop notice. *)
Lemma loop_return_last w self n remaining :
  forall index results,
    out (loop w self n remaining index results) = Return ->
    last (log (loop w self n remaining index results)) = Some (Progress stopped_msg).
Proof.
  induction remaining as [| row rest IH]; intros index results Hret; [done |].
  rewrite out_loop_cons in Hret. rewrite log_loop_cons.
  destruct (iteration_inv w self n index row results)
    as [(_ & Ho & Hl) | [(_ & _ & [e Ho] & _) | (fn & un & _ & _ & _ & Ho & Hl)]].
  - rewrite Ho, Hl. done.
  - rewrite Ho in Hret. discriminate.
  - destruct (out (iteration w self n index row results)) as [results1 | e |] eqn:Hit;
      try discriminate.
    + specialize (IH _ _ Hret). rewrite last_app. by rewrite IH.
    + by destruct (flatten _).
Qed.

(** What the lines before the loop add to the terminal signals. *)
Lemma setup_terminal w self :
  match out (setup w self) with
  | Return =>
      exists evs, log (setup w self) = evs ++ [ErrorSig (column_error_msg self)]
                  /\ count_terminal evs = 0
  | _ => count_terminal (log (setup w self)) = 0
  end.
Proof.
  assert (Hread : is_terminal (read_event self) = false).
  { unfold read_event. by destruct (Str.endswith _ _). }
  destruct (setup_cases w self)
    as [(e & _ & Ho & Hl) | [(e & _ & _ & Ho & Hl) | [(e & _ & _ & _ & Ho & Hl)
       | [(df & _ & _ & _ & _ & Ho & Hl) | (df & _ & _ & _ & _ & _ & Ho & Hl)]]]];
    rewrite Ho, Hl.
  - done.
  - done.
  - unfold count_terminal. simpl. by rewrite Hread.
  - eexists [_; _; _; _; _]. split; [reflexivity |].
    unfold count_terminal. simpl. by rewrite Hread.
  - unfold count_terminal. simpl. by rewrite Hread.
Qed.

(** X1. Every run ends for the caller in exactly one of two ways: either
    one terminal signal ([finished] or [error]) which is its last action,
    with no terminal signal before it, or, when it was stopped by the
    flag, no terminal signal at all, the stop notice being its last
    action. *)
Theorem X1_one_terminal_signal w self files :
  (exists evs t,
      trace (run w self (init files)).2 = evs ++ [t]
      /\ is_terminal t = true
      /\ count_terminal evs = 0)
  \/ (count_terminal (trace (run w self (init files)).2) = 0
      /\ last (trace (run w self (init files)).2) = Some (Progress stopped_msg)
      /\ (run w self (init files)).1 = Return).
Proof.
  rewrite run_eq. pose proof (setup_terminal w self) as Hs.
  destruct (out (setup w self)) as [df | e |].
  - cbv zeta.
    pose proof (loop_no_terminal w self (length (rows df)) (rows df) 0 []) as Hl.
    set (body := loop w self (length (rows df)) (rows df) 0 []) in *.
    set (path := output_filepath (input_filepath self)).
    destruct (out body) as [results | e |] eqn:Hloop.
    + destruct (to_csv w _ _) as [[e remains] |]; left; simpl.
      * exists (log (setup w self) ++ log body ++ [ToCsv path]), (ErrorSig (critical_msg e)).
        split; [by rewrite <- !app_assoc |]. split; [done |].
        by rewrite !count_terminal_app, Hs, Hl.
      * exists (log (setup w self) ++ log body ++ [ToCsv path]), (Finished path).
        split; [by rewrite <- !app_assoc |]. split; [done |].
        by rewrite !count_terminal_app, Hs, Hl.
    + left. simpl. exists (log (setup w self) ++ log body), (ErrorSig (critical_msg e)).
      split; [by rewrite <- !app_assoc |]. split; [done |].
      by rewrite !count_terminal_app, Hs, Hl.
    + right. simpl. rewrite count_terminal_app, Hs, Hl. split; [done |]. split; [| done].
      apply loop_return_last in Hloop. rewrite last_app. unfold body. by rewrite Hloop.
  - left. simpl. exists (log (setup w self)), (ErrorSig (critical_msg e)). done.
  - left. simpl. destruct Hs as (evs & -> & Hz).
    exists evs, (ErrorSig (column_error_msg self)). done.
Qed.

(** X2. The only file a run ever touches is its output path, and it
    touches it only through the call of [to_csv] at line 105: every other
    path holds after the run what it held before, and a run that never
    reaches that call leaves the whole disk as it was. *)
Theorem X2_disk_changes_only_through_to_csv w self files :
  (forall p, p <> output_filepath (input_filepath self) ->
             fs (run w self (init files)).2 !! p = files !! p)
  /\ ((forall path, ~ In (ToCsv path) (trace (run w self (init files)).2)) ->
      fs (run w self (init files)).2 = files).
Proof.
  rewrite run_eq.
  destruct (out (setup w self)) as [df | e |]; [| done | done].
  cbv zeta.
  destruct (out (loop w self (length (rows df)) (rows df) 0 [])) as [results | e |];
    [| done | done].
  destruct (to_csv w _ _) as [[e [partial |]] |]; simpl; split;
    try (intros p Hp; by rewrite ?lookup_insert_ne);
    intros Hnot; exfalso; apply (Hnot (output_filepath (input_filepath self)));
    rewrite !in_app_iff; right; right; by left.
Qed.


Lemma filter_none {A : Type} (f : A -> bool) (l : list A) :
  (forall x, In x l -> f x = false) -> List.filter f l = [].
Proof.
  induction l as [| x l IH]; intros H; [done |].
  simpl. rewrite (H x) by by left. apply IH. intros y Hy. apply H. by right.
Qed.

(** Before the loop there is no request and no pause. *)
Lemma setup_counts w self :
  requests (log (setup w self)) = []
  /\ count_pauses (log (setup w self)) = 0.
Proof.
  split.
  - apply filter_none. intros ev Hin. by apply setup_events in Hin as [H _].
  - unfold count_pauses. rewrite filter_none; [done |].
    intros ev Hin.
    assert (Hread : is_pause (read_event self) = false).
    { unfold read_event. by destruct (Str.endswith _ _). }
    destruct (setup_cases w self)
      as [(e & _ & _ & Hl) | [(e & _ & _ & _ & Hl) | [(e & _ & _ & _ & _ & Hl)
         | [(df & _ & _ & _ & _ & _ & Hl) | (df & _ & _ & _ & _ & _ & _ & Hl)]]]];
      rewrite Hl in Hin; simpl in Hin;
      repeat (destruct Hin as [<- | Hin]; [done |]); destruct Hin.
Qed.

(** Every JSON value other than an object makes [flatten] raise. *)
Lemma flatten_non_dict v :
  (forall d, v <> PyDict d) -> exists e, flatten v = inl e.
Proof.
  intros Hv. destruct (flatten v) as [e | fl] eqn:Hfl; [by exists e |].
  apply flatten_inr in Hfl as [d ->]. by destruct (Hv d).
Qed.

(** The requests of one iteration: the request of its row if the flag is
    set and the row has both cells, none otherwise. *)
Lemma iteration_request_list w self n index row results :
  requests (log (iteration w self n index row results))
  = if is_running w index
    then match row_prompt self row with
         | Some prompt => [GenerateContent index prompt]
         | None => []
         end
    else [].
Proof.
  destruct (iteration_inv w self n index row results)
    as [(Hrun & _ & Hl) | [(Hrun & Hp & _ & Hl) | (fn & un & Hrun & Hf & Hu & _ & Hl)]];
    rewrite Hl, Hrun.
  - done.
  - by rewrite Hp.
  - unfold row_prompt. rewrite Hf, Hu, log_infer. unfold requests. simpl.
    rewrite List.filter_app.
    destruct (inference_failure _ _ _); destruct (flatten _); done.
Qed.

(** The [j]-th request of the loop is the request of its [j]-th row. *)
Lemma loop_request_order w self n remaining :
  forall index results j ev,
    requests (log (loop w self n remaining index results)) !! j = Some ev ->
    exists row prompt,
      remaining !! j = Some row
      /\ row_prompt self row = Some prompt
      /\ ev = GenerateContent (index + j) prompt.
Proof.
  induction remaining as [| row rest IH]; intros index results j ev Hj; [done |].
  rewrite log_loop_cons in Hj. unfold requests in Hj. rewrite List.filter_app in Hj.
  fold (requests (log (iteration w self n index row results))) in Hj.
  rewrite iteration_request_list in Hj.
  destruct (out (iteration w self n index row results)) as [results1 | e |] eqn:Hit.
  - apply iteration_val in Hit as (Hrun & prompt & fl & Hp & _ & _).
    rewrite Hrun, Hp in Hj. destruct j as [| j].
    + injection Hj as <-. exists row, prompt. by rewrite Nat.add_0_r.
    + simpl in Hj. apply IH in Hj as (row' & prompt' & Hrow & Hp' & ->).
      exists row', prompt'. replace (index + S j) with (S index + j) by lia. done.
  - simpl in Hj. rewrite app_nil_r in Hj.
    destruct (is_running w index); [| done].
    destruct (row_prompt self row) as [prompt |] eqn:Hp; [| done].
    destruct j as [| j]; [| done]. injection Hj as <-.
    exists row, prompt. by rewrite Nat.add_0_r.
  - simpl in Hj. rewrite app_nil_r in Hj.
    destruct (is_running w index); [| done].
    destruct (row_prompt self row) as [prompt |] eqn:Hp; [| done].
    destruct j as [| j]; [| done]. injection Hj as <-.
    exists row, prompt. by rewrite Nat.add_0_r.
Qed.

(** The requests of a run are those of its loop. *)
Lemma run_request_list w self files :
  requests (trace (run w self (init files)).2)
  = match out (setup w self) with
    | Val df => requests (log (loop w self (length (rows df)) (rows df) 0 []))
    | _ => []
    end.
Proof.
  rewrite run_eq. destruct (setup_counts w self) as [Hs _].
  destruct (out (setup w self)) as [df | e |].
  - cbv zeta.
    destruct (out (loop w self (length (rows df)) (rows df) 0 [])) as [results | e |].
    + destruct (to_csv w _ _) as [[e remains] |]; simpl; unfold requests in *;
        rewrite !List.filter_app, Hs; simpl; by rewrite app_nil_r.
    + simpl. unfold requests in *. rewrite !List.filter_app, Hs. simpl.
      by rewrite app_nil_r.
    + simpl. unfold requests in *. by rewrite !List.filter_app, Hs.
  - simpl. unfold requests in *. by rewrite List.filter_app, Hs.
  - simpl. done.
Qed.

(** X3. Rows are processed strictly in file order, none skipped and none
    repeated: in every run, the [j]-th request made is the request for the
    row at position [j] of the loaded table, with the prompt built from
    that row. *)
Theorem X3_requests_in_row_order w self files j ev :
  requests (trace (run w self (init files)).2) !! j = Some ev ->
  exists df row prompt,
    input_table w self = inr df
    /\ rows df !! j = Some row
    /\ row_prompt self row = Some prompt
    /\ ev = GenerateContent j prompt.
Proof.
  rewrite run_request_list.
  destruct (out (setup w self)) as [df | e |] eqn:Hsetup; [| done | done].
  intros Hj. apply loop_request_order in Hj as (row & prompt & Hrow & Hp & ->).
  destruct (setup_val w self df Hsetup) as (_ & _ & Ht & _).
  by exists df, row, prompt.
Qed.

Lemma X3_requests_in_row_order_witness :
  exists df row prompt,
    input_table Demo.second_fails Demo.self = inr df
    /\ rows df !! 2 = Some row
    /\ row_prompt Demo.self row = Some prompt
    /\ GenerateContent 2 (make_prompt (CStr "Grace Hopper") (CStr "grace"))
       = GenerateContent 2 prompt.
Proof.
  apply (X3_requests_in_row_order Demo.second_fails Demo.self ∅ 2).
  vm_compute. reflexivity.
Defined.


Lemma not_completed_of_trace (tr : list event) files :
  (forall ev, In ev tr -> is_finished ev = false) ->
  forall path, ~ completed {| trace := tr; fs := files |} path.
Proof. intros H path Hin. by apply H in Hin. Qed.

Lemma setup_val_no_finished w self ev :
  In ev (log (setup w self)) -> is_finished ev = false.
Proof. intros Hin. apply setup_events in Hin as [_ Hw]. by destruct ev. Qed.

Lemma loop_no_finished w self n remaining index results ev :
  In ev (log (loop w self n remaining index results)) -> is_finished ev = false.
Proof. intros Hin. apply loop_no_write in Hin as [Hw _]. by destruct ev. Qed.

(** X4. A row whose answer parses to valid JSON that is not an object
    (an array, a string, a number, [true], [false] or [null]) is not a
    row-level failure: [flatten] raises outside the inner handler and the
    whole run ends with the critical error signal. The request for that
    row was made, its pause was not, the rows after it are never
    requested, and nothing is written. *)
Theorem X4_non_object_answer_aborts_run
    w self files df pre row post results prompt text v :
  out (setup w self) = Val df ->
  rows df = pre ++ row :: post ->
  out (loop w self (length (rows df)) pre 0 []) = Val results ->
  is_running w (length pre) = true ->
  row_prompt self row = Some prompt ->
  generate_content w (length pre) prompt = inr text ->
  json_loads w (clean_response text) = inr v ->
  (forall d, v <> PyDict d) ->
  exists e,
    flatten v = inl e
    /\ (run w self (init files)).1 = Val tt
    /\ last (trace (run w self (init files)).2) = Some (ErrorSig (critical_msg e))
    /\ count_requests (trace (run w self (init files)).2) = S (length pre)
    /\ count_pauses (trace (run w self (init files)).2) = length pre
    /\ (forall path, ~ completed (run w self (init files)).2 path)
    /\ fs (run w self (init files)).2 = files.
Proof.
  intros Hsetup Hrows Hpre Hrun Hp Hgen Hparse Hv.
  destruct (flatten_non_dict v Hv) as [e He]. exists e. split; [done |].
  assert (insights_of w (length pre) prompt = v) as Hins
      by (unfold insights_of; by rewrite Hgen, Hparse).
  assert (inference_failure w (length pre) prompt = None) as Hnof
      by (unfold inference_failure; by rewrite Hgen, Hparse).
  unfold row_prompt in Hp.
  destruct (row !! fullname_col self) as [fn |] eqn:Hf; [| done].
  destruct (row !! username_col self) as [un |] eqn:Hu; [| done].
  injection Hp as Hp.
  destruct (iteration_running w self (length (rows df)) (length pre) row results fn un
              Hrun Hf Hu) as [Hio Hil].
  rewrite Hp, Hins, He in Hio, Hil. rewrite log_infer, Hnof in Hil.
  destruct (loop_app w self (length (rows df)) pre (row :: post) 0 []) as [Ho Hl].
  rewrite <- Hrows in Ho, Hl. rewrite Hpre in Ho, Hl. simpl plus in Ho, Hl.
  rewrite out_loop_cons, Hio in Ho. rewrite log_loop_cons, Hio, Hil in Hl.
  destruct (loop_counts w self _ _ _ _ _ Hpre) as [Hcr Hcp].
  destruct (setup_counts w self) as [Hsr Hsp].
  rewrite run_eq, Hsetup. cbv zeta. rewrite Ho.
  split; [done |]. simpl.
  split; [by rewrite !app_assoc, last_snoc |].
  split.
  { rewrite !count_requests_app, Hl, !count_requests_app, Hcr.
    unfold count_requests at 1. fold (requests (log (setup w self))). rewrite Hsr.
    unfold count_requests. simpl. lia. }
  split.
  { rewrite !count_pauses_app, Hl, !count_pauses_app, Hcp, Hsp.
    unfold count_pauses. simpl. lia. }
  split; [| done].
  apply not_completed_of_trace. intros ev Hin. simpl in Hin.
  apply in_app_or in Hin as [Hin | Hin]; [by apply setup_val_no_finished in Hin |].
  apply in_app_or in Hin as [Hin | Hin]; [by apply loop_no_finished in Hin |].
  by destruct Hin as [<- | []].
Qed.

Lemma X4_non_object_answer_aborts_run_witness :
  exists e,
    flatten (PyList []) = inl e
    /\ (run Cases.second_is_array Demo.self (init ∅)).1 = Val tt
    /\ last (trace (run Cases.second_is_array Demo.self (init ∅)).2)
       = Some (ErrorSig (critical_msg e))
    /\ count_requests (trace (run Cases.second_is_array Demo.self (init ∅)).2) = 2
    /\ count_pauses (trace (run Cases.second_is_array Demo.self (init ∅)).2) = 1
    /\ (forall path, ~ completed (run Cases.second_is_array Demo.self (init ∅)).2 path)
    /\ fs (run Cases.second_is_array Demo.self (init ∅)).2 = ∅.
Proof.
  apply (X4_non_object_answer_aborts_run Cases.second_is_array Demo.self ∅ Demo.table
           [ {[ "Full Name" := CStr "Ada Lovelace"; "Username" := CStr "ada" ]} ]
           {[ "Full Name" := NaN; "Username" := CStr "bob_42" ]}
           [ {[ "Full Name" := CStr "Grace Hopper"; "Username" := CStr "grace" ]} ]
           [ {[ "error" := PyStr "timeout" ]} ]
           (make_prompt (CStr "") (CStr "bob_42")) "[]" (PyList [])).
  - vm_compute. reflexivity.
  - reflexivity.
  - vm_compute. reflexivity.
  - reflexivity.
  - vm_compute. reflexivity.
  - reflexivity.
  - vm_compute. reflexivity.
  - intros d. discriminate.
Defined.

(** X5. If the final write raises, the run ends with the critical error
    signal after every row was requested and [finished] is not emitted.
    No other path is changed, and the output path holds what the failed
    call left there: what it held before if the call raised before it
    opened the file, a new or truncated file otherwise. *)
Theorem X5_write_failure_is_fatal w self files df results e remains :
  out (setup w self) = Val df ->
  out (loop w self (length (rows df)) (rows df) 0 []) = Val results ->
  to_csv w (output_filepath (input_filepath self)) (concat_axis1 (rows df) results)
  = Some (e, remains) ->
  (run w self (init files)).1 = Val tt
  /\ last (trace (run w self (init files)).2) = Some (ErrorSig (critical_msg e))
  /\ In (ToCsv (output_filepath (input_filepath self))) (trace (run w self (init files)).2)
  /\ count_requests (trace (run w self (init files)).2) = length (rows df)
  /\ (forall path, ~ completed (run w self (init files)).2 path)
  /\ (forall p, p <> output_filepath (input_filepath self) ->
                fs (run w self (init files)).2 !! p = files !! p)
  /\ fs (run w self (init files)).2 !! output_filepath (input_filepath self)
     = match remains with
       | Some partial => Some partial
       | None => files !! output_filepath (input_filepath self)
       end.
Proof.
  intros Hsetup Hloop Hwrite.
  destruct (loop_counts w self _ _ _ _ _ Hloop) as [Hcr _].
  destruct (setup_counts w self) as [Hsr _].
  rewrite run_eq, Hsetup. cbv zeta. rewrite Hloop, Hwrite.
  split; [done |]. simpl.
  split.
  { replace (log (setup w self)
             ++ log (loop w self (length (rows df)) (rows df) 0 [])
             ++ [ToCsv (output_filepath (input_filepath self)); ErrorSig (critical_msg e)])
      with ((log (setup w self)
             ++ log (loop w self (length (rows df)) (rows df) 0 [])
             ++ [ToCsv (output_filepath (input_filepath self))])
            ++ [ErrorSig (critical_msg e)])
      by (by rewrite <- !app_assoc).
    apply last_snoc. }
  split; [rewrite !in_app_iff; right; right; by left |].
  split.
  { rewrite !count_requests_app, Hcr.
    unfold count_requests at 1. fold (requests (log (setup w self))). rewrite Hsr.
    unfold count_requests. simpl. lia. }
  split.
  { apply not_completed_of_trace. intros ev Hin. simpl in Hin.
    apply in_app_or in Hin as [Hin | Hin]; [by apply setup_val_no_finished in Hin |].
    apply in_app_or in Hin as [Hin | Hin]; [by apply loop_no_finished in Hin |].
    by destruct Hin as [<- | [<- | []]]. }
  destruct remains as [partial |]; split; try done.
  - intros p Hp. by rewrite lookup_insert_ne.
  - apply lookup_insert_eq.
Qed.

Lemma X5_write_failure_is_fatal_witness :
  (run Cases.disk_full Demo.self (init ∅)).1 = Val tt
  /\ last (trace (run Cases.disk_full Demo.self (init ∅)).2)
     = Some (ErrorSig (critical_msg "No space left on device"))
  /\ In (ToCsv (output_filepath "data/users.xlsx"))
        (trace (run Cases.disk_full Demo.self (init ∅)).2)
  /\ count_requests (trace (run Cases.disk_full Demo.self (init ∅)).2) = 3
  /\ (forall path, ~ completed (run Cases.disk_full Demo.self (init ∅)).2 path)
  /\ (forall p, p <> output_filepath "data/users.xlsx" ->
                fs (run Cases.disk_full Demo.self (init ∅)).2 !! p
                = (∅ : gmap string final_frame) !! p)
  /\ fs (run Cases.disk_full Demo.self (init ∅)).2 !! output_filepath "data/users.xlsx"
     = Some [].
Proof.
  apply (X5_write_failure_is_fatal Cases.disk_full Demo.self ∅ Demo.table
           [ {[ "error" := PyStr "timeout" ]}; {[ "error" := PyStr "timeout" ]};
             {[ "error" := PyStr "timeout" ]} ]
           "No space left on device" (Some [])).
  - vm_compute. reflexivity.
  - vm_compute. reflexivity.
  - vm_compute. reflexivity.
Defined.

(** X6. If reading the input file raises, the run ends with the critical
    error signal right after the read: the reader chosen by the extension
    was called once, no request was made and nothing is written. *)
Theorem X6_load_failure_is_fatal w self files e :
  configure w (api_key self) = None ->
  GenerativeModel w model_name = None ->
  input_table w self = inl e ->
  run w self (init files)
  = (Val tt,
     {| trace := [Configure (api_key self); NewModel model_name;
                  Progress configured_msg; read_event self;
                  ErrorSig (critical_msg e)];
        fs := files |}).
Proof.
  intros Hc Hm Ht. rewrite run_eq.
  destruct (setup_cases w self)
    as [(e' & Hc' & _) | [(e' & _ & Hm' & _) | [(e' & _ & _ & Ht' & Ho & Hl)
       | [(df' & _ & _ & Ht' & _) | (df' & _ & _ & Ht' & _)]]]];
    try congruence.
  rewrite Ho, Hl. assert (e' = e) as -> by congruence. done.
Qed.

Lemma X6_load_failure_is_fatal_witness :
  run Cases.unreadable Demo.self (init ∅)
  = (Val tt,
     {| trace := [Configure "k"; NewModel model_name;
                  Progress configured_msg; read_event Demo.self;
                  ErrorSig (critical_msg "No such file or directory")];
        fs := ∅ |}).
Proof.
  apply (X6_load_failure_is_fatal Cases.unreadable Demo.self ∅); reflexivity.
Defined.

(** X7. A table with a header and no row: the loop body never runs, so
    the flag is never read and no request is made; the run completes and
    writes an empty table at the output path, whatever the flag says. *)
Theorem X7_empty_table_completes w self files df :
  out (setup w self) = Val df ->
  rows df = [] ->
  to_csv w (output_filepath (input_filepath self)) [] = None ->
  run w self (init files)
  = (Val tt,
     {| trace := [Configure (api_key self); NewModel model_name;
                  Progress configured_msg; read_event self;
                  Progress (loaded_msg self); Progress (found_msg df);
                  ToCsv (output_filepath (input_filepath self));
                  Finished (output_filepath (input_filepath self))];
        fs := <[output_filepath (input_filepath self) := []]> files |}).
Proof.
  intros Hsetup Hrows Hwrite.
  destruct (setup_val w self df Hsetup) as (_ & _ & _ & _ & _ & Hl).
  rewrite run_eq, Hsetup. cbv zeta. rewrite Hrows. simpl loop.
  change (out (ret [])) with (@Val (list (gmap string pyval)) []).
  cbv iota. simpl concat_axis1. rewrite Hwrite, Hl. done.
Qed.

Lemma X7_empty_table_completes_witness :
  run Cases.no_rows Demo.self (init ∅)
  = (Val tt,
     {| trace := [Configure "k"; NewModel model_name;
                  Progress configured_msg; read_event Demo.self;
                  Progress (loaded_msg Demo.self); Progress (found_msg Cases.empty_table);
                  ToCsv (output_filepath "data/users.xlsx");
                  Finished (output_filepath "data/users.xlsx")];
        fs := <[output_filepath "data/users.xlsx" := []]> ∅ |}).
Proof.
  apply (X7_empty_table_completes Cases.no_rows Demo.self ∅ Cases.empty_table).
  - vm_compute. reflexivity.
  - reflexivity.
  - reflexivity.
Defined.


(* ===================================================================== *)
(** ** Further properties of the output path *)
(* ===================================================================== *)

Lemma endswith_refl s : Str.endswith s s = true.
Proof. destruct s; simpl; [done |]. by rewrite Ascii.eqb_refl, String.eqb_refl. Qed.

Lemma endswith_app_r suf a b :
  Str.endswith suf b = true -> Str.endswith suf (a +:+ b) = true.
Proof.
  intros H. induction a as [| c a IH]; [done |].
  change (String c a +:+ b) with (String c (a +:+ b)). cbn [Str.endswith].
  rewrite IH. apply orb_true_r.
Qed.

Lemma endswith_split suf s :
  Str.endswith suf s = true -> exists a, s = a +:+ suf.
Proof.
  induction s as [| c s IH]; cbn [Str.endswith]; intros H.
  - rewrite orb_false_r in H. apply String.eqb_eq in H as ->. by exists "".
  - apply orb_true_iff in H as [H | H].
    + apply String.eqb_eq in H as ->. by exists "".
    + destruct (IH H) as [a ->]. by exists (String c a).
Qed.

Lemma string_app_nil_r s : s +:+ "" = s.
Proof. induction s as [| c s IH]; [done |]. exact (f_equal (String c) IH). Qed.

Lemma take_drop n s : Str.take n s +:+ Str.drop n s = s.
Proof.
  revert s. induction n as [| n IH]; intros [| c s]; try done.
  exact (f_equal (String c) (IH s)).
Qed.

Lemma mem_take c n s : Str.mem c s = false -> Str.mem c (Str.take n s) = false.
Proof.
  revert s. induction n as [| n IH]; intros [| a s]; simpl; try done.
  intros H. apply orb_false_iff in H as [Ha Hs]. by rewrite Ha, IH.
Qed.

(** [rfind] is [-1] or an index of the string. *)
Lemma rfind_range c s : (-1 <= Str.rfind c s < Z.of_nat (String.length s))%Z.
Proof.
  induction s as [| a s IH]; [simpl; lia |].
  cbn [Str.rfind String.length].
  destruct (0 <=? Str.rfind c s)%Z eqn:Hr.
  - apply Z.leb_le in Hr. lia.
  - destruct (Ascii.eqb a c); lia.
Qed.

Lemma rfind_neg_mem c s : (Str.rfind c s < 0)%Z -> Str.mem c s = false.
Proof.
  induction s as [| a s IH]; [done |].
  cbn [Str.rfind Str.mem]. pose proof (rfind_range c s) as Hrange.
  destruct (0 <=? Str.rfind c s)%Z eqn:Hr.
  - apply Z.leb_le in Hr. lia.
  - apply Z.leb_gt in Hr. destruct (Ascii.eqb a c); [lia |]. intros _. by apply IH.
Qed.

(** What follows the last occurrence of [c] holds no [c]. *)
Lemma drop_rfind_mem c s :
  Str.mem c (Str.drop (Z.to_nat (Str.rfind c s + 1)) s) = false.
Proof.
  induction s as [| a s IH]; [done |].
  cbn [Str.rfind]. pose proof (rfind_range c s) as Hrange.
  destruct (0 <=? Str.rfind c s)%Z eqn:Hr.
  - apply Z.leb_le in Hr.
    replace (Z.to_nat (Str.rfind c s + 1 + 1)) with (S (Z.to_nat (Str.rfind c s + 1))) by lia.
    cbn [Str.drop]. apply IH.
  - apply Z.leb_gt in Hr. pose proof (rfind_neg_mem c s Hr) as Hmem.
    destruct (Ascii.eqb a c) eqn:Ha.
    + simpl. done.
    + simpl. by rewrite Ha.
Qed.

(** At the index [rfind] gives there is a [c]. *)
Lemma drop_rfind_head c s :
  (0 <= Str.rfind c s)%Z ->
  exists t, Str.drop (Z.to_nat (Str.rfind c s)) s = String c t.
Proof.
  induction s as [| a s IH]; [simpl; lia |].
  cbn [Str.rfind].
  destruct (0 <=? Str.rfind c s)%Z eqn:Hr.
  - apply Z.leb_le in Hr. intros _.
    replace (Z.to_nat (Str.rfind c s + 1)) with (S (Z.to_nat (Str.rfind c s))) by lia.
    cbn [Str.drop]. by apply IH.
  - destruct (Ascii.eqb a c) eqn:Ha; [| lia].
    intros _. apply Ascii.eqb_eq in Ha as ->. by exists s.
Qed.

Lemma basename_no_sep p : Str.mem "/" (OsPath.basename p) = false.
Proof. unfold OsPath.basename, OsPath.sep. apply drop_rfind_mem. Qed.

(** The two parts [splitext] returns make up the name again; the
    extension is empty or starts with the dot. *)
Lemma splitext_parts base :
  Str.mem "/" base = false ->
  base = (OsPath.splitext base).1 +:+ (OsPath.splitext base).2
  /\ Str.mem "/" (OsPath.splitext base).1 = false
  /\ ((OsPath.splitext base).2 = "" \/ exists t, (OsPath.splitext base).2 = String "." t).
Proof.
  intros Hbase. unfold OsPath.splitext.
  destruct (_ && _) eqn:Hcond; simpl.
  - split; [by rewrite take_drop |]. split; [by apply mem_take |].
    right. apply andb_true_iff in Hcond as [Hlt _]. apply Z.ltb_lt in Hlt.
    pose proof (rfind_range OsPath.sep base). unfold OsPath.sep, OsPath.extsep in *.
    apply drop_rfind_head. lia.
  - split; [by rewrite string_app_nil_r | by auto].
Qed.

Lemma basename_join a b :
  Str.mem "/" b = false -> OsPath.basename (OsPath.join a b) = b.
Proof.
  intros Hb. unfold OsPath.join.
  destruct (Str.startswith _ b); [by apply basename_plain |].
  destruct (String.eqb a "") eqn:Ha.
  - apply String.eqb_eq in Ha as ->. by apply basename_plain.
  - cbn [orb]. destruct (Str.endswith _ a) eqn:He.
    + apply endswith_split in He as [a' ->].
      assert ((a' +:+ String OsPath.sep "") +:+ b = a' +:+ String "/" b) as ->.
      { clear. induction a' as [| c a' IH]; [done |]. exact (f_equal (String c) IH). }
      by apply basename_split.
    + by apply basename_split.
Qed.

(** X8. Whatever the input path, the output path ends in [_output.csv]. *)
Theorem X8_output_path_suffix input_path :
  Str.endswith "_output.csv" (output_filepath input_path) = true.
Proof.
  unfold output_filepath. destruct (OsPath.splitext _) as [file_name file_ext].
  assert (Str.endswith "_output.csv" (file_name +:+ "_output.csv") = true) as Hb
      by (apply endswith_app_r; apply endswith_refl).
  unfold OsPath.join.
  destruct (Str.startswith _ _); [done |].
  destruct (_ || _); by repeat apply endswith_app_r.
Qed.

(** X9. The output path is never the input path: its last component is
    the stem of the input's last component followed by [_output.csv],
    while the input's is that stem followed by an extension that is empty
    or starts with a dot. A run therefore never overwrites the file it
    read. *)
Theorem X9_output_path_differs_from_input input_path :
  OsPath.basename (output_filepath input_path)
  = (OsPath.splitext (OsPath.basename input_path)).1 +:+ "_output.csv"
  /\ output_filepath input_path <> input_path.
Proof.
  pose proof (basename_no_sep input_path) as Hbase.
  destruct (splitext_parts _ Hbase) as (Hparts & Hstem & Hext).
  assert (OsPath.basename (output_filepath input_path)
          = (OsPath.splitext (OsPath.basename input_path)).1 +:+ "_output.csv") as Hout.
  { unfold output_filepath.
    destruct (OsPath.splitext (OsPath.basename input_path)) as [file_name file_ext].
    simpl in *. apply basename_join. rewrite mem_app, Hstem. done. }
  split; [done |]. intros Heq.
  rewrite Heq in Hout. rewrite Hparts in Hout at 1.
  apply String.app_inj in Hout.
  destruct Hext as [Hext | [t Hext]]; rewrite Hext in Hout; discriminate.
Qed.


(* ===================================================================== *)
(** ** Cleaning the response text *)
(* ===================================================================== *)

Lemma prefix_app a s : String.prefix a (a +:+ s) = true.
Proof.
  induction a as [| c a IH]; [by destruct s |].
  change (String c a +:+ s) with (String c (a +:+ s)). cbn [String.prefix].
  by destruct (ascii_dec c c).
Qed.

Lemma prefix_head_ne c old x s : x <> c -> String.prefix (String c old) (String x s) = false.
Proof. intros H. cbn [String.prefix]. by destruct (ascii_dec c x) as [-> |]. Qed.

(** Characters still to be skipped are dropped. *)
Lemma replace_go_skip old new k :
  forall s, Str.replace_go old new k s = Str.replace_go old new 0 (Str.drop k s).
Proof.
  induction k as [| k IH]; intros [| c s]; try done. cbn [Str.replace_go Str.drop]. apply IH.
Qed.

(** [replace] at an occurrence of [old]. *)
Lemma replace_match c old new s :
  Str.replace (String c old) new (String c old +:+ s)
  = new +:+ Str.replace (String c old) new s.
Proof.
  unfold Str.replace.
  change (String c old +:+ s) with (String c (old +:+ s)).
  cbn [Str.replace_go].
  change (String c (old +:+ s)) with (String c old +:+ s). rewrite prefix_app.
  cbn [String.length Nat.pred]. by rewrite replace_go_skip, drop_app.
Qed.

(** [replace] copies a stretch that does not hold the first character of
    [old]. *)
Lemma replace_no_first c old new a s :
  Str.mem c a = false ->
  Str.replace (String c old) new (a +:+ s) = a +:+ Str.replace (String c old) new s.
Proof.
  unfold Str.replace. induction a as [| x a IH]; [done |].
  cbn [Str.mem]. intros H. apply orb_false_iff in H as [Hx Ha].
  change (String x a +:+ s) with (String x (a +:+ s)).
  cbn [Str.replace_go]. rewrite prefix_head_ne.
  - rewrite (IH Ha). done.
  - intros ->. by rewrite Ascii.eqb_refl in Hx.
Qed.

Lemma replace_absent c old new a :
  Str.mem c a = false -> Str.replace (String c old) new a = a.
Proof.
  intros H. rewrite <- (string_app_nil_r a) at 1.
  rewrite replace_no_first by done. unfold Str.replace. simpl. apply string_app_nil_r.
Qed.

Lemma all_space_no_backtick ws : all_space ws = true -> Str.mem "`" ws = false.
Proof.
  induction ws as [| c ws IH]; [done |]. cbn [all_space Str.mem]. intros H.
  apply andb_true_iff in H as [Hc Hws]. rewrite (IH Hws).
  destruct (Ascii.eqb c "`") eqn:Heq; [| done].
  apply Ascii.eqb_eq in Heq as ->. discriminate.
Qed.

Lemma all_space_app a b : all_space (a +:+ b) = all_space a && all_space b.
Proof.
  induction a as [| c a IH]; [done |].
  change (String c a +:+ b) with (String c (a +:+ b)). cbn [all_space].
  by rewrite IH, andb_assoc.
Qed.

(** The closing fence is not an occurrence of the opening one. *)
Lemma replace_json_closing ws :
  all_space ws = true ->
  Str.replace "```json" "" ("```" +:+ ws) = "```" +:+ ws.
Proof.
  intros Hws. pose proof (all_space_no_backtick ws Hws) as Hno.
  assert (Str.replace "```json" "" ws = ws) as Hrest by by apply replace_absent.
  unfold Str.replace in *. destruct ws as [| x ws].
  - reflexivity.
  - cbn [all_space] in Hws. apply andb_true_iff in Hws as [Hx _].
    assert (x <> "j"%char) as Hj by (intros ->; discriminate).
    assert (x <> "`"%char) as Hb by (intros ->; discriminate).
    change ("```" +:+ String x ws)
      with (String "`" (String "`" (String "`" (String x ws)))).
    cbn [Str.replace_go String.prefix].
    destruct (ascii_dec "`" "`") as [_ | Hne]; [| done].
    destruct (ascii_dec "j" x) as [<- | _]; [done |].
    destruct (ascii_dec "`" x) as [<- | _]; [done |].
    cbn [Str.replace_go String.prefix] in Hrest.
    destruct (ascii_dec "`" x) as [<- | _]; [done |].
    by rewrite Hrest.
Qed.

(** Stripping: white space at either end goes, and nothing else. *)
Lemma lstrip_all_space ws : all_space ws = true -> Str.lstrip_by Str.isspace ws = "".
Proof.
  induction ws as [| c ws IH]; [done |]. cbn [all_space Str.lstrip_by]. intros H.
  apply andb_true_iff in H as [-> Hws]. by apply IH.
Qed.

Lemma lstrip_app a b :
  Str.lstrip_by Str.isspace (a +:+ b)
  = if all_space a then Str.lstrip_by Str.isspace b else Str.lstrip_by Str.isspace a +:+ b.
Proof.
  induction a as [| c a IH]; [done |].
  change (String c a +:+ b) with (String c (a +:+ b)). cbn [all_space Str.lstrip_by].
  destruct (Str.isspace c); [apply IH | done].
Qed.

Lemma rstrip_all_space ws : all_space ws = true -> Str.rstrip_by Str.isspace ws = "".
Proof.
  induction ws as [| c ws IH]; [done |]. cbn [all_space Str.rstrip_by]. intros H.
  apply andb_true_iff in H as [-> Hws]. by rewrite (IH Hws).
Qed.

Lemma rstrip_app_space a ws :
  all_space ws = true ->
  Str.rstrip_by Str.isspace (a +:+ ws) = Str.rstrip_by Str.isspace a.
Proof.
  intros Hws. induction a as [| c a IH].
  - simpl. by apply rstrip_all_space.
  - change (String c a +:+ ws) with (String c (a +:+ ws)). cbn [Str.rstrip_by].
    by rewrite IH.
Qed.

Lemma strip_padded ws1 body ws2 :
  all_space ws1 = true -> all_space ws2 = true ->
  Str.strip (ws1 +:+ body +:+ ws2) = Str.strip body.
Proof.
  intros H1 H2. unfold Str.strip. rewrite lstrip_app, H1, lstrip_app.
  destruct (all_space body) eqn:Hb.
  - by rewrite (lstrip_all_space ws2 H2), (lstrip_all_space body Hb).
  - by apply rstrip_app_space.
Qed.

(** X10. A text without a backtick is only stripped of the white space
    around it: nothing inside it is changed. *)
Theorem X10_clean_plain_text text :
  Str.mem "`" text = false ->
  clean_response text = Str.strip text.
Proof.
  intros H. unfold clean_response.
  rewrite (replace_absent "`" "``json" "" text H). by rewrite (replace_absent "`" "``" "" text H).
Qed.

Lemma X10_clean_plain_text_witness :
  clean_response (Str.q " {^a^: 1}| ") = Str.strip (Str.q " {^a^: 1}| ").
Proof. apply X10_clean_plain_text. reflexivity. Defined.

(** X11. A JSON body wrapped in a [```json] fence comes back as the body
    alone: for a body without a backtick, an opening [```json], a closing
    [```], and white space before, between and after them, the cleaned
    text is the stripped body. *)
Theorem X11_clean_fenced_json ws0 ws1 body ws2 ws3 :
  all_space ws0 = true ->
  all_space ws1 = true ->
  all_space ws2 = true ->
  all_space ws3 = true ->
  Str.mem "`" body = false ->
  clean_response (ws0 +:+ "```json" +:+ ws1 +:+ body +:+ ws2 +:+ "```" +:+ ws3)
  = Str.strip body.
Proof.
  intros H0 H1 H2 H3 Hbody. unfold clean_response.
  pose proof (all_space_no_backtick _ H0) as N0.
  pose proof (all_space_no_backtick _ H1) as N1.
  pose proof (all_space_no_backtick _ H2) as N2.
  pose proof (all_space_no_backtick _ H3) as N3.
  rewrite (replace_no_first "`" "``json" "" ws0) by done.
  rewrite (replace_match "`" "``json" "").
  rewrite (replace_no_first "`" "``json" "" ws1) by done.
  rewrite (replace_no_first "`" "``json" "" body) by done.
  rewrite (replace_no_first "`" "``json" "" ws2) by done.
  rewrite (replace_json_closing ws3 H3).
  change ("" +:+ ?s) with s.
  rewrite (replace_no_first "`" "``" "" ws0) by done.
  rewrite (replace_no_first "`" "``" "" ws1) by done.
  rewrite (replace_no_first "`" "``" "" body) by done.
  rewrite (replace_no_first "`" "``" "" ws2) by done.
  rewrite (replace_match "`" "``" "").
  rewrite (replace_absent "`" "``" "" ws3) by done.
  change ("" +:+ ws3) with ws3.
  assert (ws0 +:+ ws1 +:+ body +:+ ws2 +:+ ws3
          = (ws0 +:+ ws1) +:+ body +:+ (ws2 +:+ ws3)) as ->.
  { clear. induction ws0 as [| c ws0 IH]; [done |]. exact (f_equal (String c) IH). }
  apply strip_padded; rewrite all_space_app; by apply andb_true_iff.
Qed.

Lemma X11_clean_fenced_json_witness :
  clean_response ("" +:+ "```json" +:+ Str.q "|" +:+ Demo.answer_json +:+ Str.q "|"
                  +:+ "```" +:+ "")
  = Str.strip Demo.answer_json.
Proof.
  apply (X11_clean_fenced_json "" (Str.q "|") Demo.answer_json (Str.q "|") "");
    reflexivity.
Defined.


Lemma prefix_cons a p b s :
  String.prefix (String a p) (String b s) = Ascii.eqb a b && String.prefix p s.
Proof.
  cbn [String.prefix]. destruct (ascii_dec a b) as [-> | Hne].
  - by rewrite Ascii.eqb_refl.
  - apply Ascii.eqb_neq in Hne. by rewrite Hne.
Qed.

Lemma prefix_nil_r p : String.prefix p "" = true -> p = "".
Proof. by destruct p. Qed.

Lemma prefix_nil_l s : String.prefix "" s = true.
Proof. by destruct s. Qed.

Lemma prefix_app_l p a t : String.prefix p a = true -> String.prefix p (a +:+ t) = true.
Proof.
  revert a. induction p as [| c p IH]; intros a H; [apply prefix_nil_l |].
  destruct a as [| x a]; [done |].
  change (String x a +:+ t) with (String x (a +:+ t)).
  rewrite prefix_cons in *. apply andb_true_iff in H as [-> H]. by apply IH.
Qed.

Lemma contains_cons needle c s :
  Str.contains needle (String c s)
  = String.prefix needle (String c s) || Str.contains needle s.
Proof. reflexivity. Qed.

Lemma contains_app_l needle a t :
  Str.contains needle a = true -> Str.contains needle (a +:+ t) = true.
Proof.
  induction a as [| c a IH]; intros H.
  - simpl in H. rewrite orb_false_r in H. apply prefix_nil_r in H as ->.
    destruct t; reflexivity.
  - change (String c a +:+ t) with (String c (a +:+ t)).
    rewrite contains_cons in *. apply orb_true_iff in H as [H | H].
    + change (String c (a +:+ t)) with (String c a +:+ t).
      by rewrite (prefix_app_l _ _ t H).
    + rewrite (IH H). apply orb_true_r.
Qed.

Lemma contains_lstrip needle p s :
  Str.contains needle (Str.lstrip_by p s) = true -> Str.contains needle s = true.
Proof.
  induction s as [| c s IH]; [done |]. cbn [Str.lstrip_by].
  destruct (p c); [| done]. intros H. rewrite contains_cons, (IH H). apply orb_true_r.
Qed.

(** [rstrip] returns a prefix of its argument. *)
Lemma rstrip_prefix p s : exists t, s = Str.rstrip_by p s +:+ t.
Proof.
  induction s as [| c s [t IH]]; [by exists "" |]. cbn [Str.rstrip_by].
  destruct (_ && _).
  - by exists (String c s).
  - exists t. exact (f_equal (String c) IH).
Qed.

Lemma contains_rstrip needle p s :
  Str.contains needle (Str.rstrip_by p s) = true -> Str.contains needle s = true.
Proof.
  intros H. destruct (rstrip_prefix p s) as [t Ht]. rewrite Ht. by apply contains_app_l.
Qed.

(** One step of [replace] with the empty string for the fence marker. *)
Lemma replace_fence_cons c s :
  Str.replace "```" "" (String c s)
  = if String.prefix "```" (String c s)
    then Str.replace "```" "" (Str.drop 2 s)
    else String c (Str.replace "```" "" s).
Proof.
  unfold Str.replace. cbn [Str.replace_go]. destruct (String.prefix _ _); [| done].
  cbn [String.length Nat.pred]. by rewrite replace_go_skip.
Qed.

(** If what is left starts with backticks, so did the text. *)
Lemma replace_fence_head1 t :
  String.prefix "`" (Str.replace "```" "" t) = true -> String.prefix "`" t = true.
Proof.
  destruct t as [| x t]; [done |]. rewrite replace_fence_cons.
  destruct (String.prefix "```" (String x t)) eqn:Hm.
  - intros _. rewrite prefix_cons in *. apply andb_true_iff in Hm as [-> _].
    by rewrite prefix_nil_l.
  - rewrite !prefix_cons. intros H. apply andb_true_iff in H as [-> _].
    by rewrite prefix_nil_l.
Qed.

Lemma replace_fence_head2 t :
  String.prefix "``" (Str.replace "```" "" t) = true -> String.prefix "``" t = true.
Proof.
  destruct t as [| x t]; [done |]. rewrite replace_fence_cons.
  destruct (String.prefix "```" (String x t)) eqn:Hm.
  - intros _. rewrite prefix_cons in *. apply andb_true_iff in Hm as [-> Hm].
    destruct t as [| y t]; [done |]. rewrite prefix_cons in *.
    apply andb_true_iff in Hm as [-> _]. by rewrite prefix_nil_l.
  - rewrite !prefix_cons. intros H. apply andb_true_iff in H as [-> H].
    by rewrite (replace_fence_head1 t H).
Qed.

Lemma length_drop_le n s : String.length (Str.drop n s) <= String.length s.
Proof.
  revert s. induction n as [| n IH]; intros [| c s]; simpl; try lia.
  specialize (IH s). lia.
Qed.

(** After the replacement no fence marker is left. *)
Lemma replace_fence_none s : Str.contains "```" (Str.replace "```" "" s) = false.
Proof.
  remember (String.length s) as n eqn:Hn.
  assert (String.length s <= n) as Hle by lia. clear Hn.
  revert s Hle. induction n as [| n IH]; intros s Hle.
  - destruct s; [done | simpl in Hle; lia].
  - destruct s as [| c s]; [done |]. simpl in Hle. rewrite replace_fence_cons.
    destruct (String.prefix "```" (String c s)) eqn:Hm.
    + apply IH. pose proof (length_drop_le 2 s). lia.
    + rewrite contains_cons, IH by lia. rewrite orb_false_r.
      destruct (String.prefix "```" (String c (Str.replace "```" "" s))) eqn:Hp; [| done].
      rewrite prefix_cons in Hp, Hm. apply andb_true_iff in Hp as [Hc Hp].
      rewrite Hc in Hm. by rewrite (replace_fence_head2 s Hp) in Hm.
Qed.

(** Stripping twice is stripping once. *)
Lemma lstrip_head p s :
  Str.lstrip_by p s = "" \/ exists c t, Str.lstrip_by p s = String c t /\ p c = false.
Proof.
  induction s as [| c s IH]; [by left |]. cbn [Str.lstrip_by].
  destruct (p c) eqn:Hc; [done |]. right. by exists c, s.
Qed.

Lemma rstrip_idem p s : Str.rstrip_by p (Str.rstrip_by p s) = Str.rstrip_by p s.
Proof.
  induction s as [| c s IH]; [done |]. cbn [Str.rstrip_by].
  destruct (String.eqb (Str.rstrip_by p s) "" && p c) eqn:Hcond; [done |].
  cbn [Str.rstrip_by]. by rewrite IH, Hcond.
Qed.

Lemma strip_idem s : Str.strip (Str.strip s) = Str.strip s.
Proof.
  unfold Str.strip.
  destruct (lstrip_head Str.isspace s) as [-> | (c & t & -> & Hc)]; [done |].
  cbn [Str.rstrip_by]. rewrite Hc, andb_false_r.
  cbn [Str.lstrip_by]. rewrite Hc.
  cbn [Str.rstrip_by]. by rewrite rstrip_idem, Hc, andb_false_r.
Qed.

(** X12. Whatever the model answered, the text handed to [json.loads]
    holds no fence marker ([```]) and has no white space at either
    end. *)
Theorem X12_cleaned_text_shape text :
  Str.contains "```" (clean_response text) = false
  /\ Str.strip (clean_response text) = clean_response text.
Proof.
  unfold clean_response. split; [| apply strip_idem].
  destruct (Str.contains "```" (Str.strip _)) eqn:H; [| done].
  unfold Str.strip in H. apply contains_rstrip, contains_lstrip in H.
  by rewrite replace_fence_none in H.
Qed.


(* ===================================================================== *)
(** ** Flattening does not depend on the order of the keys *)
(* ===================================================================== *)

Ltac distinct_keys :=
  match goal with
  | H : _ +:+ "_value" = _ +:+ "_value" |- _ =>
      apply string_app_inv_tail in H; congruence
  | H : _ +:+ "_confidence" = _ +:+ "_confidence" |- _ =>
      apply string_app_inv_tail in H; congruence
  | H : _ +:+ "_value" = _ +:+ "_confidence" |- _ =>
      by apply value_ne_confidence in H
  | H : _ +:+ "_confidence" = _ +:+ "_value" |- _ =>
      symmetry in H; by apply value_ne_confidence in H
  end.

(** The items of two different keys can be flattened in either order. *)
Lemma flatten_item_comm (acc : gmap string pyval) item1 item2 :
  item1.1 <> item2.1 ->
  flatten_item (flatten_item acc item1) item2 = flatten_item (flatten_item acc item2) item1.
Proof.
  destruct item1 as [key1 value1], item2 as [key2 value2]. simpl. intros Hne.
  unfold flatten_item. simpl.
  destruct value1 as [| | | | | | o1]; try done.
  destruct value2 as [| | | | | | o2]; try done.
  apply map_eq. intros k. rewrite !lookup_insert.
  repeat case_decide; try done; subst; exfalso; distinct_keys.
Qed.

Lemma foldl_flatten_permutation (items items' : list (string * pyval)) :
  items ≡ₚ items' ->
  NoDup items.*1 ->
  forall acc : gmap string pyval,
    foldl flatten_item acc items = foldl flatten_item acc items'.
Proof.
  induction 1 as [| x l l' Hperm IH | x y l | l1 l2 l3 H12 IH12 H23 IH23];
    intros Hnd acc.
  - done.
  - simpl. apply IH. by apply NoDup_cons in Hnd as [_ Hnd].
  - simpl. f_equal. apply flatten_item_comm.
    simpl in Hnd. apply NoDup_cons in Hnd as [Hy _]. intros Heq. apply Hy.
    rewrite Heq. by left.
  - rewrite IH12 by done. apply IH23. by rewrite <- H12.
Qed.

(** X13. The flattened result does not depend on the order in which the
    keys of the object are visited: for an object without a top-level
    [error] key, folding lines 87-89 over any enumeration of its entries
    gives the result of [flatten]. *)
Theorem X13_flatten_order_independent (d : gmap string pyval) items :
  d !! "error" = None ->
  items ≡ₚ map_to_list d ->
  flatten (PyDict d) = inr (foldl flatten_item ∅ items).
Proof.
  intros Herr Hperm. unfold flatten, py_contains, py_items. rewrite Herr. f_equal.
  symmetry. apply foldl_flatten_permutation; [done |].
  rewrite Hperm. apply NoDup_fst_map_to_list.
Qed.

Lemma X13_flatten_order_independent_witness :
  flatten (PyDict {[ "b" := PyDict {[ "value" := PyInt 1 ]}; "a" := PyInt 2;
                     "c" := PyDict {[ "confidence" := PyInt 3 ]} ]})
  = inr (foldl flatten_item ∅
           [ ("b", PyDict {[ "value" := PyInt 1 ]});
             ("a", PyInt 2);
             ("c", PyDict {[ "confidence" := PyInt 3 ]}) ]).
Proof.
  apply X13_flatten_order_independent.
  - vm_compute. reflexivity.
  - assert (map_to_list ({[ "b" := PyDict {[ "value" := PyInt 1 ]}; "a" := PyInt 2;
                            "c" := PyDict {[ "confidence" := PyInt 3 ]} ]}
                          : gmap string pyval)
            = [ ("c", PyDict {[ "confidence" := PyInt 3 ]});
                ("a", PyInt 2);
                ("b", PyDict {[ "value" := PyInt 1 ]}) ]) as ->
        by (vm_compute; reflexivity).
    solve_Permutation.
Defined.


(* ===================================================================== *)
(** ** Properties of the window *)
(* ===================================================================== *)

Lemma find_from_spec text l :
  forall k i,
    Combo.find_from text l k = Some i ->
    k <= i /\ l !! (i - k) = Some text.
Proof.
  induction l as [| x l IH]; intros k i H; [done |]. simpl in H.
  destruct (String.eqb x text) eqn:Hx.
  - injection H as <-. apply String.eqb_eq in Hx as ->. rewrite Nat.sub_diag. by split.
  - apply IH in H as [Hle Hl]. split; [lia |].
    replace (i - k) with (S (i - S k)) by lia. done.
Qed.

Lemma find_from_some text l :
  Ui.has_header l text = true -> forall k, exists i, Combo.find_from text l k = Some i.
Proof.
  unfold Ui.has_header. induction l as [| x l IH]; [done |]. simpl. intros H k.
  rewrite (String.eqb_sym text x) in H.
  destruct (String.eqb x text); [by eexists |]. simpl in H. by apply IH.
Qed.

(** After [setCurrentText] with a text of the box, that text is the
    current one. *)
Lemma currentText_set text cb :
  Ui.has_header (Combo.items cb) text = true ->
  Combo.currentText (Combo.setCurrentText text cb) = text
  /\ Combo.items (Combo.setCurrentText text cb) = Combo.items cb.
Proof.
  intros H. unfold Combo.setCurrentText, Combo.findText.
  destruct (find_from_some text _ H 0) as [i Hi]. rewrite Hi.
  apply find_from_spec in Hi as [_ Hi]. rewrite Nat.sub_0_r in Hi.
  unfold Combo.currentText. simpl. by rewrite Hi.
Qed.

Lemma combo_ok_set text cb : Ui.combo_ok cb -> Ui.combo_ok (Combo.setCurrentText text cb).
Proof.
  intros H. unfold Combo.setCurrentText, Combo.findText.
  destruct (Combo.find_from text (Combo.items cb) 0) as [i |] eqn:Hi; [| done].
  apply find_from_spec in Hi as [_ Hi]. rewrite Nat.sub_0_r in Hi.
  unfold Ui.combo_ok. simpl. by eapply lookup_lt_Some.
Qed.

Lemma combo_ok_refill headers cb : Ui.combo_ok (Combo.addItems headers (Combo.clear cb)).
Proof. unfold Ui.combo_ok. destruct headers; simpl; [done | lia]. Qed.

Lemma combo_ok_pick i cb : Ui.combo_ok cb -> Ui.combo_ok (Combo.pick i cb).
Proof.
  intros H. unfold Combo.pick. destruct (Nat.ltb i _) eqn:Hi; [| done].
  apply Nat.ltb_lt in Hi. done.
Qed.

Lemma items_filled_fullname headers cb :
  Combo.items (Ui.filled_fullname headers cb) = headers.
Proof.
  unfold Ui.filled_fullname.
  assert (Hset : forall text cb', Combo.items (Combo.setCurrentText text cb') = Combo.items cb').
  { intros text cb'. unfold Combo.setCurrentText. by destruct (Combo.findText _ _). }
  destruct (Ui.has_header headers "Fullname"), (Ui.has_header headers "Full Name");
    rewrite ?Hset; done.
Qed.

Lemma items_filled_username headers cb :
  Combo.items (Ui.filled_username headers cb) = headers.
Proof.
  unfold Ui.filled_username, Combo.setCurrentText.
  destruct (Ui.has_header headers "Username"); [| done].
  by destruct (Combo.findText _ _).
Qed.

Lemma items_pick i cb : Combo.items (Combo.pick i cb) = Combo.items cb.
Proof. unfold Combo.pick. by destruct (Nat.ltb _ _). Qed.

(** A well-formed box whose current text is not empty shows one of its
    items. *)
Lemma currentText_item cb :
  Ui.combo_ok cb -> Combo.currentText cb <> "" ->
  In (Combo.currentText cb) (Combo.items cb).
Proof.
  unfold Ui.combo_ok, Combo.currentText.
  destruct (Combo.currentIndex cb) as [i |]; [| done].
  intros Hi _. apply lookup_lt_is_Some_2 in Hi as [text Ht]. rewrite Ht. simpl.
  apply list_elem_of_In. by eapply list_elem_of_lookup_2.
Qed.



Ltac inv_parts :=
  unfold window_inv; simpl;
  split; [| split; [| split; [| split; [| split]]]].

Lemma window_inv_initial : window_inv Ui.initial.
Proof. inv_parts; try done. intros [H | H]; done. Qed.

Lemma combo_ok_filled_fullname headers cb : Ui.combo_ok (Ui.filled_fullname headers cb).
Proof.
  unfold Ui.filled_fullname.
  destruct (Ui.has_header headers "Fullname"), (Ui.has_header headers "Full Name");
    repeat apply combo_ok_set; apply combo_ok_refill.
Qed.

Lemma combo_ok_filled_username headers cb : Ui.combo_ok (Ui.filled_username headers cb).
Proof.
  unfold Ui.filled_username.
  destruct (Ui.has_header headers "Username");
    repeat apply combo_ok_set; apply combo_ok_refill.
Qed.

(** Every handler, called when it can be, keeps the invariant. *)
Lemma window_inv_step dk a app :
  window_inv app -> Ui.possible a app = true -> window_inv (Ui.handle dk a app).
Proof.
  intros (Hstop & Hpath & Hf & Hu & Hitems & Hw) Hposs.
  assert (Hworker_path : forall w, Ui.worker app = Some w -> is_Some (Ui.chosen_filepath app)).
  { intros w Hsome. apply Hpath. right. by rewrite Hsome. }
  destruct a as [text | i | i | filepath | | | message | output_filepath | error_message];
    simpl in Hposs; simpl Ui.handle.
  - (* the key field *)
    inv_parts; done.
  - (* a pick in the first box *)
    inv_parts; try done; [by apply combo_ok_pick | by rewrite items_pick].
  - (* a pick in the second box *)
    inv_parts; try done; [by apply combo_ok_pick | by rewrite items_pick].
  - (* browse *)
    assert (Ui.stop_button app = false) as Hnostop.
    { destruct (Ui.stop_button app) eqn:Hs; [| done].
      destruct (Hstop eq_refl) as (_ & Hfb & _). congruence. }
    unfold Ui.browse_file. destruct (String.eqb filepath ""); [done |].
    destruct (Ui.read_headers dk filepath) as [e | headers]; inv_parts;
      rewrite ?Hnostop; try done.
    + apply combo_ok_filled_fullname.
    + apply combo_ok_filled_username.
    + by rewrite items_filled_fullname, items_filled_username.
  - (* run *)
    unfold Ui.start_analysis.
    destruct (String.eqb (Ui.api_key_input app) "") eqn:Hkey; [done |].
    destruct (String.eqb (Combo.currentText (Ui.fullname_combo app)) "") eqn:Hfn; [done |].
    destruct (String.eqb (Combo.currentText (Ui.username_combo app)) "") eqn:Hun; [done |].
    simpl orb. cbv iota.
    assert (is_Some (Ui.chosen_filepath app)) as Hsome by (apply Hpath; by left).
    apply String.eqb_neq in Hkey, Hfn, Hun.
    inv_parts; try done.
    + intros _. split; [done |]. split; [done |]. by eexists.
    + by intros w [= <-].
  - (* stop *)
    destruct (Hstop Hposs) as (_ & _ & w & Hsome & _).
    unfold Ui.stop_analysis, Ui.reset_ui_state.
    inv_parts; try done.
    + intros _. by eapply Hworker_path.
    + rewrite Hsome. simpl. intros w' [= <-]. exact (Hw w Hsome).
  - (* progress *)
    inv_parts; done.
  - (* finished *)
    destruct (Ui.worker app) as [w |] eqn:Hsome; [| done].
    unfold Ui.analysis_finished, Ui.display_results, Ui.reset_ui_state.
    destruct (Ui.read_output dk output_filepath) as [e | df]; inv_parts;
      rewrite ?Hsome; try done; intros _; by eapply Hworker_path.
  - (* error *)
    destruct (Ui.worker app) as [w |] eqn:Hsome; [| done].
    unfold Ui.analysis_error, Ui.reset_ui_state.
    inv_parts; rewrite ?Hsome; try done. intros _. by eapply Hworker_path.
Qed.

Lemma reachable_inv dk app : Ui.reachable dk app -> window_inv app.
Proof.
  induction 1 as [| a app Hreach IH Hposs]; [apply window_inv_initial |].
  by apply window_inv_step.
Qed.


Lemma reachable_ready : Ui.reachable UiCases.dk UiCases.ready.
Proof.
  unfold UiCases.ready.
  apply Ui.reachable_step; [| reflexivity].
  apply Ui.reachable_step; [| reflexivity].
  apply Ui.reachable_initial.
Qed.

Lemma reachable_running : Ui.reachable UiCases.dk UiCases.running.
Proof. apply Ui.reachable_step; [apply reachable_ready | reflexivity]. Qed.

(** X14. In every state the window can reach, the Stop button is enabled
    only while Run and Browse are disabled and the current worker's flag
    is set; and Run is enabled only once a file was chosen. *)
Theorem X14_buttons_invariant dk app :
  Ui.reachable dk app ->
  (Ui.stop_button app = true ->
   Ui.run_button app = false /\ Ui.file_button app = false
   /\ exists w, Ui.worker app = Some w /\ Ui.w_is_running w = true)
  /\ (Ui.run_button app = true -> is_Some (Ui.chosen_filepath app)).
Proof.
  intros Hreach. destruct (reachable_inv dk app Hreach) as (Hstop & Hpath & _).
  split; [done |]. intros Hrun. apply Hpath. by left.
Qed.

Lemma X14_buttons_invariant_witness :
  (Ui.stop_button UiCases.running = true ->
   Ui.run_button UiCases.running = false /\ Ui.file_button UiCases.running = false
   /\ exists w, Ui.worker UiCases.running = Some w /\ Ui.w_is_running w = true)
  /\ (Ui.run_button UiCases.running = true -> is_Some (Ui.chosen_filepath UiCases.running)).
Proof. apply (X14_buttons_invariant UiCases.dk). apply reachable_running. Defined.

Lemma currentText_refill headers cb :
  Combo.currentText (Combo.addItems headers (Combo.clear cb)) = default "" (head headers).
Proof. by destruct headers. Qed.

(** X15. Browsing a file whose header can be read refills both boxes with
    the header and picks the defaults: for the full name, [Full Name] if
    the header has it, else [Fullname] if it has that, else the first
    column; for the username, [Username] if the header has it, else the
    first column. The path is recorded and Run is enabled. *)
Theorem X15_browse_defaults dk filepath app headers :
  filepath <> "" ->
  Ui.read_headers dk filepath = inr headers ->
  Ui.chosen_filepath (Ui.browse_file dk filepath app) = Some filepath
  /\ Ui.run_button (Ui.browse_file dk filepath app) = true
  /\ Combo.items (Ui.fullname_combo (Ui.browse_file dk filepath app)) = headers
  /\ Combo.items (Ui.username_combo (Ui.browse_file dk filepath app)) = headers
  /\ Combo.currentText (Ui.fullname_combo (Ui.browse_file dk filepath app))
     = (if Ui.has_header headers "Full Name" then "Full Name"
        else if Ui.has_header headers "Fullname" then "Fullname"
        else default "" (head headers))
  /\ Combo.currentText (Ui.username_combo (Ui.browse_file dk filepath app))
     = (if Ui.has_header headers "Username" then "Username"
        else default "" (head headers)).
Proof.
  intros Hne Hread. unfold Ui.browse_file.
  apply String.eqb_neq in Hne. rewrite Hne, Hread. simpl.
  split; [done |]. split; [done |].
  split; [apply items_filled_fullname |]. split; [apply items_filled_username |].
  split.
  - unfold Ui.filled_fullname.
    set (cb := Combo.addItems headers (Combo.clear (Ui.fullname_combo app))).
    assert (Combo.items cb = headers) as Hitems by done.
    destruct (Ui.has_header headers "Full Name") eqn:Hfull.
    + apply currentText_set.
      destruct (Ui.has_header headers "Fullname") eqn:Hfn; [| by rewrite Hitems].
      destruct (currentText_set "Fullname" cb) as [_ ->]; by rewrite Hitems.
    + destruct (Ui.has_header headers "Fullname") eqn:Hfn.
      * apply currentText_set. by rewrite Hitems.
      * apply currentText_refill.
  - unfold Ui.filled_username.
    destruct (Ui.has_header headers "Username") eqn:Hun.
    + by apply currentText_set.
    + apply currentText_refill.
Qed.

Lemma X15_browse_defaults_witness :
  Ui.chosen_filepath (Ui.browse_file UiCases.dk3 "data/users.xlsx" Ui.initial)
  = Some "data/users.xlsx"
  /\ Ui.run_button (Ui.browse_file UiCases.dk3 "data/users.xlsx" Ui.initial) = true
  /\ Combo.items (Ui.fullname_combo (Ui.browse_file UiCases.dk3 "data/users.xlsx" Ui.initial))
     = ["Fullname"; "Full Name"; "Username"]
  /\ Combo.items (Ui.username_combo (Ui.browse_file UiCases.dk3 "data/users.xlsx" Ui.initial))
     = ["Fullname"; "Full Name"; "Username"]
  /\ Combo.currentText
       (Ui.fullname_combo (Ui.browse_file UiCases.dk3 "data/users.xlsx" Ui.initial))
     = (if Ui.has_header ["Fullname"; "Full Name"; "Username"] "Full Name" then "Full Name"
        else if Ui.has_header ["Fullname"; "Full Name"; "Username"] "Fullname"
             then "Fullname"
             else default "" (head ["Fullname"; "Full Name"; "Username"]))
  /\ Combo.currentText
       (Ui.username_combo (Ui.browse_file UiCases.dk3 "data/users.xlsx" Ui.initial))
     = (if Ui.has_header ["Fullname"; "Full Name"; "Username"] "Username" then "Username"
        else default "" (head ["Fullname"; "Full Name"; "Username"])).
Proof.
  apply (X15_browse_defaults UiCases.dk3 "data/users.xlsx" Ui.initial
           ["Fullname"; "Full Name"; "Username"]).
  - discriminate.
  - reflexivity.
Defined.

(** What a click on Run does in a reachable state. *)
Lemma start_analysis_cases dk app :
  Ui.reachable dk app ->
  Ui.run_button app = true ->
  ((Ui.api_key_input app = ""
    \/ Combo.currentText (Ui.fullname_combo app) = ""
    \/ Combo.currentText (Ui.username_combo app) = "")
   /\ exists text, Ui.start_analysis app = Ui.append_log text app)
  \/ (exists w W,
        Ui.worker (Ui.start_analysis app) = Some w
        /\ Ui.w_is_running w = true
        /\ Ui.as_worker w = Some W
        /\ api_key W = Ui.api_key_input app
        /\ api_key W <> ""
        /\ Ui.chosen_filepath app = Some (input_filepath W)
        /\ fullname_col W = Combo.currentText (Ui.fullname_combo app)
        /\ username_col W = Combo.currentText (Ui.username_combo app)
        /\ In (fullname_col W) (Combo.items (Ui.fullname_combo app))
        /\ In (username_col W) (Combo.items (Ui.username_combo app))
        /\ Ui.run_button (Ui.start_analysis app) = false
        /\ Ui.stop_button (Ui.start_analysis app) = true
        /\ Ui.file_button (Ui.start_analysis app) = false
        /\ Ui.log_output (Ui.start_analysis app) = ["Starting analysis..."]).
Proof.
  intros Hreach Hrun.
  destruct (reachable_inv dk app Hreach) as (_ & Hpath & Hf & Hu & _ & _).
  destruct (Hpath (or_introl Hrun)) as [path Hp].
  unfold Ui.start_analysis.
  destruct (String.eqb (Ui.api_key_input app) "") eqn:Hkey.
  { left. apply String.eqb_eq in Hkey. split; [by left | by eexists]. }
  destruct (String.eqb (Combo.currentText (Ui.fullname_combo app)) "") eqn:Hfn.
  { left. apply String.eqb_eq in Hfn. split; [right; by left | by eexists]. }
  destruct (String.eqb (Combo.currentText (Ui.username_combo app)) "") eqn:Hun.
  { left. apply String.eqb_eq in Hun. split; [right; by right | by eexists]. }
  right. simpl orb. cbv iota. apply String.eqb_neq in Hkey, Hfn, Hun.
  eexists _, {| api_key := Ui.api_key_input app; input_filepath := path;
                fullname_col := Combo.currentText (Ui.fullname_combo app);
                username_col := Combo.currentText (Ui.username_combo app) |}.
  simpl. split; [reflexivity |]. split; [done |].
  split; [unfold Ui.as_worker; simpl; by rewrite Hp |].
  do 5 (split; [done |]).
  split; [by apply currentText_item |]. split; [by apply currentText_item |]. done.
Qed.




Lemma critical_ne_column e self : critical_msg e <> column_error_msg self.
Proof. unfold critical_msg, column_error_msg. simpl. discriminate. Qed.

(** The column error is signalled only by the check of lines 40-42. *)
Lemma run_column_error w self files :
  In (ErrorSig (column_error_msg self)) (trace (run w self (init files)).2) ->
  out (setup w self) = Return.
Proof.
  rewrite run_eq. intros Hin.
  assert (Hcrit : forall e, ErrorSig (critical_msg e) <> ErrorSig (column_error_msg self)).
  { intros e H. assert (critical_msg e = column_error_msg self) as H' by congruence.
    by apply critical_ne_column in H'. }
  assert (Hloop : forall n rs, ~ In (ErrorSig (column_error_msg self))
                                  (log (loop w self n rs 0 []))).
  { intros n rs H. by apply loop_no_write in H as [_ H]. }
  destruct (out (setup w self)) as [df | e |] eqn:Hsetup; [| | done]; exfalso.
  - destruct (setup_val w self df Hsetup) as (_ & _ & _ & _ & _ & Hl).
    assert (~ In (ErrorSig (column_error_msg self)) (log (setup w self))) as Hs.
    { rewrite Hl. unfold read_event. simpl.
      destruct (Str.endswith _ _); intros H;
        repeat (destruct H as [H | H]; [discriminate |]); destruct H. }
    cbv zeta in Hin.
    assert (forall tail,
               (forall ev, In ev tail -> ev <> ErrorSig (column_error_msg self)) ->
               ~ In (ErrorSig (column_error_msg self))
                    (trace (init files) ++ log (setup w self)
                     ++ log (loop w self (length (rows df)) (rows df) 0 []) ++ tail))
      as Hno.
    { intros tail Htail H. simpl in H.
      apply in_app_or in H as [H | H]; [done |].
      apply in_app_or in H as [H | H]; [by apply Hloop in H |].
      by apply Htail in H. }
    destruct (out (loop w self (length (rows df)) (rows df) 0 [])) as [results | e |].
    + destruct (to_csv w _ _) as [[e remains] |]; apply Hno in Hin; try done;
        intros ev [<- | [<- | []]]; try done; apply Hcrit.
    + apply Hno in Hin; [done |]. intros ev [<- | []]. apply Hcrit.
    + simpl in Hin. rewrite <- (app_nil_r (log (loop _ _ _ _ _ _))) in Hin.
      apply (Hno []) in Hin; [done |]. by intros ev [].
  - simpl in Hin. apply in_app_or in Hin as [Hin | Hin].
    + destruct (setup_cases w self)
        as [(e' & _ & Ho & Hl) | [(e' & _ & _ & Ho & Hl) | [(e' & _ & _ & _ & Ho & Hl)
           | [(df & _ & _ & _ & _ & Ho & _) | (df & _ & _ & _ & _ & _ & Ho & _)]]]];
        rewrite Ho in Hsetup; try discriminate; rewrite Hl in Hin;
        unfold read_event in Hin; simpl in Hin;
        try destruct (Str.endswith _ _);
        repeat (destruct Hin as [Hin | Hin]; [discriminate |]); destruct Hin.
    + destruct Hin as [Hin | []]. by apply Hcrit in Hin.
Qed.

(** X17. The window and the worker together: a worker started by a click
    on Run that passes the two checks of [start_analysis], in any state
    the window can reach, and run on a file whose header is still the one
    shown in the boxes, finds both its columns and never signals the
    column error of lines 40-42. *)
Theorem X17_started_worker_finds_its_columns dk app w W world df files :
  Ui.reachable dk app ->
  Ui.run_button app = true ->
  Ui.api_key_input app <> "" ->
  Combo.currentText (Ui.fullname_combo app) <> "" ->
  Combo.currentText (Ui.username_combo app) <> "" ->
  Ui.worker (Ui.start_analysis app) = Some w ->
  Ui.as_worker w = Some W ->
  input_table world W = inr df ->
  columns df = Combo.items (Ui.fullname_combo app) ->
  has_column df (fullname_col W) = true
  /\ has_column df (username_col W) = true
  /\ ~ In (ErrorSig (column_error_msg W)) (trace (run world W (init files)).2).
Proof.
  intros Hreach Hrun Hkey Hfn Hun Hstart Has Htable Hcols.
  destruct (reachable_inv dk app Hreach) as (_ & _ & _ & _ & Hitems & _).
  destruct (start_analysis_cases dk app Hreach Hrun)
    as [[Hempty _] | (w' & W' & Hw' & _ & Has' & _ & _ & _ & _ & _ & Hf & Hu & _)].
  { by destruct Hempty as [H | [H | H]]. }
  assert (w' = w) as -> by congruence. assert (W' = W) as -> by congruence.
  assert (has_column df (fullname_col W) = true) as Hhf.
  { apply has_column_In. by rewrite Hcols. }
  assert (has_column df (username_col W) = true) as Hhu.
  { apply has_column_In. by rewrite Hcols, Hitems. }
  split; [done |]. split; [done |].
  intros Hin. apply run_column_error in Hin.
  destruct (setup_cases world W)
    as [(e & _ & Ho & _) | [(e & _ & _ & Ho & _) | [(e & _ & _ & _ & Ho & _)
       | [(df' & _ & _ & Ht & Hmiss & Ho & _) | (df' & _ & _ & _ & _ & _ & Ho & _)]]]];
    rewrite Ho in Hin; try discriminate.
  assert (df' = df) as -> by congruence. destruct Hmiss; congruence.
Qed.

Lemma X17_started_worker_finds_its_columns_witness :
  has_column Demo.table (fullname_col Demo.self) = true
  /\ has_column Demo.table (username_col Demo.self) = true
  /\ ~ In (ErrorSig (column_error_msg Demo.self))
          (trace (run Demo.second_fails Demo.self (init ∅)).2).
Proof.
  apply (X17_started_worker_finds_its_columns UiCases.dk UiCases.ready
           {| Ui.w_api_key := "k"; Ui.w_input_filepath := Some "data/users.xlsx";
              Ui.w_fullname_col := "Full Name"; Ui.w_username_col := "Username";
              Ui.w_is_running := true |}
           Demo.self Demo.second_fails Demo.table ∅).
  - apply reachable_ready.
  - reflexivity.
  - discriminate.
  - discriminate.
  - discriminate.
  - reflexivity.
  - reflexivity.
  - reflexivity.
  - reflexivity.
Defined.

(** A handler other than [start_analysis] never sets the flag of the
    worker. *)
Lemma flag_not_set_again dk a app w w' :
  Ui.worker app = Some w ->
  Ui.w_is_running w = false ->
  Ui.worker (Ui.handle dk a app) = Some w' ->
  Ui.w_is_running w' = true ->
  a = Ui.ClickRun.
Proof.
  intros Hsome Hflag Hafter Hset.
  destruct a as [text | i | i | filepath | | | message | output_filepath | error_message];
    [| | | | done | | | |]; exfalso; simpl in Hafter.
  - rewrite Hsome in Hafter. congruence.
  - rewrite Hsome in Hafter. congruence.
  - rewrite Hsome in Hafter. congruence.
  - unfold Ui.browse_file in Hafter.
    destruct (String.eqb filepath ""); [rewrite Hsome in Hafter; congruence |].
    destruct (Ui.read_headers dk filepath); simpl in Hafter;
      rewrite Hsome in Hafter; congruence.
  - rewrite Hsome in Hafter. simpl in Hafter. injection Hafter as <-. done.
  - rewrite Hsome in Hafter. congruence.
  - unfold Ui.analysis_finished, Ui.display_results in Hafter.
    destruct (Ui.read_output dk output_filepath); simpl in Hafter;
      rewrite Hsome in Hafter; congruence.
  - rewrite Hsome in Hafter. congruence.
Qed.

(** X18. A click on Stop, in any state the window can reach, clears the
    flag of the current worker and at once puts the buttons back to idle
    (Run and Browse enabled, Stop disabled) without waiting for the worker
    to notice; and once the flag of the worker the window holds is
    cleared, no handler sets it again: the only way to a worker with its
    flag set is a new click on Run. *)
Theorem X18_stop_click dk app :
  Ui.reachable dk app ->
  Ui.stop_button app = true ->
  (exists w,
      Ui.worker app = Some w
      /\ Ui.w_is_running w = true
      /\ Ui.worker (Ui.stop_analysis app) = Some (Ui.clear_flag w)
      /\ Ui.w_is_running (Ui.clear_flag w) = false
      /\ Ui.run_button (Ui.stop_analysis app) = true
      /\ Ui.stop_button (Ui.stop_analysis app) = false
      /\ Ui.file_button (Ui.stop_analysis app) = true
      /\ Ui.log_output (Ui.stop_analysis app) = Ui.log_output app)
  /\ (forall a w w',
        Ui.worker (Ui.stop_analysis app) = Some w ->
        Ui.worker (Ui.handle dk a (Ui.stop_analysis app)) = Some w' ->
        Ui.w_is_running w' = true ->
        a = Ui.ClickRun).
Proof.
  intros Hreach Hstop.
  destruct (reachable_inv dk app Hreach) as (Hinv & _).
  destruct (Hinv Hstop) as (_ & _ & w & Hsome & Hflag).
  split.
  - exists w. unfold Ui.stop_analysis. simpl. rewrite Hsome. done.
  - intros a w0 w' Hw0 Hafter Hset.
    apply (flag_not_set_again dk a (Ui.stop_analysis app) w0 w'); try done.
    unfold Ui.stop_analysis in Hw0. simpl in Hw0. rewrite Hsome in Hw0.
    simpl in Hw0. by injection Hw0 as <-.
Qed.

Lemma X18_stop_click_witness :
  (exists w,
      Ui.worker UiCases.running = Some w
      /\ Ui.w_is_running w = true
      /\ Ui.worker (Ui.stop_analysis UiCases.running) = Some (Ui.clear_flag w)
      /\ Ui.w_is_running (Ui.clear_flag w) = false
      /\ Ui.run_button (Ui.stop_analysis UiCases.running) = true
      /\ Ui.stop_button (Ui.stop_analysis UiCases.running) = false
      /\ Ui.file_button (Ui.stop_analysis UiCases.running) = true
      /\ Ui.log_output (Ui.stop_analysis UiCases.running) = Ui.log_output UiCases.running)
  /\ (forall a w w',
        Ui.worker (Ui.stop_analysis UiCases.running) = Some w ->
        Ui.worker (Ui.handle UiCases.dk a (Ui.stop_analysis UiCases.running)) = Some w' ->
        Ui.w_is_running w' = true ->
        a = Ui.ClickRun).
Proof.
  apply (X18_stop_click UiCases.dk); [apply reachable_running | reflexivity].
Defined.

(** The texts shown for a table: one row of texts for each row of the
    table, one text for each column, a missing cell giving the empty
    text. *)
Lemma shown_rows_lookup df i j row col :
  rows df !! i = Some row ->
  columns df !! j = Some col ->
  exists shown,
    Ui.shown_rows df !! i = Some shown
    /\ length shown = length (columns df)
    /\ shown !! j
       = Some (if pd_isna (default NaN (row !! col)) then ""
               else py_str (default NaN (row !! col))).
Proof.
  intros Hrow Hcol. unfold Ui.shown_rows.
  eexists. split; [| split].
  - rewrite list_lookup_fmap, Hrow. reflexivity.
  - by rewrite length_map.
  - rewrite list_lookup_fmap, Hcol. simpl. unfold normalize.
    by destruct (pd_isna (default NaN (row !! col))).
Qed.

(** X19. When the [finished] signal arrives the window goes back to idle
    (Run and Browse enabled, Stop disabled) whether or not the results
    can be shown. If the output file reads back, the table gets its
    header, one row of texts for each of its rows and one text for each
    column, a missing cell being shown as the empty text and not as
    [nan]; if reading it back raises, the error is only logged and the
    table is left as it was. *)
Theorem X19_finished_signal dk output_filepath app :
  Ui.run_button (Ui.analysis_finished dk output_filepath app) = true
  /\ Ui.stop_button (Ui.analysis_finished dk output_filepath app) = false
  /\ Ui.file_button (Ui.analysis_finished dk output_filepath app) = true
  /\ Ui.worker (Ui.analysis_finished dk output_filepath app) = Ui.worker app
  /\ match Ui.read_output dk output_filepath with
     | inr df =>
         Ui.log_output (Ui.analysis_finished dk output_filepath app)
         = Ui.log_output app
           ++ [Str.q "|Analysis complete!"; "Results saved to: " +:+ output_filepath;
               "Loading results into table..."; "Results loaded successfully."]
         /\ Ui.results_visible (Ui.analysis_finished dk output_filepath app) = true
         /\ (Ui.results_table (Ui.analysis_finished dk output_filepath app)).1 = columns df
         /\ length (Ui.results_table (Ui.analysis_finished dk output_filepath app)).2
            = length (rows df)
         /\ (forall i j row col,
               rows df !! i = Some row ->
               columns df !! j = Some col ->
               exists shown,
                 (Ui.results_table (Ui.analysis_finished dk output_filepath app)).2 !! i
                 = Some shown
                 /\ length shown = length (columns df)
                 /\ shown !! j
                    = Some (if pd_isna (default NaN (row !! col)) then ""
                            else py_str (default NaN (row !! col))))
     | inl e =>
         Ui.log_output (Ui.analysis_finished dk output_filepath app)
         = Ui.log_output app
           ++ [Str.q "|Analysis complete!"; "Results saved to: " +:+ output_filepath;
               "Loading results into table..."; "Error displaying results: " +:+ e]
         /\ Ui.results_visible (Ui.analysis_finished dk output_filepath app)
            = Ui.results_visible app
         /\ Ui.results_table (Ui.analysis_finished dk output_filepath app)
            = Ui.results_table app
     end.
Proof.
  unfold Ui.analysis_finished, Ui.display_results.
  destruct (Ui.read_output dk output_filepath) as [e | df] eqn:Hread; simpl.
  - repeat (split; [done |]).
    split; [| done].
    by rewrite <- !app_assoc.
  - repeat (split; [done |]).
    split; [by rewrite <- !app_assoc |].
    split; [done |]. split; [done |].
    split; [unfold Ui.shown_rows; by rewrite length_map |].
    intros i j row col Hrow Hcol. by apply shown_rows_lookup.
Qed.
